(** * datatube: validated records and the statistics store

    A shallow embedding of [datatube/info.py] ([PropertyDict], [ChannelInfo],
    [ChannelInfo.HtmlDict], [VideoInfo]) and of [datatube/stats.py]
    ([check_dtypes], [coerce_dtypes], [Stats]).

    Python objects are values of the type [value]; an exception is the
    [Raise] branch of [result]; the wall clock read by [datetime.now] is an
    explicit [clock] argument; a pandas frame is a list of labelled rows under
    a list of named, typed columns. *)

From Stdlib Require Import ZArith QArith Qabs List String Ascii Bool Lia.
From Stdlib Require Import Sorting.Sorted.
From stdpp Require Import base option list strings gmap.
Import ListNotations.

Set Warnings "-register-all".
Open Scope string_scope.
Open Scope Z_scope.

(** ** Exceptions *)

Module Py.

Inductive error :=
| TypeError | ValueError | AttributeError | KeyError | IndexError
| RuntimeError | NotImplementedError | ZeroDivisionError | OverflowError.

Inductive result (A : Type) :=
| Ok (a : A)
| Raise (e : error).

Arguments Ok {A} a.
Arguments Raise {A} e.

Definition bind {A B} (m : result A) (k : A -> result B) : result B :=
  match m with
  | Ok a => k a
  | Raise e => Raise e
  end.

(** [if c: raise e] *)
Definition raise_if (c : bool) (e : error) : result unit :=
  if c then Raise e else Ok tt.

Definition is_ok {A} (m : result A) : bool :=
  match m with Ok _ => true | Raise _ => false end.

(** [for x in xs: body(x)] where the body only checks. *)
Fixpoint for_each {A} (body : A -> result unit) (xs : list A) : result unit :=
  match xs with
  | [] => Ok tt
  | x :: xs' => bind (body x) (fun _ => for_each body xs')
  end.

End Py.
Export Py.

Notation "'let!' x ':=' m 'in' k" := (bind m (fun x => k))
  (at level 10, x pattern, m at level 100, k at level 200).
Notation "'do!' m 'in' k" := (bind m (fun _ => k))
  (at level 10, m at level 100, k at level 200).

(** ** [datetime.datetime] and [datetime.timedelta]

    A datetime has the fields Python keeps: the date and time of the wall
    clock, the attached time zone object ([None] for a naive datetime) and
    [fold], which tells the two passes of a wall time that a zone repeats.
    A time zone object is a [datetime.timezone], whose UTC offset is fixed,
    or a [zoneinfo.ZoneInfo], whose offset (in microseconds, like every
    duration here) depends on the wall time and on [fold]; two [ZoneInfo] of
    one key are one object.  A timedelta is its total number of
    microseconds. *)

Module Datetime.

Inductive tz :=
| timezone (offset : Z)
| ZoneInfo (key : string) (offset_at : Z -> bool -> Z).

Record datetime := mk_datetime {
  year : Z; month : Z; day : Z;
  hour : Z; minute : Z; second : Z; microsecond : Z;
  tzinfo : option tz;
  fold : bool
}.

Definition is_leap (y : Z) : bool :=
  (y mod 4 =? 0) && (negb (y mod 100 =? 0) || (y mod 400 =? 0)).

Definition days_in_month (y m : Z) : Z :=
  if m =? 2 then (if is_leap y then 29 else 28)
  else if (m =? 4) || (m =? 6) || (m =? 9) || (m =? 11) then 30
  else 31.

Definition days_before_year (y : Z) : Z :=
  let p := y - 1 in p * 365 + p / 4 - p / 100 + p / 400.

Fixpoint days_before_month_aux (y : Z) (m : nat) : Z :=
  match m with
  | O => 0
  | S m' => days_before_month_aux y m' + days_in_month y (Z.of_nat m)
  end.

Definition days_before_month (y m : Z) : Z :=
  days_before_month_aux y (Z.to_nat (m - 1)).

(** [date.toordinal]: day 1 is 0001-01-01. *)
Definition toordinal (d : datetime) : Z :=
  days_before_year (year d) + days_before_month (year d) (month d) + day d.

(** Microseconds of the wall-clock reading since the start of day 0. *)
Definition wall_us (d : datetime) : Z :=
  (((toordinal d * 24 + hour d) * 60 + minute d) * 60 + second d) * 1000000
  + microsecond d.

(** [tzinfo.utcoffset(dt)] *)
Definition tz_utcoffset (z : tz) (wall : Z) (fold : bool) : Z :=
  match z with
  | timezone offset => offset
  | ZoneInfo _ offset_at => offset_at wall fold
  end.

(** [dt.utcoffset()]: [None] for a naive datetime. *)
Definition utcoffset (d : datetime) : option Z :=
  option_map (fun z => tz_utcoffset z (wall_us d) (fold d)) (tzinfo d).

(** The wall-clock reading of a naive datetime, the UTC instant of an aware
    one. *)
Definition instant (d : datetime) : Z :=
  match utcoffset d with
  | None => wall_us d
  | Some off => wall_us d - off
  end.

Definition is_aware (d : datetime) : bool :=
  match tzinfo d with Some _ => true | None => false end.

(** The two datetimes carry the same [tzinfo]: both none, or the same zone
    object.  Two [timezone] objects of one offset need not be one object, but
    no comparison tells them apart. *)
Definition same_tz (a b : tz) : bool :=
  match a, b with
  | timezone x, timezone y => x =? y
  | ZoneInfo k _, ZoneInfo k' _ => String.eqb k k'
  | _, _ => false
  end.

Definition same_tzinfo (a b : datetime) : bool :=
  match tzinfo a, tzinfo b with
  | None, None => true
  | Some x, Some y => same_tz x y
  | _, _ => false
  end.

(** The UTC offset of the datetime depends on its [fold]: the wall time is
    one that its zone repeats or skips. *)
Definition fold_matters (d : datetime) : bool :=
  match tzinfo d with
  | Some z =>
      negb (tz_utcoffset z (wall_us d) (fold d) =? tz_utcoffset z (wall_us d) (negb (fold d)))
  | None => false
  end.

(** [a < b], [a > b], ...: datetimes of one [tzinfo] are ordered by their
    wall-clock readings, [tzinfo] and [fold] ignored; aware datetimes of
    different zones by their UTC instants; ordering a naive against an aware
    datetime raises [TypeError]. *)
Definition dt_compare (a b : datetime) : result comparison :=
  if same_tzinfo a b then Ok (wall_us a ?= wall_us b)
  else if is_aware a && is_aware b then Ok (instant a ?= instant b)
  else Raise TypeError.

Definition dt_gt (a b : datetime) : result bool :=
  let! c := dt_compare a b in Ok (match c with Gt => true | _ => false end).

Definition dt_lt (a b : datetime) : result bool :=
  let! c := dt_compare a b in Ok (match c with Lt => true | _ => false end).

Definition dt_le (a b : datetime) : result bool :=
  let! c := dt_compare a b in Ok (match c with Gt => false | _ => true end).

(** [a == b] never raises: datetimes of one [tzinfo] are equal when their
    wall-clock readings are; a naive and an aware datetime are unequal; aware
    datetimes of different zones are equal when their UTC instants are,
    unless the offset of one of them depends on its [fold]. *)
Definition dt_eq (a b : datetime) : bool :=
  if same_tzinfo a b then wall_us a =? wall_us b
  else is_aware a && is_aware b && (instant a =? instant b)
       && negb (fold_matters a) && negb (fold_matters b).

(** The ranges the [datetime] constructor enforces, and an offset of less
    than a day, which [timezone] enforces and every zone keeps. *)
Definition valid_datetime (d : datetime) : bool :=
  (1 <=? year d) && (year d <=? 9999) &&
  (1 <=? month d) && (month d <=? 12) &&
  (1 <=? day d) && (day d <=? days_in_month (year d) (month d)) &&
  (0 <=? hour d) && (hour d <? 24) &&
  (0 <=? minute d) && (minute d <? 60) &&
  (0 <=? second d) && (second d <? 60) &&
  (0 <=? microsecond d) && (microsecond d <? 1000000) &&
  match utcoffset d with
  | None => true
  | Some off => (-86400000000 <? off) && (off <? 86400000000)
  end.

(** The wall clock: what [datetime.now(timezone.utc)] and [datetime.now()]
    read.  Only the date and time fields of the two readings are used. *)
Record clock := mk_clock { utc_reading : datetime; local_reading : datetime }.

Definition with_tz (d : datetime) (z : option tz) : datetime :=
  mk_datetime (year d) (month d) (day d) (hour d) (minute d) (second d)
              (microsecond d) z false.

(** [datetime.now(timezone.utc)]: aware, offset 0. *)
Definition now_utc (clk : clock) : datetime := with_tz (utc_reading clk) (Some (timezone 0)).

(** [datetime.now()]: naive local time. *)
Definition now_naive (clk : clock) : datetime := with_tz (local_reading clk) None.

End Datetime.
Export Datetime.

(** ** Python values

    The arguments of the setters and of [Stats.add_row] are untyped in the
    source and checked with [isinstance]; they are values of this type.  A
    finite [float] is the rational it denotes; what an operation computes in
    floats is rounded to the nearest double ([round_double]).  A [ChannelInfo.HtmlDict] is an
    object with identity: a reference into the object store. *)

Module Value.

Inductive value :=
| VNone
| VBool (b : bool)
| VInt (z : Z)
| VFloat (q : Q)
| VStr (s : string)
| VDatetime (d : datetime)
| VTimedelta (us : Z)
| VList (l : list value)
| VTuple (l : list value)
| VSet (l : list value)
| VDict (kv : list (string * value))
| VHtmlDict (ref : nat).

(** [isinstance(v, int)]: [bool] is a subclass of [int]. *)
Definition as_int (v : value) : option Z :=
  match v with
  | VInt z => Some z
  | VBool b => Some (if b then 1 else 0)
  | _ => None
  end.

(** [isinstance(v, (int, float))], with the number denoted. *)
Definition as_number (v : value) : option Q :=
  match v with
  | VFloat q => Some q
  | _ => option_map inject_Z (as_int v)
  end.

(** The integer nearest to a rational, the even one of two equally near. *)
Definition round_half_even (q : Q) : Z :=
  let n := Qnum q in
  let d := Zpos (Qden q) in
  let f := n / d in
  match 2 * (n mod d) ?= d with
  | Lt => f
  | Gt => f + 1
  | Eq => if Z.even f then f else f + 1
  end.

(** The exponent of the power of 2 at or below a positive rational. *)
Definition Qlog2 (q : Q) : Z :=
  let e := Z.log2 (Qnum q) - Z.log2 (Zpos (Qden q)) in
  if Qle_bool (2 ^ e)%Q q then e else e - 1.

(** The double nearest to a rational below the largest double: 53
    significant bits, no exponent under -1074, ties to the even
    significand. *)
Definition round_double (q : Q) : Q :=
  if Qeq_bool q 0 then 0%Q
  else
    let a := Qabs q in
    let e := Z.max (Qlog2 a - 52) (-1074) in
    let r := (inject_Z (round_half_even (a / 2 ^ e)) * 2 ^ e)%Q in
    Qred (if Qle_bool 0 q then r else (- r)%Q).

(** [float(n)] of an [int] raises [OverflowError] from here on. *)
Definition float_overflows (z : Z) : bool := 2 ^ 1024 - 2 ^ 970 <=? Z.abs z.

Definition in_int64 (z : Z) : bool := (- 2 ^ 63 <=? z) && (z <? 2 ^ 63).

(** Truth value of a string: [not s] holds for the empty string only. *)
Definition str_truthy (s : string) : bool := negb (String.eqb s "").

End Value.
Export Value.

(** * [datatube/stats.py] *)

(** ** The frame model

    A pandas column has a dtype and holds cells; a frame has named columns in
    order and rows carrying their index label.  Row [i] of column [j] is the
    [j]-th cell of the [i]-th row. *)

Module Pandas.

Inductive dtype :=
| np_object | np_int64 | np_float64 | np_complex128 | np_bool
| np_datetime64 | np_timedelta64
| pd_Int64 | pd_Float64 | pd_boolean | pd_string
| pd_datetime64tz (zone : tz).

Inductive cell :=
| NA
| CInt (z : Z)
| CFloat (q : Q)
| CComplex (re im : Q)
| CStr (s : string)
| CBool (b : bool)
| CTimestamp (d : datetime)
| CTimedelta (us : Z)
| CObject (tag : nat).

Record Series := mk_series { s_dtype : dtype; s_values : list cell }.

Record DataFrame := mk_frame {
  columns : list (string * dtype);
  rows : list (Z * list cell)
}.

Definition column_names (data : DataFrame) : list string := map fst (columns data).

Fixpoint index_of (name : string) (names : list string) : option nat :=
  match names with
  | [] => None
  | n :: ns => if String.eqb n name then Some O else option_map S (index_of name ns)
  end.

Definition cell_at (j : nat) (row : list cell) : cell := nth j row NA.

(** [data[col_name]]: [KeyError] for an unknown column. *)
Definition getitem (data : DataFrame) (col_name : string) : result Series :=
  match index_of col_name (column_names data) with
  | None => Raise KeyError
  | Some j =>
      Ok (mk_series (nth j (map snd (columns data)) np_object)
                    (map (fun r => cell_at j (snd r)) (rows data)))
  end.

Fixpoint set_nth {A} (j : nat) (x : A) (l : list A) : list A :=
  match j, l with
  | O, _ :: l' => x :: l'
  | S j', y :: l' => y :: set_nth j' x l'
  | O, [] => [x]
  | S j', [] => [x]
  end.

Fixpoint write_column (j : nat) (vals : list cell) (rs : list (Z * list cell))
  : list (Z * list cell) :=
  match vals, rs with
  | v :: vals', (lbl, r) :: rs' => (lbl, set_nth j v r) :: write_column j vals' rs'
  | _, _ => []
  end.

(** [data[col_name] = series]: the column is replaced in place, or added
    last; a series of another length is a [ValueError]. *)
Definition setitem (data : DataFrame) (col_name : string) (s : Series)
  : result DataFrame :=
  if negb (length (s_values s) =? length (rows data))%nat then Raise ValueError
  else
    match index_of col_name (column_names data) with
    | Some j =>
        Ok (mk_frame (set_nth j (col_name, s_dtype s) (columns data))
                     (write_column j (s_values s) (rows data)))
    | None =>
        Ok (mk_frame (columns data ++ [(col_name, s_dtype s)])
                     (write_column (length (columns data)) (s_values s) (rows data)))
    end.

(** [pandas.api.types]: the checks look at the dtype only.  A column of
    dtype [object] counts as a string column for [is_string_dtype], which is
    why [check_dtypes] tests for [object] first. *)
Definition is_object_dtype (d : dtype) : bool :=
  match d with np_object => true | _ => false end.
Definition is_integer_dtype (d : dtype) : bool :=
  match d with np_int64 | pd_Int64 => true | _ => false end.
Definition is_float_dtype (d : dtype) : bool :=
  match d with np_float64 | pd_Float64 => true | _ => false end.
Definition is_complex_dtype (d : dtype) : bool :=
  match d with np_complex128 => true | _ => false end.
Definition is_string_dtype (d : dtype) : bool :=
  match d with np_object | pd_string => true | _ => false end.
Definition is_bool_dtype (d : dtype) : bool :=
  match d with np_bool | pd_boolean => true | _ => false end.
Definition is_datetime64_any_dtype (d : dtype) : bool :=
  match d with np_datetime64 | pd_datetime64tz _ => true | _ => false end.
Definition is_timedelta64_dtype (d : dtype) : bool :=
  match d with np_timedelta64 => true | _ => false end.

End Pandas.
Export Pandas.

(** ** [check_dtypes] and [coerce_dtypes] *)

Module Dtypes.

(** The atomic type specifiers ([AVAILABLE_DTYPES]); [ty_other] is any other
    object passed as typespec. *)
Inductive pytype :=
| ty_object | ty_int | ty_float | ty_complex | ty_str | ty_bool
| ty_datetime | ty_timedelta
| ty_other (name : string).

Inductive container := c_tuple | c_list | c_set.

(** A typespec is one atomic type or a tuple, list or set of them. *)
Inductive typespec :=
| Single (t : pytype)
| Multiple (c : container) (ts : list pytype).

Definition is_ty_str (t : pytype) : bool :=
  match t with ty_str => true | _ => false end.

(** [dtype_lookup] of [check_dtypes], in its priority order. *)
Definition check_lookup : list (pytype * (dtype -> bool)) :=
  [ (ty_object, is_object_dtype);
    (ty_int, is_integer_dtype);
    (ty_float, is_float_dtype);
    (ty_complex, is_complex_dtype);
    (ty_str, is_string_dtype);
    (ty_bool, is_bool_dtype);
    (ty_datetime, is_datetime64_any_dtype);
    (ty_timedelta, is_timedelta64_dtype) ].

Definition pytype_eqb (a b : pytype) : bool :=
  match a, b with
  | ty_object, ty_object | ty_int, ty_int | ty_float, ty_float
  | ty_complex, ty_complex | ty_str, ty_str | ty_bool, ty_bool
  | ty_datetime, ty_datetime | ty_timedelta, ty_timedelta => true
  | ty_other x, ty_other y => String.eqb x y
  | _, _ => false
  end.

(** [dtype_lookup[typespec]]: [KeyError] outside the table. *)
Definition typecheck_of (t : pytype) : result (dtype -> bool) :=
  match find (fun p => pytype_eqb (fst p) t) check_lookup with
  | Some p => Ok (snd p)
  | None => Raise KeyError
  end.

(** [dtype_lookup] of [coerce_dtypes]. *)
Definition coerce_lookup (t : pytype) : option dtype :=
  match t with
  | ty_object => Some np_object
  | ty_int => Some pd_Int64
  | ty_float => Some pd_Float64
  | ty_complex => Some np_complex128
  | ty_str => Some pd_string
  | ty_bool => Some pd_boolean
  | ty_datetime => Some np_datetime64
  | ty_timedelta => Some np_timedelta64
  | ty_other _ => None
  end.

Section Engine.

(** The two engine operations the functions call on a column:
    [Series.convert_dtypes()] and [Series.astype(dtype)]. *)
Variable convert_dtypes : Series -> result Series.
Variable astype : dtype -> Series -> result Series.

(** [try: column = data[col_name].convert_dtypes()
    except TypeError: column = data[col_name]] *)
Definition narrowed (data : DataFrame) (col_name : string) : result Series :=
  let! s := getitem data col_name in
  match convert_dtypes s with
  | Ok c => Ok c
  | Raise TypeError => Ok s
  | Raise e => Raise e
  end.

Definition check_one (column : Series) (t : pytype) : result bool :=
  if is_ty_str t && is_object_dtype (s_dtype column) then Ok false
  else let! f := typecheck_of t in Ok (f (s_dtype column)).

(** The loop over a multiple typespec appends every result before [any]. *)
Fixpoint check_each (column : Series) (ts : list pytype) : result (list bool) :=
  match ts with
  | [] => Ok []
  | t :: ts' =>
      let! b := check_one column t in
      let! bs := check_each column ts' in
      Ok (b :: bs)
  end.

Definition check_column (data : DataFrame) (col_name : string) (ts : typespec)
  : result bool :=
  let! column := narrowed data col_name in
  match ts with
  | Single t => check_one column t
  | Multiple _ l => let! results := check_each column l in Ok (existsb id results)
  end.

(** [check_dtypes] with keyword arguments: [all] over a
    generator stops at the first column that fails. *)
Fixpoint check_dtypes (data : DataFrame) (kwargs : list (string * typespec))
  : result bool :=
  match kwargs with
  | [] => Ok true
  | (col_name, ts) :: rest =>
      let! b := check_column data col_name ts in
      if b then check_dtypes data rest else Ok false
  end.

(** [check_dtypes(data)] without keyword arguments: the first type of the
    table that matches, per column; a column matching none is left out. *)
Definition infer_column (column : Series) : option pytype :=
  option_map fst (find (fun p => snd p (s_dtype column)) check_lookup).

Fixpoint infer_dtypes_of (data : DataFrame) (names : list string)
  : result (list (string * pytype)) :=
  match names with
  | [] => Ok []
  | n :: ns =>
      let! column := narrowed data n in
      let! rest := infer_dtypes_of data ns in
      Ok (match infer_column column with
          | Some t => (n, t) :: rest
          | None => rest
          end)
  end.

Definition check_dtypes_kwargless (data : DataFrame) : result (list (string * pytype)) :=
  infer_dtypes_of data (column_names data).

(** [dtype_lookup[typespec]] in [coerce_dtypes]: a typespec outside the
    table is the [KeyError] the function re-raises; a list or a set cannot be
    a key at all ([TypeError], not caught). *)
Definition target_dtype (ts : typespec) : result dtype :=
  match ts with
  | Single t => match coerce_lookup t with Some d => Ok d | None => Raise KeyError end
  | Multiple c_tuple _ => Raise KeyError
  | Multiple _ _ => Raise TypeError
  end.

Fixpoint coerce_loop (data result : DataFrame) (kwargs : list (string * typespec))
  : Py.result DataFrame :=
  match kwargs with
  | [] => Ok result
  | (col_name, ts) :: rest =>
      let! ok := check_dtypes data [(col_name, ts)] in
      if ok then coerce_loop data result rest
      else
        let! s := getitem result col_name in
        let! d := target_dtype ts in
        let! s' := astype d s in
        let! result' := setitem result col_name s' in
        coerce_loop data result' rest
  end.

Definition coerce_dtypes (data : DataFrame) (kwargs : list (string * typespec))
  : result DataFrame :=
  match kwargs with
  | [] => Raise RuntimeError
  | _ => coerce_loop data data kwargs
  end.

End Engine.

End Dtypes.
Export Dtypes.

(** ** The engine's narrowing and casting

    [Series.convert_dtypes] and [Series.astype] belong to pandas.  They are
    modelled here for the casts the statistics store performs: a cell the
    target dtype already holds is kept; numbers widen, an integer to the float
    nearest to it; a missing value enters every dtype that has one; and what
    the target dtype cannot hold raises: [OverflowError] for an integer beyond
    64 bits or beyond the floats, [OutOfBoundsDatetime], a [ValueError], for a
    timestamp outside the range of [datetime64[ns]].  Every other cast
    (between naive and aware timestamps or between time zones, parsing or
    printing a string, truncating a float, ...) is left to [cast_other]. *)

Module Engine.

Definition is_na (c : cell) : bool := match c with NA => true | _ => false end.

Definition integral (q : Q) : bool := (Qnum q mod Zpos (Qden q) =? 0).

Definition Z_of_bool (b : bool) : Z := if b then 1 else 0.

Definition is_str_cell (c : cell) : bool := match c with CStr _ => true | _ => false end.
Definition is_int_cell (c : cell) : bool := match c with CInt _ => true | _ => false end.
Definition is_bool_cell (c : cell) : bool := match c with CBool _ => true | _ => false end.
Definition is_real_cell (c : cell) : bool :=
  match c with CInt _ | CFloat _ => true | _ => false end.
Definition is_naive_cell (c : cell) : bool :=
  match c with CTimestamp t => negb (is_aware t) | _ => false end.
Definition has_zone (z : tz) (c : cell) : bool :=
  match c with
  | CTimestamp t => match tzinfo t with Some o => same_tz o z | None => false end
  | _ => false
  end.
(** A whole number that an [int64] holds. *)
Definition is_int64_cell (c : cell) : bool :=
  match c with
  | CInt z => in_int64 z
  | CFloat q => integral q && in_int64 (Qnum q / Zpos (Qden q))
  | _ => false
  end.
Definition is_timedelta_cell (c : cell) : bool :=
  match c with CTimedelta _ => true | _ => false end.

(** A timestamp that 64 bits of nanoseconds since 1970 hold; pandas raises
    [OutOfBoundsDatetime], a [ValueError], for any other. *)
Definition ns_in_bounds (t : datetime) : bool :=
  let us := instant t - 719163 * 86400000000 in
  (- 9223372036854775 <=? us) && (us <=? 9223372036854775).

(** A timestamp or a duration that 64 bits of nanoseconds hold. *)
Definition is_ns_cell (c : cell) : bool :=
  match c with
  | CTimestamp t => ns_in_bounds t
  | CTimedelta us => in_int64 (us * 1000)
  | _ => false
  end.

(** Type inference on the present values of an [object] column; values that
    the inferred dtype could not hold leave the column as it is. *)
Definition infer_object (vals : list cell) : dtype :=
  match filter (fun c => negb (is_na c)) vals with
  | [] => np_object
  | (c0 :: _) as present =>
      if forallb is_str_cell present then pd_string
      else if forallb is_int_cell present then
             (if forallb is_int64_cell present then pd_Int64 else np_object)
      else if forallb is_bool_cell present then pd_boolean
      else if forallb is_real_cell present then
             (if forallb is_int64_cell present then pd_Int64 else pd_Float64)
      else if forallb is_naive_cell present then
             (if forallb is_ns_cell present then np_datetime64 else np_object)
      else if forallb is_timedelta_cell present then
             (if forallb is_ns_cell present then np_timedelta64 else np_object)
      else match c0 with
           | CTimestamp t =>
               match tzinfo t with
               | Some z =>
                   if forallb (has_zone z) present && forallb is_ns_cell present
                   then pd_datetime64tz z
                   else np_object
               | None => np_object
               end
           | _ => np_object
           end
  end.

Definition narrow_dtype (s : Series) : dtype :=
  match s_dtype s with
  | np_object => infer_object (s_values s)
  | np_int64 => pd_Int64
  | np_float64 =>
      if forallb (fun c => is_na c || is_int64_cell c) (s_values s)
      then pd_Int64 else pd_Float64
  | np_bool => pd_boolean
  | d => d
  end.

(** [Series.convert_dtypes()]; only the dtype of the outcome is looked at. *)
Definition pd_convert_dtypes (s : Series) : result Series :=
  Ok (mk_series (narrow_dtype s) (s_values s)).

Section Cast.

(** The casts the model leaves to the engine, among them every cast between
    naive and aware timestamps and between time zones. *)
Variable cast_other : dtype -> cell -> result cell.

Definition cast_cell (d : dtype) (c : cell) : result cell :=
  match d, c with
  | np_object, _ => Ok c
  | (np_int64 | np_bool), NA => Raise ValueError
  | _, NA => Ok NA
  | (np_int64 | pd_Int64), CInt z =>
      if in_int64 z then Ok (CInt z) else Raise OverflowError
  | (np_int64 | pd_Int64), CBool b => Ok (CInt (Z_of_bool b))
  | (np_int64 | pd_Int64), CFloat q =>
      if is_int64_cell c then Ok (CInt (Qnum q / Zpos (Qden q))) else cast_other d c
  | (np_float64 | pd_Float64), CFloat q => Ok (CFloat q)
  | (np_float64 | pd_Float64), CInt z =>
      if float_overflows z then Raise OverflowError
      else Ok (CFloat (round_double (inject_Z z)))
  | (np_float64 | pd_Float64), CBool b => Ok (CFloat (inject_Z (Z_of_bool b)))
  | np_complex128, CComplex re im => Ok (CComplex re im)
  | np_complex128, CInt z =>
      if float_overflows z then Raise OverflowError
      else Ok (CComplex (round_double (inject_Z z)) 0)
  | np_complex128, CFloat q => Ok (CComplex q 0)
  | (np_bool | pd_boolean), CBool b => Ok (CBool b)
  | pd_string, CStr s => Ok (CStr s)
  | np_datetime64, CTimestamp t =>
      if is_aware t then cast_other d c
      else if ns_in_bounds t then Ok (CTimestamp t) else Raise ValueError
  | pd_datetime64tz z, CTimestamp t =>
      if has_zone z c then
        (if ns_in_bounds t then Ok (CTimestamp t) else Raise ValueError)
      else cast_other d c
  | np_timedelta64, CTimedelta us =>
      if in_int64 (us * 1000) then Ok (CTimedelta us) else Raise ValueError
  | _, _ => cast_other d c
  end.

Fixpoint cast_cells (d : dtype) (cs : list cell) : result (list cell) :=
  match cs with
  | [] => Ok []
  | c :: cs' =>
      let! c' := cast_cell d c in
      let! rest := cast_cells d cs' in
      Ok (c' :: rest)
  end.

(** [Series.astype(d)] *)
Definition pd_astype (d : dtype) (s : Series) : result Series :=
  let! vals := cast_cells d (s_values s) in Ok (mk_series d vals).

End Cast.

End Engine.
Export Engine.

(** ** Row operations of a frame *)

Module Frame.

(** pandas keeps a timestamp as its instant: two timestamps of one kind
    are equal when their instants are. *)
Definition ts_eq (a b : datetime) : bool :=
  Bool.eqb (is_aware a) (is_aware b) && (instant a =? instant b).

(** Two cells hold the same value (missing values are alike): what
    [drop_duplicates] goes by. *)
Definition cell_same (a b : cell) : bool :=
  match a, b with
  | NA, NA => true
  | CInt x, CInt y => x =? y
  | CFloat x, CFloat y => Qeq_bool x y
  | CComplex x1 x2, CComplex y1 y2 => Qeq_bool x1 y1 && Qeq_bool x2 y2
  | CStr x, CStr y => String.eqb x y
  | CBool x, CBool y => Bool.eqb x y
  | CTimestamp x, CTimestamp y => ts_eq x y
  | CTimedelta x, CTimedelta y => x =? y
  | CObject x, CObject y => Nat.eqb x y
  | _, _ => false
  end.

(** Elementwise [column == v]: a missing value equals nothing. *)
Definition cell_eq (a b : cell) : bool := negb (is_na a) && cell_same a b.

Fixpoint positions (names : list string) (cols : list string) : result (list nat) :=
  match names with
  | [] => Ok []
  | n :: ns =>
      match index_of n cols with
      | None => Raise KeyError
      | Some j => let! js := positions ns cols in Ok (j :: js)
      end
  end.

(** [data[[name, ...]]]: the named columns, in the order asked for. *)
Definition select_columns (data : DataFrame) (names : list string) : result DataFrame :=
  let! js := positions names (column_names data) in
  Ok (mk_frame (map (fun j => nth j (columns data) (""%string, np_object)) js)
               (map (fun r => (fst r, map (fun j => cell_at j (snd r)) js)) (rows data))).

(** [data.dropna(subset=names)] *)
Definition dropna (data : DataFrame) (names : list string) : result DataFrame :=
  let! js := positions names (column_names data) in
  Ok (mk_frame (columns data)
               (filter (fun r => forallb (fun j => negb (is_na (cell_at j (snd r)))) js)
                       (rows data))).

Definition same_key (js : list nat) (r1 r2 : list cell) : bool :=
  forallb (fun j => cell_same (cell_at j r1) (cell_at j r2)) js.

(** Keeps the first row of every key, in order. *)
Fixpoint drop_dups (js : list nat) (seen : list (list cell)) (rs : list (Z * list cell))
  : list (Z * list cell) :=
  match rs with
  | [] => []
  | r :: rs' =>
      if existsb (same_key js (snd r)) seen then drop_dups js seen rs'
      else r :: drop_dups js (snd r :: seen) rs'
  end.

(** [data.drop_duplicates(subset=names)] *)
Definition drop_duplicates (data : DataFrame) (names : list string) : result DataFrame :=
  let! js := positions names (column_names data) in
  Ok (mk_frame (columns data) (drop_dups js [] (rows data))).

(** [data[name].apply(check)] where [check] returns nothing or raises. *)
Definition apply_check (data : DataFrame) (name : string) (check : cell -> result unit)
  : result unit :=
  let! s := getitem data name in for_each check (s_values s).

(** What a column of dtype [d] makes of a cell assigned into it: the cell is
    cast to [d] where that succeeds; where it does not, the cell is kept as it
    is and the column becomes an [object] column, as pandas has it for a
    timestamp out of the bounds of [datetime64[ns]] and for an integer beyond
    the floats. *)
Definition fit_cell (cast_other : dtype -> cell -> result cell) (d : dtype) (c : cell)
  : dtype * cell :=
  match cast_cell cast_other d c with
  | Ok c' => (d, c')
  | Raise _ => (np_object, c)
  end.

Fixpoint fit_row (cast_other : dtype -> cell -> result cell)
    (cols : list (string * dtype)) (new_row : list cell)
  : list (string * dtype) * list cell :=
  match cols, new_row with
  | (k, d) :: cols', c :: cs =>
      let (d', c') := fit_cell cast_other d c in
      let (cols2, cs2) := fit_row cast_other cols' cs in
      ((k, d') :: cols2, c' :: cs2)
  | _, _ => (cols, new_row)
  end.

(** [data.loc[label] = new_row], for a row of one cell per column: the cells
    are fitted to the columns; the row of that label is overwritten, a new
    label is appended. *)
Definition loc_setitem (cast_other : dtype -> cell -> result cell)
    (data : DataFrame) (label : Z) (new_row : list cell) : DataFrame :=
  let (cols, cells) := fit_row cast_other (columns data) new_row in
  if existsb (fun r => fst r =? label) (rows data)
  then mk_frame cols
                (map (fun r => if fst r =? label then (label, cells) else r) (rows data))
  else mk_frame cols (rows data ++ [(label, cells)]).

(** The order [sort_values] and [idxmax] use inside one column; missing
    values come last. *)
Definition cell_rank (c : cell) : Z :=
  match c with
  | CBool _ => 0 | CInt _ => 1 | CFloat _ => 2 | CComplex _ _ => 3
  | CStr _ => 4 | CTimestamp _ => 5 | CTimedelta _ => 6 | CObject _ => 7
  | NA => 8
  end.

Definition cell_compare (a b : cell) : comparison :=
  match a, b with
  | CStr x, CStr y => String.compare x y
  | CTimestamp x, CTimestamp y => instant x ?= instant y
  | CInt x, CInt y => x ?= y
  | CTimedelta x, CTimedelta y => x ?= y
  | CFloat x, CFloat y => Qcompare x y
  | CBool x, CBool y => Z_of_bool x ?= Z_of_bool y
  | _, _ => cell_rank a ?= cell_rank b
  end.

Fixpoint row_compare (js : list nat) (r1 r2 : list cell) : comparison :=
  match js with
  | [] => Eq
  | j :: js' =>
      match cell_compare (cell_at j r1) (cell_at j r2) with
      | Eq => row_compare js' r1 r2
      | c => c
      end
  end.

Definition row_leb (js : list nat) (r1 r2 : Z * list cell) : bool :=
  match row_compare js (snd r1) (snd r2) with Gt => false | _ => true end.

Fixpoint insert_row (js : list nat) (r : Z * list cell) (rs : list (Z * list cell))
  : list (Z * list cell) :=
  match rs with
  | [] => [r]
  | r' :: rs' => if row_leb js r r' then r :: rs else r' :: insert_row js r rs'
  end.

Fixpoint sort_rows (js : list nat) (rs : list (Z * list cell)) : list (Z * list cell) :=
  match rs with
  | [] => []
  | r :: rs' => insert_row js r (sort_rows js rs')
  end.

(** Naive and aware timestamps cannot be ordered against each other. *)
Definition mixed_timestamps (cs : list cell) : bool :=
  existsb is_naive_cell cs &&
  existsb (fun c => match c with CTimestamp t => is_aware t | _ => false end) cs.

Definition column_cells (j : nat) (rs : list (Z * list cell)) : list cell :=
  map (fun r => cell_at j (snd r)) rs.

(** [data.sort_values(by)]: rows keep their labels. *)
Definition sort_values (data : DataFrame) (by_ : list string) : result DataFrame :=
  let! js := positions by_ (column_names data) in
  do! raise_if (existsb (fun j => mixed_timestamps (column_cells j (rows data))) js)
               TypeError in
  Ok (mk_frame (columns data) (sort_rows js (rows data))).

(** [data.iloc[indices]]: rows by position, counted from the end when
    negative. *)
Definition iloc_one (rs : list (Z * list cell)) (i : Z) : result (Z * list cell) :=
  let n := Z.of_nat (length rs) in
  let p := if i <? 0 then n + i else i in
  if (p <? 0) || (n <=? p) then Raise IndexError
  else match nth_error rs (Z.to_nat p) with
       | Some r => Ok r
       | None => Raise IndexError
       end.

Fixpoint iloc (rs : list (Z * list cell)) (indices : list Z) : result (list (Z * list cell)) :=
  match indices with
  | [] => Ok []
  | i :: is_ =>
      let! r := iloc_one rs i in
      let! rest := iloc rs is_ in
      Ok (r :: rest)
  end.

End Frame.
Export Frame.

(** ** Grouping *)

Module GroupBy.

Fixpoint insert_cell (c : cell) (cs : list cell) : list cell :=
  match cs with
  | [] => [c]
  | c' :: cs' =>
      match cell_compare c c' with
      | Gt => c' :: insert_cell c cs'
      | _ => c :: cs
      end
  end.

(** The group keys of [groupby(name)]: the distinct present values of the
    column, in ascending order. *)
Fixpoint group_keys (cs : list cell) : list cell :=
  match cs with
  | [] => []
  | c :: cs' =>
      let ks := group_keys cs' in
      if is_na c || existsb (cell_same c) ks then ks else insert_cell c ks
  end.

(** [idxmax] of one group: the label of the first row holding the largest
    present value. *)
Fixpoint idxmax_from (j : nat) (best : option (Z * cell)) (rs : list (Z * list cell))
  : option (Z * cell) :=
  match rs with
  | [] => best
  | r :: rs' =>
      let c := cell_at j (snd r) in
      if is_na c then idxmax_from j best rs'
      else match best with
           | None => idxmax_from j (Some (fst r, c)) rs'
           | Some (_, b) =>
               match cell_compare c b with
               | Gt => idxmax_from j (Some (fst r, c)) rs'
               | _ => idxmax_from j best rs'
               end
           end
  end.

Definition group_rows (jk : nat) (k : cell) (rs : list (Z * list cell))
  : list (Z * list cell) :=
  filter (fun r => cell_same (cell_at jk (snd r)) k) rs.

(** [data.groupby(key)[col].idxmax()]: one index label per group. *)
Fixpoint idxmax_groups (jk j : nat) (rs : list (Z * list cell)) (keys : list cell)
  : result (list Z) :=
  match keys with
  | [] => Ok []
  | k :: ks =>
      let members := group_rows jk k rs in
      do! raise_if (mixed_timestamps (column_cells j members)) TypeError in
      match idxmax_from j None members with
      | None => Raise ValueError
      | Some (label, _) =>
          let! rest := idxmax_groups jk j rs ks in Ok (label :: rest)
      end
  end.

Definition groupby_idxmax (data : DataFrame) (key col : string) : result (list Z) :=
  let! jk := match index_of key (column_names data) with
             | Some j => Ok j | None => Raise KeyError end in
  let! j := match index_of col (column_names data) with
            | Some j => Ok j | None => Raise KeyError end in
  idxmax_groups jk j (rows data) (group_keys (column_cells jk (rows data))).

(** A Python [dict] with cell keys: assignment to a key already present
    replaces its value. *)
Fixpoint dict_set {V} (k : cell) (v : V) (d : list (cell * V)) : list (cell * V) :=
  match d with
  | [] => [(k, v)]
  | (k', v') :: d' => if cell_same k' k then (k', v) :: d' else (k', v') :: dict_set k v d'
  end.

Fixpoint zip_fields (names : list string) (cs : list cell) : list (string * cell) :=
  match names with
  | [] => []
  | n :: ns => (n, nth 0 cs NA) :: zip_fields ns (tl cs)
  end.

Fixpoint remove_nth {A} (j : nat) (l : list A) : list A :=
  match j, l with
  | _, [] => []
  | O, _ :: l' => l'
  | S j', x :: l' => x :: remove_nth j' l'
  end.

(** [subset.set_index(key).T.to_dict()]: per row, the value of the key
    column mapped to the other fields by name. *)
Definition to_dict_by (names : list string) (jk : nat) (subset : list (Z * list cell))
  : list (cell * list (string * cell)) :=
  fold_left
    (fun d r => dict_set (cell_at jk (snd r))
                         (zip_fields (remove_nth jk names) (remove_nth jk (snd r))) d)
    subset [].

End GroupBy.
Export GroupBy.

(** ** [Stats] *)

Module StatsStore.

Record Stats := mk_stats { _data : DataFrame }.

Definition expected_columns : list (string * typespec) :=
  [ ("video_id", Single ty_str);
    ("timestamp", Single ty_datetime);
    ("views", Single ty_int);
    ("rating", Single ty_float);
    ("likes", Single ty_int);
    ("dislikes", Single ty_int) ].

Definition expected_names : list string := map fst expected_columns.

Definition mem_string (s : string) (l : list string) : bool := existsb (String.eqb s) l.

(** [set(xs) != set(ys)] *)
Definition set_differs (xs ys : list string) : bool :=
  negb (forallb (fun x => mem_string x ys) xs && forallb (fun y => mem_string y xs) ys).

(** [pd.DataFrame(dict.fromkeys(expected_columns, []))]: a column built
    from an empty list is a [float64] column. *)
Definition empty_frame : DataFrame :=
  mk_frame (map (fun n => (n, np_float64)) expected_names) [].

(** [Path.suffix]: the last dot of the final component and what follows,
    unless the dot starts or ends the name. *)
Fixpoint last_component (acc : string) (path : string) : string :=
  match path with
  | EmptyString => acc
  | String c rest =>
      if Ascii.eqb c "/" then last_component "" rest
      else last_component (acc ++ String c "") rest
  end.

Fixpoint rfind_dot (i : nat) (found : option nat) (name : string) : option nat :=
  match name with
  | EmptyString => found
  | String c rest =>
      rfind_dot (S i) (if Ascii.eqb c "." then Some i else found) rest
  end.

Definition suffix (path : string) : string :=
  let name := last_component "" path in
  match rfind_dot 0 None name with
  | Some i =>
      if (0 <? i)%nat && (i <? String.length name - 1)%nat
      then String.substring i (String.length name - i) name
      else ""
  | None => ""
  end.

(** Local storage as [from_csv] sees it; [read_csv] stands for
    [pd.read_csv(path, parse_dates=["timestamp"], dtype=dtypes)]. *)
Record storage := mk_storage {
  path_exists : string -> bool;
  path_is_file : string -> bool;
  read_csv : string -> result DataFrame
}.

Section WithCollaborators.

(** [datatube.check.is_video_id], the format check of an id string. *)
Variable is_video_id : string -> bool.
Variable cast_other : dtype -> cell -> result cell.

Definition convert := pd_convert_dtypes.
Definition astype := pd_astype cast_other.

Definition check_video_id (video_id : cell) : result unit :=
  match video_id with
  | CStr s => raise_if (negb (is_video_id s)) ValueError
  | _ => Raise TypeError
  end.

(** The message about a timestamp in the future is built and dropped: the
    branch has no [raise]. *)
Definition check_timestamp (clk : clock) (timestamp : cell) : result unit :=
  match timestamp with
  | CTimestamp t =>
      do! raise_if (negb (is_aware t)) ValueError in
      let current_time := now_utc clk in
      let! future := dt_gt t current_time in
      if future then Ok tt else Ok tt
  | _ => Raise AttributeError
  end.

(** The loop over [expected_columns] that checks the column dtypes; the
    message of the [TypeError] looks the column up in [check_dtypes(data)]. *)
Fixpoint check_column_dtypes (data : DataFrame) (cols : list (string * typespec))
  : result unit :=
  match cols with
  | [] => Ok tt
  | (col_name, ts) :: rest =>
      let! ok := check_dtypes convert data [(col_name, ts)] in
      if ok then check_column_dtypes data rest
      else
        let! inferred := check_dtypes_kwargless convert data in
        match find (fun p => String.eqb (fst p) col_name) inferred with
        | None => Raise KeyError
        | Some _ => let! _ := getitem data col_name in Raise TypeError
        end
  end.

(** [Stats.__init__(data, interpolate)] *)
Definition Stats_init (clk : clock) (data : option DataFrame) (interpolate : bool)
  : result Stats :=
  match data with
  | None =>
      let! df := coerce_dtypes convert astype empty_frame expected_columns in
      Ok (mk_stats df)
  | Some data =>
      do! raise_if (set_differs (column_names data) expected_names) ValueError in
      do! check_column_dtypes data expected_columns in
      let! data := coerce_dtypes convert astype data expected_columns in
      let! data := select_columns data expected_names in
      let! data := dropna data ["video_id"; "timestamp"] in
      let! data := drop_duplicates data ["video_id"; "timestamp"] in
      do! apply_check data "video_id" check_video_id in
      do! apply_check data "timestamp" (check_timestamp clk) in
      if negb interpolate then Ok (mk_stats data) else Raise NotImplementedError
  end.

(** [Stats.from_csv(csv_path)] for a [Path] argument. *)
Definition from_csv (fs : storage) (clk : clock) (csv_path : string) : result Stats :=
  do! raise_if (negb (path_exists fs csv_path)) ValueError in
  do! raise_if (negb (path_is_file fs csv_path) || negb (String.eqb (suffix csv_path) ".csv"))
               ValueError in
  let! saved := read_csv fs csv_path in
  Stats_init clk (Some saved) false.

(** [len(stats)] *)
Definition Stats_len (self : Stats) : nat := length (rows (_data self)).

(** [Stats.most_recent] *)
Definition most_recent (self : Stats) : result (list (cell * list (string * cell))) :=
  let! indices := groupby_idxmax (_data self) "video_id" "timestamp" in
  let! subset := iloc (rows (_data self)) indices in
  match index_of "video_id" (column_names (_data self)) with
  | None => Raise KeyError
  | Some jk => Ok (to_dict_by (column_names (_data self)) jk subset)
  end.

(** The checks of [views], [likes] and [dislikes]: an [int], not negative. *)
Definition check_count (v : value) : result unit :=
  match as_int v with
  | None => Raise TypeError
  | Some z => raise_if (z <? 0) ValueError
  end.

Definition check_rating (rating : value) : result unit :=
  match rating with
  | VNone => Ok tt
  | _ =>
      match as_number rating with
      | None => Raise TypeError
      | Some q => raise_if (negb (Qle_bool 0 q && Qle_bool q 5)) ValueError
      end
  end.

Definition check_optional_count (v : value) : result unit :=
  match v with
  | VNone => Ok tt
  | _ => check_count v
  end.

(** [((data["video_id"] == video_id) & (data["timestamp"] == timestamp)).any()] *)
Definition row_exists (data : DataFrame) (video_id : string) (timestamp : datetime)
  : result bool :=
  let! ids := getitem data "video_id" in
  let! stamps := getitem data "timestamp" in
  Ok (existsb id
        (zip_with andb
           (map (fun c => cell_eq c (CStr video_id)) (s_values ids))
           (map (fun c => cell_eq c (CTimestamp timestamp)) (s_values stamps)))).

(** Everything [add_row] checks before it touches the store, in the order
    of the source; the current time is read without a time zone. *)
Definition add_row_checks (clk : clock) (self : Stats)
    (video_id timestamp views rating likes dislikes : value) : result unit :=
  let! vid := match video_id with VStr s => Ok s | _ => Raise TypeError end in
  do! raise_if (negb (is_video_id vid)) ValueError in
  let! ts := match timestamp with VDatetime t => Ok t | _ => Raise TypeError end in
  let current_time := now_naive clk in
  let! future := dt_gt ts current_time in
  do! raise_if future ValueError in
  do! check_count views in
  do! check_rating rating in
  do! for_each check_optional_count [likes; dislikes] in
  let! dup := row_exists (_data self) vid ts in
  raise_if dup ValueError.

(** [rating = 5 * likes / (likes + dislikes)] when no rating is given and
    both counts are: the quotient of two [int]s is the double nearest to
    it. *)
Definition is_none (v : value) : bool := match v with VNone => true | _ => false end.

Definition derive_rating (rating likes dislikes : value) : result value :=
  if is_none rating && negb (is_none likes || is_none dislikes) then
    match as_int likes, as_int dislikes with
    | Some l, Some d =>
        if l + d =? 0 then Raise ZeroDivisionError
        else Ok (VFloat (round_double (inject_Z (5 * l) / inject_Z (l + d))%Q))
    | _, _ => Raise TypeError
    end
  else Ok rating.

Definition cell_of_value (v : value) : cell :=
  match v with
  | VNone => NA
  | VBool b => CBool b
  | VInt z => CInt z
  | VFloat q => CFloat q
  | VStr s => CStr s
  | VDatetime d => CTimestamp d
  | VTimedelta us => CTimedelta us
  | _ => CObject 0
  end.

(** [[row_vals[col_name] for col_name in self._data.columns]] *)
Fixpoint new_row_of (row_vals : list (string * value)) (names : list string)
  : result (list cell) :=
  match names with
  | [] => Ok []
  | n :: ns =>
      match find (fun p => String.eqb (fst p) n) row_vals with
      | None => Raise KeyError
      | Some p => let! rest := new_row_of row_vals ns in Ok (cell_of_value (snd p) :: rest)
      end
  end.

(** [for k, v in old_dtypes.items(): data[k] = data[k].astype(v)]; when a
    cast raises, the columns restored so far stay restored. *)
Fixpoint restore_dtypes (old_dtypes : list (string * dtype)) (data : DataFrame)
  : DataFrame * result unit :=
  match old_dtypes with
  | [] => (data, Ok tt)
  | (k, v) :: rest =>
      match (let! s := getitem data k in
             let! s' := astype v s in
             setitem data k s') with
      | Ok data' => restore_dtypes rest data'
      | Raise e => (data, Raise e)
      end
  end.

(** [Stats.add_row]: the store after the call, and how the call ended. *)
Definition add_row (clk : clock) (self : Stats)
    (video_id timestamp views rating likes dislikes : value) : Stats * result unit :=
  match add_row_checks clk self video_id timestamp views rating likes dislikes with
  | Raise e => (self, Raise e)
  | Ok _ =>
      match (let! rating := derive_rating rating likes dislikes in
             new_row_of [ ("video_id", video_id); ("timestamp", timestamp);
                          ("views", views); ("rating", rating);
                          ("likes", likes); ("dislikes", dislikes) ]
                        (column_names (_data self))) with
      | Raise e => (self, Raise e)
      | Ok new_row =>
          let old_dtypes := columns (_data self) in
          let added := loc_setitem cast_other (_data self)
                                   (Z.of_nat (length (rows (_data self))))
                                   new_row in
          match restore_dtypes old_dtypes added with
          | (restored, Raise e) => (mk_stats restored, Raise e)
          | (restored, Ok _) =>
              match sort_values restored ["video_id"; "timestamp"] with
              | Raise e => (mk_stats restored, Raise e)
              | Ok sorted => (mk_stats sorted, Ok tt)
              end
          end
      end
  end.

End WithCollaborators.

End StatsStore.
Export StatsStore.

(** * [datatube/info.py] *)

(** ** ISO 8601 text of a datetime

    [datetime.isoformat] and [datetime.fromisoformat] of the Python standard
    library, for the text the two exchange:
    [YYYY-MM-DDTHH:MM:SS[.ffffff][+HH:MM[:SS[.ffffff]]]]. *)

Module Iso.

Definition digit (n : Z) : ascii := ascii_of_nat (48 + Z.to_nat n).

(** [n] in decimal on exactly [width] digits. *)
Fixpoint pad (width : nat) (n : Z) : list ascii :=
  match width with
  | O => []
  | S w => pad w (n / 10) ++ [digit (n mod 10)]
  end.

Definition format_time (h m s us : Z) : list ascii :=
  pad 2 h ++ [":"%char] ++ pad 2 m ++ [":"%char] ++ pad 2 s
  ++ (if us =? 0 then [] else ["."%char] ++ pad 6 us).

Definition format_offset (off : Z) : list ascii :=
  let sign := if off <? 0 then "-"%char else "+"%char in
  let a := Z.abs off in
  let hh := a / 3600000000 in
  let below_hour := a mod 3600000000 in
  let mm := below_hour / 60000000 in
  let below_minute := below_hour mod 60000000 in
  let ss := below_minute / 1000000 in
  let us := below_minute mod 1000000 in
  [sign] ++ pad 2 hh ++ [":"%char] ++ pad 2 mm
  ++ (if (ss =? 0) && (us =? 0) then []
      else [":"%char] ++ pad 2 ss ++ (if us =? 0 then [] else ["."%char] ++ pad 6 us)).

Definition isoformat_chars (d : datetime) : list ascii :=
  pad 4 (year d) ++ ["-"%char] ++ pad 2 (month d) ++ ["-"%char] ++ pad 2 (day d)
  ++ ["T"%char]
  ++ format_time (hour d) (minute d) (second d) (microsecond d)
  ++ match utcoffset d with
     | None => []
     | Some off => format_offset off
     end.

Definition isoformat (d : datetime) : string := string_of_list_ascii (isoformat_chars d).

(** What the text of a datetime keeps of it: the date and time fields, and
    of the time zone its offset from UTC at this datetime. *)
Definition as_written (d : datetime) : datetime :=
  with_tz d (option_map timezone (utcoffset d)).

Definition digit_val (c : ascii) : option Z :=
  let n := Z.of_nat (nat_of_ascii c) in
  if (48 <=? n) && (n <=? 57) then Some (n - 48) else None.

(** Exactly [n] decimal digits, most significant first. *)
Fixpoint take_num (n : nat) (acc : Z) (s : list ascii) : option (Z * list ascii) :=
  match n with
  | O => Some (acc, s)
  | S n' =>
      match s with
      | c :: s' =>
          match digit_val c with
          | Some v => take_num n' (acc * 10 + v) s'
          | None => None
          end
      | [] => None
      end
  end.

Definition expect (c : ascii) (s : list ascii) : option (list ascii) :=
  match s with
  | c' :: s' => if Ascii.eqb c c' then Some s' else None
  | [] => None
  end.

Definition is_sign (c : ascii) : bool := Ascii.eqb c "+" || Ascii.eqb c "-".

(** [HH[:MM[:SS[.fff[fff]]]]], up to the end or to the sign of the offset;
    returns the four components and what is left. *)
Definition parse_hh_mm_ss_ff (s : list ascii) : option (Z * Z * Z * Z * list ascii) :=
  match take_num 2 0 s with
  | None => None
  | Some (hh, s1) =>
      match s1 with
      | ":"%char :: s1' =>
          match take_num 2 0 s1' with
          | None => None
          | Some (mm, s2) =>
              match s2 with
              | ":"%char :: s2' =>
                  match take_num 2 0 s2' with
                  | None => None
                  | Some (ss, s3) =>
                      match s3 with
                      | "."%char :: s3' =>
                          match take_num 6 0 s3' with
                          | Some (us, s4) => Some (hh, mm, ss, us, s4)
                          | None =>
                              match take_num 3 0 s3' with
                              | Some (ms, s4) => Some (hh, mm, ss, ms * 1000, s4)
                              | None => None
                              end
                          end
                      | _ => Some (hh, mm, ss, 0, s3)
                      end
                  end
              | _ => Some (hh, mm, 0, 0, s2)
              end
          end
      | _ => Some (hh, 0, 0, 0, s1)
      end
  end.

(** The offset after the sign: [HH:MM], [HH:MM:SS] or [HH:MM:SS.ffffff]. *)
Definition parse_offset (sign : ascii) (s : list ascii) : option Z :=
  if negb ((length s =? 5)%nat || (length s =? 8)%nat || (length s =? 15)%nat) then None
  else
    match parse_hh_mm_ss_ff s with
    | Some (hh, mm, ss, us, []) =>
        let td := ((hh * 60 + mm) * 60 + ss) * 1000000 + us in
        Some (if Ascii.eqb sign "-" then - td else td)
    | _ => None
    end.

Definition parse_time (s : list ascii) : option (Z * Z * Z * Z * option Z) :=
  match parse_hh_mm_ss_ff s with
  | Some (hh, mm, ss, us, []) => Some (hh, mm, ss, us, None)
  | Some (hh, mm, ss, us, c :: rest) =>
      if is_sign c then
        match parse_offset c rest with
        | Some off => Some (hh, mm, ss, us, Some off)
        | None => None
        end
      else None
  | None => None
  end.

Definition parse_chars (s : list ascii) : option datetime :=
  match take_num 4 0 s with
  | None => None
  | Some (y, s1) =>
      match expect "-" s1 with
      | None => None
      | Some s2 =>
          match take_num 2 0 s2 with
          | None => None
          | Some (m, s3) =>
              match expect "-" s3 with
              | None => None
              | Some s4 =>
                  match take_num 2 0 s4 with
                  | None => None
                  | Some (d, s5) =>
                      match s5 with
                      | [] => Some (mk_datetime y m d 0 0 0 0 None false)
                      | _ :: t =>
                          match parse_time t with
                          | Some (hh, mm, ss, us, tz) =>
                              Some (mk_datetime y m d hh mm ss us (option_map timezone tz) false)
                          | None => None
                          end
                      end
                  end
              end
          end
      end
  end.

(** [datetime.fromisoformat(text)]: malformed text and fields out of range
    are a [ValueError]; an offset in the text becomes a [timezone]. *)
Definition fromisoformat (text : string) : result datetime :=
  match parse_chars (list_ascii_of_string text) with
  | Some d => if valid_datetime d then Ok d else Raise ValueError
  | None => Raise ValueError
  end.

End Iso.
Export Iso.

(** ** [PropertyDict] and the records built on it *)

Module Records.

(** A slot of [__slots__] is unset until its first assignment;
    [hasattr(self, "_x")] asks whether it is set, reading an unset slot is an
    [AttributeError]. *)
Definition hasattr {A} (slot : option A) : bool :=
  match slot with Some _ => true | None => false end.

Definition read_slot {A} (slot : option A) : result A :=
  match slot with Some x => Ok x | None => Raise AttributeError end.

(** [PropertyDict.__init__]: [immutable] must be a [bool]. *)
Definition PropertyDict_init (immutable : value) : result bool :=
  match immutable with
  | VBool b => Ok b
  | _ => Raise TypeError
  end.

(** *** [ChannelInfo.HtmlDict] *)

Record HtmlDict := mk_html {
  h_immutable : bool;
  _about : option string;
  _community : option string;
  _featured_channels : option string;
  _videos : option string
}.

(** The object store: an [HtmlDict] is reached through its reference, and
    two holders of one reference see each other's writes. *)
Abbreviation heap := (list HtmlDict).

Definition html_keys : list string :=
  ["about"; "community"; "featured_channels"; "videos"].

Definition HtmlDict_set_about (self : HtmlDict) (new_html : value) : result HtmlDict :=
  do! raise_if (h_immutable self && hasattr (_about self)) AttributeError in
  match new_html with
  | VStr s => Ok (mk_html (h_immutable self) (Some s) (_community self)
                          (_featured_channels self) (_videos self))
  | _ => Raise TypeError
  end.

Definition HtmlDict_set_community (self : HtmlDict) (new_html : value) : result HtmlDict :=
  do! raise_if (h_immutable self && hasattr (_community self)) AttributeError in
  match new_html with
  | VStr s => Ok (mk_html (h_immutable self) (_about self) (Some s)
                          (_featured_channels self) (_videos self))
  | _ => Raise TypeError
  end.

Definition HtmlDict_set_featured_channels (self : HtmlDict) (new_html : value)
  : result HtmlDict :=
  do! raise_if (h_immutable self && hasattr (_featured_channels self)) AttributeError in
  match new_html with
  | VStr s => Ok (mk_html (h_immutable self) (_about self) (_community self)
                          (Some s) (_videos self))
  | _ => Raise TypeError
  end.

Definition HtmlDict_set_videos (self : HtmlDict) (new_html : value) : result HtmlDict :=
  do! raise_if (h_immutable self && hasattr (_videos self)) AttributeError in
  match new_html with
  | VStr s => Ok (mk_html (h_immutable self) (_about self) (_community self)
                          (_featured_channels self) (Some s))
  | _ => Raise TypeError
  end.

(** [setattr(self, key, val)] for a key of [keys()]. *)
Definition HtmlDict_setattr (self : HtmlDict) (key : string) (val : value)
  : result HtmlDict :=
  if String.eqb key "about" then HtmlDict_set_about self val
  else if String.eqb key "community" then HtmlDict_set_community self val
  else if String.eqb key "featured_channels" then HtmlDict_set_featured_channels self val
  else if String.eqb key "videos" then HtmlDict_set_videos self val
  else Raise KeyError.

Definition HtmlDict_getattr (self : HtmlDict) (key : string) : result value :=
  if String.eqb key "about" then let! s := read_slot (_about self) in Ok (VStr s)
  else if String.eqb key "community" then let! s := read_slot (_community self) in Ok (VStr s)
  else if String.eqb key "featured_channels" then
    let! s := read_slot (_featured_channels self) in Ok (VStr s)
  else if String.eqb key "videos" then let! s := read_slot (_videos self) in Ok (VStr s)
  else Raise KeyError.

(** [HtmlDict.__init__(about, community, featured_channels, videos, immutable)] *)
Definition HtmlDict_init (about community featured_channels videos immutable : value)
  : result HtmlDict :=
  let! imm := PropertyDict_init immutable in
  let self := mk_html imm None None None None in
  let! self := HtmlDict_set_about self about in
  let! self := HtmlDict_set_community self community in
  let! self := HtmlDict_set_featured_channels self featured_channels in
  HtmlDict_set_videos self videos.

Definition kwarg (kv : list (string * value)) (name : string) : option value :=
  option_map snd (find (fun p => String.eqb (fst p) name) kv).

(** [HtmlDict] called with a mapping as its keyword arguments: the four
    fields are required, [immutable] is optional, any other keyword is a
    [TypeError]. *)
Definition HtmlDict_of_kwargs (kv : list (string * value)) : result HtmlDict :=
  if negb (forallb (fun p => existsb (String.eqb (fst p)) ("immutable" :: html_keys)) kv)
  then Raise TypeError
  else
    match kwarg kv "about", kwarg kv "community",
          kwarg kv "featured_channels", kwarg kv "videos" with
    | Some a, Some c, Some f, Some v =>
        HtmlDict_init a c f v
          (match kwarg kv "immutable" with Some i => i | None => VBool false end)
    | _, _, _, _ => Raise TypeError
    end.

(** A method called on a reference: the object is read from the store and
    the updated object written back at the same place. *)
Definition on_object (hp : heap) (ref : nat) (f : HtmlDict -> result HtmlDict)
  : result heap :=
  match hp !! ref with
  | None => Raise AttributeError
  | Some h => let! h' := f h in Ok (<[ref := h']> hp)
  end.

(** [HtmlDict.__setitem__(key, val)] through a reference. *)
Definition HtmlDict_setitem (hp : heap) (ref : nat) (key val : value) : result heap :=
  match key with
  | VStr k =>
      if negb (existsb (String.eqb k) html_keys) then Raise KeyError
      else on_object hp ref (fun h => HtmlDict_setattr h k val)
  | _ => Raise TypeError
  end.

(** [HtmlDict.__getitem__(key)] through a reference. *)
Definition HtmlDict_getitem (hp : heap) (ref : nat) (key : value) : result value :=
  match key with
  | VStr k =>
      if negb (existsb (String.eqb k) html_keys) then Raise KeyError
      else match hp !! ref with
           | None => Raise AttributeError
           | Some h => HtmlDict_getattr h k
           end
  | _ => Raise TypeError
  end.

(** *** [ChannelInfo] *)

Record ChannelInfo := mk_channel {
  c_immutable : bool;
  _channel_id : option string;
  _channel_name : option string;
  _html : option nat;
  _last_updated : option datetime
}.

(** [keys()]: the property names as [dir] lists them, without [immutable]. *)
Definition channel_keys : list string :=
  ["channel_id"; "channel_name"; "html"; "last_updated"].

Definition ChannelInfo_set_channel_id (self : ChannelInfo) (new_id : value)
  : result ChannelInfo :=
  do! raise_if (c_immutable self && hasattr (_channel_id self)) AttributeError in
  match new_id with
  | VStr s =>
      do! raise_if (negb (String.length s =? 24)%nat || negb (String.prefix "UC" s))
                   ValueError in
      Ok (mk_channel (c_immutable self) (Some s) (_channel_name self) (_html self)
                     (_last_updated self))
  | _ => Raise TypeError
  end.

Definition ChannelInfo_set_channel_name (self : ChannelInfo) (new_name : value)
  : result ChannelInfo :=
  do! raise_if (c_immutable self && hasattr (_channel_name self)) AttributeError in
  match new_name with
  | VStr s =>
      do! raise_if (negb (str_truthy s)) ValueError in
      Ok (mk_channel (c_immutable self) (_channel_id self) (Some s) (_html self)
                     (_last_updated self))
  | _ => Raise TypeError
  end.

(** The [html] setter: a dictionary is converted by the [HtmlDict]
    constructor into a new object, a [TypeError] or [ValueError] of the
    conversion becoming a [ValueError]; the flag of the accepted object is
    overwritten with the owner's, in the store. *)
Definition ChannelInfo_set_html (hp : heap) (self : ChannelInfo) (new_html : value)
  : result (ChannelInfo * heap) :=
  do! raise_if (c_immutable self && hasattr (_html self)) AttributeError in
  let! target :=
    match new_html with
    | VHtmlDict ref => Ok (ref, hp)
    | VDict kv =>
        match HtmlDict_of_kwargs kv with
        | Ok h => Ok (length hp, (hp ++ [h])%list)
        | Raise TypeError | Raise ValueError => Raise ValueError
        | Raise e => Raise e
        end
    | _ => Raise TypeError
    end in
  let '(ref, hp1) := target in
  let! hp2 := on_object hp1 ref
                (fun h => Ok (mk_html (c_immutable self) (_about h) (_community h)
                                      (_featured_channels h) (_videos h))) in
  Ok (mk_channel (c_immutable self) (_channel_id self) (_channel_name self) (Some ref)
                 (_last_updated self), hp2).

Definition ChannelInfo_set_last_updated (clk : clock) (self : ChannelInfo) (new_time : value)
  : result ChannelInfo :=
  do! raise_if (c_immutable self && hasattr (_last_updated self)) AttributeError in
  match new_time with
  | VDatetime t =>
      do! raise_if (negb (is_aware t)) ValueError in
      let current_time := now_utc clk in
      let! future := dt_gt t current_time in
      do! raise_if future ValueError in
      Ok (mk_channel (c_immutable self) (_channel_id self) (_channel_name self)
                     (_html self) (Some t))
  | _ => Raise TypeError
  end.

Definition ChannelInfo_setattr (clk : clock) (hp : heap) (self : ChannelInfo)
    (key : string) (val : value) : result (ChannelInfo * heap) :=
  if String.eqb key "channel_id" then
    let! c := ChannelInfo_set_channel_id self val in Ok (c, hp)
  else if String.eqb key "channel_name" then
    let! c := ChannelInfo_set_channel_name self val in Ok (c, hp)
  else if String.eqb key "html" then ChannelInfo_set_html hp self val
  else if String.eqb key "last_updated" then
    let! c := ChannelInfo_set_last_updated clk self val in Ok (c, hp)
  else Raise KeyError.

Definition ChannelInfo_getattr (self : ChannelInfo) (key : string) : result value :=
  if String.eqb key "channel_id" then let! s := read_slot (_channel_id self) in Ok (VStr s)
  else if String.eqb key "channel_name" then
    let! s := read_slot (_channel_name self) in Ok (VStr s)
  else if String.eqb key "html" then let! r := read_slot (_html self) in Ok (VHtmlDict r)
  else if String.eqb key "last_updated" then
    let! t := read_slot (_last_updated self) in Ok (VDatetime t)
  else Raise KeyError.

(** [PropertyDict.__setitem__] on a [ChannelInfo]. *)
Definition ChannelInfo_setitem (clk : clock) (hp : heap) (self : ChannelInfo)
    (key val : value) : result (ChannelInfo * heap) :=
  match key with
  | VStr k =>
      if negb (existsb (String.eqb k) channel_keys) then Raise KeyError
      else ChannelInfo_setattr clk hp self k val
  | _ => Raise TypeError
  end.

(** [PropertyDict.__getitem__] on a [ChannelInfo]. *)
Definition ChannelInfo_getitem (self : ChannelInfo) (key : value) : result value :=
  match key with
  | VStr k =>
      if negb (existsb (String.eqb k) channel_keys) then Raise KeyError
      else ChannelInfo_getattr self k
  | _ => Raise TypeError
  end.

(** [ChannelInfo.__init__]: the new [HtmlDict] is allocated in the store. *)
Definition ChannelInfo_init (clk : clock) (hp : heap)
    (channel_id channel_name last_updated about_html community_html
     featured_channels_html videos_html immutable : value)
  : result (ChannelInfo * heap) :=
  let! imm := PropertyDict_init immutable in
  let self := mk_channel imm None None None None in
  let! self := ChannelInfo_set_channel_id self channel_id in
  let! self := ChannelInfo_set_channel_name self channel_name in
  let! self := ChannelInfo_set_last_updated clk self last_updated in
  let! h := HtmlDict_init about_html community_html featured_channels_html videos_html
                          immutable in
  ChannelInfo_set_html (hp ++ [h])%list self (VHtmlDict (length hp)).

(** *** Equality of records: [PropertyDict.__eq__] *)

(** [a == b] on values that hold no reference; numbers compare by value,
    sets and dictionaries regardless of order. *)
Fixpoint value_eqb (a b : value) : bool :=
  let fix all_eq (xs ys : list value) : bool :=
    match xs, ys with
    | [], [] => true
    | x :: xs', y :: ys' => value_eqb x y && all_eq xs' ys'
    | _, _ => false
    end in
  let fix included (xs ys : list value) : bool :=
    match xs with
    | [] => true
    | x :: xs' => existsb (value_eqb x) ys && included xs' ys
    end in
  let fix entries_in (xs ys : list (string * value)) : bool :=
    match xs with
    | [] => true
    | (k, x) :: xs' =>
        match find (fun p => String.eqb (fst p) k) ys with
        | Some (_, y) => value_eqb x y
        | None => false
        end && entries_in xs' ys
    end in
  match a, b with
  | VNone, VNone => true
  | VStr x, VStr y => String.eqb x y
  | VDatetime x, VDatetime y => dt_eq x y
  | VTimedelta x, VTimedelta y => x =? y
  | VList xs, VList ys => all_eq xs ys
  | VTuple xs, VTuple ys => all_eq xs ys
  | VSet xs, VSet ys => (length xs =? length ys)%nat && included xs ys
  | VDict xs, VDict ys => (length xs =? length ys)%nat && entries_in xs ys
  | VHtmlDict x, VHtmlDict y => Nat.eqb x y
  | _, _ =>
      match as_number a, as_number b with
      | Some x, Some y => Qeq_bool x y
      | _, _ => false
      end
  end.

Fixpoint getattrs {S} (get : S -> string -> result value) (self : S) (keys : list string)
  : result (list (string * value)) :=
  match keys with
  | [] => Ok []
  | k :: ks =>
      let! v := get self k in
      let! rest := getattrs get self ks in
      Ok ((k, v) :: rest)
  end.

(** [items()] of the two record types that live in this section. *)
Definition HtmlDict_items (self : HtmlDict) : result (list (string * value)) :=
  getattrs HtmlDict_getattr self html_keys.

Definition ChannelInfo_items (self : ChannelInfo) : result (list (string * value)) :=
  getattrs ChannelInfo_getattr self channel_keys.

(** The operand of [==] seen as a mapping: a dictionary, or the items of a
    record; anything else is the [TypeError] of [__eq__]. *)
Definition as_mapping (hp : heap) (other : value) : result (list (string * value)) :=
  match other with
  | VDict kv => Ok kv
  | VHtmlDict ref =>
      match hp !! ref with
      | Some h => HtmlDict_items h
      | None => Raise AttributeError
      end
  | _ => Raise TypeError
  end.

(** [__eq__]: the lengths are compared first, then the loop reads each field
    of [self] in turn and stops at the first that differs. *)
Fixpoint items_eq {S} (get : S -> string -> result value)
    (val_eq : value -> value -> result bool)
    (self : S) (keys : list string) (other : list (string * value)) : result bool :=
  match keys with
  | [] => Ok true
  | key :: rest =>
      let! val := get self key in
      match find (fun p => String.eqb (fst p) key) other with
      | None => Ok false
      | Some (_, val') =>
          let! same := val_eq val val' in
          if same then items_eq get val_eq self rest other else Ok false
      end
  end.

Definition mapping_eq {S} (get : S -> string -> result value)
    (val_eq : value -> value -> result bool)
    (self : S) (keys : list string) (other : list (string * value)) : result bool :=
  if negb (length keys =? length other)%nat then Ok false
  else items_eq get val_eq self keys other.

(** [a == b] on field values: when one side is an [HtmlDict], its [__eq__]
    decides, against a dictionary or another [HtmlDict]. *)
Definition field_eq (hp : heap) (a b : value) : result bool :=
  match a, b with
  | VHtmlDict r, other | other, VHtmlDict r =>
      match hp !! r with
      | None => Raise AttributeError
      | Some h =>
          let! theirs := as_mapping hp other in
          mapping_eq HtmlDict_getattr (fun x y => Ok (value_eqb x y)) h html_keys theirs
      end
  | _, _ => Ok (value_eqb a b)
  end.

(** [self == other] for a [ChannelInfo] against the items of another record
    or of a dictionary. *)
Definition ChannelInfo_eq (hp : heap) (self : ChannelInfo) (other : list (string * value))
  : result bool :=
  mapping_eq ChannelInfo_getattr (field_eq hp) self channel_keys other.

(** *** JSON documents of a [ChannelInfo] *)

Inductive json :=
| JNull
| JBool (b : bool)
| JNumber (q : Q)
| JString (s : string)
| JArray (l : list json)
| JObject (kv : list (string * json)).

(** What [json.load] hands to Python code. *)
Fixpoint value_of_json (j : json) : value :=
  match j with
  | JNull => VNone
  | JBool b => VBool b
  | JNumber q => VFloat q
  | JString s => VStr s
  | JArray l => VList (map value_of_json l)
  | JObject kv => VDict (map (fun p => (fst p, value_of_json (snd p))) kv)
  end.

(** [saved[key]] *)
Definition json_getitem (saved : json) (key : string) : result json :=
  match saved with
  | JObject kv =>
      match find (fun p => String.eqb (fst p) key) kv with
      | Some p => Ok (snd p)
      | None => Raise KeyError
      end
  | _ => Raise TypeError
  end.

(** The files of local storage, each holding one JSON document. *)
Abbreviation files := (gmap string json).

(** [ChannelInfo.to_json(save_to)] for [save_to] absent or a [Path]. *)
Definition ChannelInfo_to_json (hp : heap) (fs : files) (self : ChannelInfo)
    (save_to : option string) : result (json * files) :=
  let! channel_id := read_slot (_channel_id self) in
  let! channel_name := read_slot (_channel_name self) in
  let! last_updated := read_slot (_last_updated self) in
  let! ref := read_slot (_html self) in
  let! html := match hp !! ref with Some h => Ok h | None => Raise AttributeError end in
  let! about := read_slot (_about html) in
  let! community := read_slot (_community html) in
  let! featured_channels := read_slot (_featured_channels html) in
  let! videos := read_slot (_videos html) in
  let json_dict :=
    JObject [ ("channel_id", JString channel_id);
              ("channel_name", JString channel_name);
              ("last_updated", JString (isoformat last_updated));
              ("html", JObject [ ("about", JString about);
                                 ("community", JString community);
                                 ("featured_channels", JString featured_channels);
                                 ("videos", JString videos) ]) ] in
  match save_to with
  | None => Ok (json_dict, fs)
  | Some path =>
      do! raise_if (negb (String.eqb (suffix path) ".json")) ValueError in
      Ok (json_dict, <[path := json_dict]> fs)
  end.

(** [datetime.fromisoformat(saved[key])]: the argument must be a string. *)
Definition fromisoformat_json (j : json) : result value :=
  match j with
  | JString s => let! d := fromisoformat s in Ok (VDatetime d)
  | _ => Raise TypeError
  end.

(** [ChannelInfo.from_json(json_path, immutable)] for a [Path]. *)
Definition ChannelInfo_from_json (clk : clock) (hp : heap) (fs : files)
    (json_path : string) (immutable : value) : result (ChannelInfo * heap) :=
  match fs !! json_path with
  | None => Raise ValueError
  | Some saved =>
      do! raise_if (negb (String.eqb (suffix json_path) ".json")) ValueError in
      let! channel_id := json_getitem saved "channel_id" in
      let! channel_name := json_getitem saved "channel_name" in
      let! last_updated_text := json_getitem saved "last_updated" in
      let! last_updated := fromisoformat_json last_updated_text in
      let! html := json_getitem saved "html" in
      let! about := json_getitem html "about" in
      let! html := json_getitem saved "html" in
      let! community := json_getitem html "community" in
      let! html := json_getitem saved "html" in
      let! featured_channels := json_getitem html "featured_channels" in
      let! html := json_getitem saved "html" in
      let! videos := json_getitem html "videos" in
      ChannelInfo_init clk hp (value_of_json channel_id) (value_of_json channel_name)
                       last_updated (value_of_json about) (value_of_json community)
                       (value_of_json featured_channels) (value_of_json videos) immutable
  end.

(** *** [VideoInfo] *)

Record VideoInfo := mk_video {
  v_immutable : bool;
  v_channel_id : option string;
  v_channel_name : option string;
  _video_id : option string;
  _video_title : option string;
  _publish_date : option datetime;
  v_last_updated : option datetime;
  _duration : option Z;
  _description : option string;
  _keywords : option value;
  _thumbnail_url : option string
}.

(** [keys()] of a [VideoInfo], in the order of [dir]. *)
Definition video_keys : list string :=
  ["channel_id"; "channel_name"; "description"; "duration"; "keywords";
   "last_updated"; "publish_date"; "thumbnail_url"; "video_id"; "video_title"].

Section WithValidators.

(** [validators.url], the syntax check of a URL. *)
Variable validators_url : string -> bool.

Definition VideoInfo_set_channel_id (self : VideoInfo) (new_id : value) : result VideoInfo :=
  do! raise_if (v_immutable self && hasattr (v_channel_id self)) AttributeError in
  match new_id with
  | VStr s =>
      do! raise_if (negb (String.length s =? 24)%nat || negb (String.prefix "UC" s))
                   ValueError in
      Ok (mk_video (v_immutable self) (Some s) (v_channel_name self) (_video_id self)
            (_video_title self) (_publish_date self) (v_last_updated self)
            (_duration self) (_description self) (_keywords self) (_thumbnail_url self))
  | _ => Raise TypeError
  end.

Definition VideoInfo_set_channel_name (self : VideoInfo) (new_name : value)
  : result VideoInfo :=
  do! raise_if (v_immutable self && hasattr (v_channel_name self)) AttributeError in
  match new_name with
  | VStr s =>
      do! raise_if (negb (str_truthy s)) ValueError in
      Ok (mk_video (v_immutable self) (v_channel_id self) (Some s) (_video_id self)
            (_video_title self) (_publish_date self) (v_last_updated self)
            (_duration self) (_description self) (_keywords self) (_thumbnail_url self))
  | _ => Raise TypeError
  end.

Definition VideoInfo_set_description (self : VideoInfo) (new_description : value)
  : result VideoInfo :=
  do! raise_if (v_immutable self && hasattr (_description self)) AttributeError in
  match new_description with
  | VStr s =>
      Ok (mk_video (v_immutable self) (v_channel_id self) (v_channel_name self)
            (_video_id self) (_video_title self) (_publish_date self)
            (v_last_updated self) (_duration self) (Some s) (_keywords self)
            (_thumbnail_url self))
  | _ => Raise TypeError
  end.

Definition VideoInfo_set_duration (self : VideoInfo) (new_duration : value)
  : result VideoInfo :=
  do! raise_if (v_immutable self && hasattr (_duration self)) AttributeError in
  match new_duration with
  | VTimedelta us =>
      do! raise_if (us <? 0) ValueError in
      Ok (mk_video (v_immutable self) (v_channel_id self) (v_channel_name self)
            (_video_id self) (_video_title self) (_publish_date self)
            (v_last_updated self) (Some us) (_description self) (_keywords self)
            (_thumbnail_url self))
  | _ => Raise TypeError
  end.

(** The loop over the keywords: each must be a string, and not empty. *)
Definition check_keyword (keyword : value) : result unit :=
  match keyword with
  | VStr s => raise_if (negb (str_truthy s)) ValueError
  | _ => Raise TypeError
  end.

Definition VideoInfo_set_keywords (self : VideoInfo) (new_keywords : value)
  : result VideoInfo :=
  do! raise_if (v_immutable self && hasattr (_keywords self)) AttributeError in
  let! elements :=
    match new_keywords with
    | VList l | VTuple l | VSet l => Ok l
    | _ => Raise TypeError
    end in
  do! for_each check_keyword elements in
  let stored := if v_immutable self then VTuple elements else VList elements in
  Ok (mk_video (v_immutable self) (v_channel_id self) (v_channel_name self)
        (_video_id self) (_video_title self) (_publish_date self)
        (v_last_updated self) (_duration self) (_description self) (Some stored)
        (_thumbnail_url self)).

Definition VideoInfo_set_last_updated (clk : clock) (self : VideoInfo) (new_date : value)
  : result VideoInfo :=
  do! raise_if (v_immutable self && hasattr (v_last_updated self)) AttributeError in
  match new_date with
  | VDatetime t =>
      do! raise_if (negb (is_aware t)) ValueError in
      let current_time := now_utc clk in
      let! future := dt_gt t current_time in
      do! raise_if future ValueError in
      do! match _publish_date self with
          | Some publish_date =>
              let! before := dt_lt t publish_date in raise_if before ValueError
          | None => Ok tt
          end in
      Ok (mk_video (v_immutable self) (v_channel_id self) (v_channel_name self)
            (_video_id self) (_video_title self) (_publish_date self) (Some t)
            (_duration self) (_description self) (_keywords self) (_thumbnail_url self))
  | _ => Raise TypeError
  end.

Definition VideoInfo_set_publish_date (self : VideoInfo) (new_date : value)
  : result VideoInfo :=
  do! raise_if (v_immutable self && hasattr (_publish_date self)) AttributeError in
  match new_date with
  | VDatetime t =>
      do! raise_if (negb (is_aware t)) ValueError in
      do! match v_last_updated self with
          | Some last_updated =>
              let! after := dt_gt t last_updated in raise_if after ValueError
          | None => Ok tt
          end in
      Ok (mk_video (v_immutable self) (v_channel_id self) (v_channel_name self)
            (_video_id self) (_video_title self) (Some t) (v_last_updated self)
            (_duration self) (_description self) (_keywords self) (_thumbnail_url self))
  | _ => Raise TypeError
  end.

Definition VideoInfo_set_thumbnail_url (self : VideoInfo) (new_url : value)
  : result VideoInfo :=
  do! raise_if (v_immutable self && hasattr (_thumbnail_url self)) AttributeError in
  match new_url with
  | VStr s =>
      do! raise_if (negb (validators_url s)) ValueError in
      Ok (mk_video (v_immutable self) (v_channel_id self) (v_channel_name self)
            (_video_id self) (_video_title self) (_publish_date self)
            (v_last_updated self) (_duration self) (_description self) (_keywords self)
            (Some s))
  | _ => Raise TypeError
  end.

Definition VideoInfo_set_video_id (self : VideoInfo) (new_id : value) : result VideoInfo :=
  do! raise_if (v_immutable self && hasattr (_video_id self)) AttributeError in
  match new_id with
  | VStr s =>
      do! raise_if (negb (String.length s =? 11)%nat) ValueError in
      Ok (mk_video (v_immutable self) (v_channel_id self) (v_channel_name self) (Some s)
            (_video_title self) (_publish_date self) (v_last_updated self)
            (_duration self) (_description self) (_keywords self) (_thumbnail_url self))
  | _ => Raise TypeError
  end.

Definition VideoInfo_set_video_title (self : VideoInfo) (new_title : value)
  : result VideoInfo :=
  do! raise_if (v_immutable self && hasattr (_video_title self)) AttributeError in
  match new_title with
  | VStr s =>
      do! raise_if (negb (str_truthy s)) ValueError in
      Ok (mk_video (v_immutable self) (v_channel_id self) (v_channel_name self)
            (_video_id self) (Some s) (_publish_date self) (v_last_updated self)
            (_duration self) (_description self) (_keywords self) (_thumbnail_url self))
  | _ => Raise TypeError
  end.

Definition VideoInfo_setattr (clk : clock) (self : VideoInfo) (key : string) (val : value)
  : result VideoInfo :=
  if String.eqb key "channel_id" then VideoInfo_set_channel_id self val
  else if String.eqb key "channel_name" then VideoInfo_set_channel_name self val
  else if String.eqb key "description" then VideoInfo_set_description self val
  else if String.eqb key "duration" then VideoInfo_set_duration self val
  else if String.eqb key "keywords" then VideoInfo_set_keywords self val
  else if String.eqb key "last_updated" then VideoInfo_set_last_updated clk self val
  else if String.eqb key "publish_date" then VideoInfo_set_publish_date self val
  else if String.eqb key "thumbnail_url" then VideoInfo_set_thumbnail_url self val
  else if String.eqb key "video_id" then VideoInfo_set_video_id self val
  else if String.eqb key "video_title" then VideoInfo_set_video_title self val
  else Raise KeyError.

Definition VideoInfo_getattr (self : VideoInfo) (key : string) : result value :=
  if String.eqb key "channel_id" then let! s := read_slot (v_channel_id self) in Ok (VStr s)
  else if String.eqb key "channel_name" then
    let! s := read_slot (v_channel_name self) in Ok (VStr s)
  else if String.eqb key "description" then
    let! s := read_slot (_description self) in Ok (VStr s)
  else if String.eqb key "duration" then
    let! d := read_slot (_duration self) in Ok (VTimedelta d)
  else if String.eqb key "keywords" then read_slot (_keywords self)
  else if String.eqb key "last_updated" then
    let! t := read_slot (v_last_updated self) in Ok (VDatetime t)
  else if String.eqb key "publish_date" then
    let! t := read_slot (_publish_date self) in Ok (VDatetime t)
  else if String.eqb key "thumbnail_url" then
    let! s := read_slot (_thumbnail_url self) in Ok (VStr s)
  else if String.eqb key "video_id" then let! s := read_slot (_video_id self) in Ok (VStr s)
  else if String.eqb key "video_title" then
    let! s := read_slot (_video_title self) in Ok (VStr s)
  else Raise KeyError.

(** [PropertyDict.__setitem__] on a [VideoInfo]. *)
Definition VideoInfo_setitem (clk : clock) (self : VideoInfo) (key val : value)
  : result VideoInfo :=
  match key with
  | VStr k =>
      if negb (existsb (String.eqb k) video_keys) then Raise KeyError
      else VideoInfo_setattr clk self k val
  | _ => Raise TypeError
  end.

(** [PropertyDict.__getitem__] on a [VideoInfo]. *)
Definition VideoInfo_getitem (self : VideoInfo) (key : value) : result value :=
  match key with
  | VStr k =>
      if negb (existsb (String.eqb k) video_keys) then Raise KeyError
      else VideoInfo_getattr self k
  | _ => Raise TypeError
  end.

(** [VideoInfo.__init__] *)
Definition VideoInfo_init (clk : clock)
    (channel_id channel_name video_id video_title publish_date last_updated
     duration description keywords thumbnail_url immutable : value) : result VideoInfo :=
  let! imm := PropertyDict_init immutable in
  let self := mk_video imm None None None None None None None None None None in
  let! self := VideoInfo_set_channel_id self channel_id in
  let! self := VideoInfo_set_channel_name self channel_name in
  let! self := VideoInfo_set_video_id self video_id in
  let! self := VideoInfo_set_video_title self video_title in
  let! self := VideoInfo_set_publish_date self publish_date in
  let! self := VideoInfo_set_last_updated clk self last_updated in
  let! self := VideoInfo_set_duration self duration in
  let! self := VideoInfo_set_description self description in
  let! self := VideoInfo_set_keywords self keywords in
  VideoInfo_set_thumbnail_url self thumbnail_url.

End WithValidators.

End Records.
Export Records.

(** * What the specification says, and sample data

    The notions the claims are stated with, written after the words of the
    specification, and the concrete stores, frames and records the lemmas
    below are run on. *)

Module Spec.

(** ** The statistics store *)

(** Modelled from the spec: [is_video_id] of [datatube/check.py], which is
    not among the sources; the specification gives it as the check that an id
    has 11 characters. *)
Definition is_video_id_spec (s : string) : bool := (String.length s =? 11)%nat.

(** An engine that refuses every cast the model leaves open. *)
Definition refuse_cast (d : dtype) (c : cell) : result cell := Raise TypeError.

(** [views]: an integer, not negative; [likes] and [dislikes]: the same or
    absent; [rating]: a number in [0, 5] or absent. *)
Definition valid_count (v : value) : Prop := exists z, as_int v = Some z /\ 0 <= z.
Definition valid_optional_count (v : value) : Prop := v = VNone \/ valid_count v.
Definition valid_rating (r : value) : Prop :=
  r = VNone \/ exists q, as_number r = Some q /\ (0 <= q)%Q /\ (q <= 5)%Q.

(** Some row of the store holds the pair. *)
Definition holds_pair (self : Stats) (video_id : string) (timestamp : datetime) : Prop :=
  exists label row stamp,
    In (label, row) (rows (_data self)) /\
    cell_at 0 row = CStr video_id /\
    cell_at 1 row = CTimestamp stamp /\
    ts_eq stamp timestamp = true.

(** The timestamp lies after the current time of its own kind. *)
Definition later_than_now (clk : clock) (t : datetime) : bool :=
  if is_aware t then instant (now_utc clk) <? instant t
  else instant (now_naive clk) <? instant t.

(** Two rows carry the same ([video_id], [timestamp]) pair. *)
Definition pair_eq (r1 r2 : list cell) : bool :=
  cell_eq (cell_at 0 r1) (cell_at 0 r2) && cell_eq (cell_at 1 r1) (cell_at 1 r2).

(** The pair is unique across all rows. *)
Definition unique_pairs (self : Stats) : Prop :=
  ForallOrdPairs (fun r1 r2 => pair_eq (snd r1) (snd r2) = false) (rows (_data self)).

(** Rows ascend by ([video_id], [timestamp]). *)
Definition sorted_by_pair (self : Stats) : Prop :=
  Sorted (fun r1 r2 => row_leb [0%nat; 1%nat] r1 r2 = true) (rows (_data self)).

(** The row of a group with the largest timestamp. *)
Fixpoint latest_row (j : nat) (best : option (list cell)) (rs : list (Z * list cell))
  : option (list cell) :=
  match rs with
  | [] => best
  | r :: rs' =>
      let c := cell_at j (snd r) in
      if is_na c then latest_row j best rs'
      else match best with
           | None => latest_row j (Some (snd r)) rs'
           | Some b =>
               match cell_compare c (cell_at j b) with
               | Gt => latest_row j (Some (snd r)) rs'
               | _ => latest_row j best rs'
               end
           end
  end.

(** [most_recent] as the specification words it: rows grouped by
    [video_id], the row of the maximum [timestamp] of each group, mapped from
    the [video_id] to the other fields of that row. *)
Definition most_recent_spec (self : Stats) : list (cell * list (string * cell)) :=
  let names := column_names (_data self) in
  match index_of "video_id" names, index_of "timestamp" names with
  | Some jk, Some jt =>
      flat_map
        (fun k =>
           match latest_row jt None (group_rows jk k (rows (_data self))) with
           | Some r => [(k, zip_fields (remove_nth jk names) (remove_nth jk r))]
           | None => []
           end)
        (group_keys (column_cells jk (rows (_data self))))
  | _, _ => []
  end.

(** A frame is rectangular: every row has one cell per column. *)
Definition frame_wf (data : DataFrame) : Prop :=
  Forall (fun r => length (snd r) = length (columns data)) (rows data).

(** ** The records *)

(** [a <= b], as Python compares two datetimes: by their wall-clock
    readings when they share a time zone, by their instants otherwise. *)
Definition no_later (a b : datetime) : bool :=
  match dt_le a b with Ok b => b | Raise _ => false end.

(** Both dates of a [VideoInfo], once set, are aware and in order. *)
Definition dates_ordered (v : VideoInfo) : Prop :=
  match _publish_date v, v_last_updated v with
  | Some p, Some l => is_aware p = true /\ is_aware l = true /\ no_later p l = true
  | Some p, None => is_aware p = true
  | None, Some l => is_aware l = true
  | None, None => True
  end.

(** The [VideoInfo] records a program can hold: built by the constructor,
    then changed by item assignment or attribute assignment, at any times. *)
Inductive VideoInfo_reachable (validators_url : string -> bool) : VideoInfo -> Prop :=
| video_constructed clk a1 a2 a3 a4 a5 a6 a7 a8 a9 a10 imm v :
    VideoInfo_init validators_url clk a1 a2 a3 a4 a5 a6 a7 a8 a9 a10 imm = Ok v ->
    VideoInfo_reachable validators_url v
| video_assigned clk v key val v' :
    VideoInfo_reachable validators_url v ->
    VideoInfo_setitem validators_url clk v key val = Ok v' ->
    VideoInfo_reachable validators_url v'
| video_attribute_assigned clk v key val v' :
    VideoInfo_reachable validators_url v ->
    VideoInfo_setattr validators_url clk v key val = Ok v' ->
    VideoInfo_reachable validators_url v'.

(** What the claim about immutability says of one record type, given its
    flag, its reads and its assignments by key: a record whose flag is set
    refuses to reassign a field that holds a value; a record whose flag is
    clear takes every value the field accepts and reads it back; no assignment
    changes the flag. *)
Definition refuses_reassignment {S} (immutable : S -> bool)
    (get : S -> string -> result value) (set : S -> string -> value -> result S) : Prop :=
  forall self key val old,
    immutable self = true -> get self key = Ok old ->
    set self key val = Raise AttributeError.

Definition allows_reassignment {S} (immutable : S -> bool)
    (accepts : S -> string -> value -> bool) (stored : S -> string -> value -> value)
    (get : S -> string -> result value) (set : S -> string -> value -> result S) : Prop :=
  forall self key val,
    immutable self = false -> accepts self key val = true ->
    exists self', set self key val = Ok self' /\ get self' key = Ok (stored self key val).

Definition keeps_flag {S} (immutable : S -> bool) (set : S -> string -> value -> result S)
  : Prop :=
  forall self key val self', set self key val = Ok self' -> immutable self' = immutable self.

(** The values each field takes (sections 3 and 4 of the specification). *)
Definition is_str (v : value) : bool := match v with VStr _ => true | _ => false end.
Definition is_nonempty_str (v : value) : bool :=
  match v with VStr s => str_truthy s | _ => false end.
Definition is_channel_id (v : value) : bool :=
  match v with VStr s => (String.length s =? 24)%nat && String.prefix "UC" s | _ => false end.

Definition HtmlDict_accepts (self : HtmlDict) (key : string) (val : value) : bool :=
  existsb (String.eqb key) html_keys && is_str val.

Definition keyword_elements (v : value) : option (list value) :=
  match v with VList l | VTuple l | VSet l => Some l | _ => None end.

Definition VideoInfo_accepts (validators_url : string -> bool) (clk : clock)
    (self : VideoInfo) (key : string) (val : value) : bool :=
  if String.eqb key "channel_id" then is_channel_id val
  else if String.eqb key "channel_name" then is_nonempty_str val
  else if String.eqb key "description" then is_str val
  else if String.eqb key "duration" then
    match val with VTimedelta us => 0 <=? us | _ => false end
  else if String.eqb key "keywords" then
    match keyword_elements val with
    | Some l => forallb is_nonempty_str l
    | None => false
    end
  else if String.eqb key "last_updated" then
    match val with
    | VDatetime t =>
        is_aware t && (instant t <=? instant (now_utc clk)) &&
        match _publish_date self with
        | Some p => no_later p t
        | None => true
        end
    | _ => false
    end
  else if String.eqb key "publish_date" then
    match val with
    | VDatetime t =>
        is_aware t &&
        match v_last_updated self with
        | Some l => no_later t l
        | None => true
        end
    | _ => false
    end
  else if String.eqb key "thumbnail_url" then
    match val with VStr s => validators_url s | _ => false end
  else if String.eqb key "video_id" then
    match val with VStr s => (String.length s =? 11)%nat | _ => false end
  else if String.eqb key "video_title" then is_nonempty_str val
  else false.

(** A mutable record keeps its keywords as a list of the elements given. *)
Definition VideoInfo_stored (self : VideoInfo) (key : string) (val : value) : value :=
  if String.eqb key "keywords" then
    match keyword_elements val with Some l => VList l | None => val end
  else val.

Definition ChannelInfo_accepts (clk : clock) (hp : heap) (self : ChannelInfo)
    (key : string) (val : value) : bool :=
  if String.eqb key "channel_id" then is_channel_id val
  else if String.eqb key "channel_name" then is_nonempty_str val
  else if String.eqb key "html" then
    match val with VHtmlDict ref => bool_decide (is_Some (hp !! ref)) | _ => false end
  else if String.eqb key "last_updated" then
    match val with
    | VDatetime t => is_aware t && (instant t <=? instant (now_utc clk))
    | _ => false
    end
  else false.

(** A [ChannelInfo] together with the object store it lives in. *)
Definition ChannelInfo_set (clk : clock) (state : ChannelInfo * heap) (key : string)
    (val : value) : result (ChannelInfo * heap) :=
  ChannelInfo_setattr clk state.2 state.1 key val.

End Spec.
Export Spec.

(** ** Sample data *)

Module Samples.

(** Noon UTC on 1 June 2022, read in a zone two hours ahead. *)
Definition clock0 : clock :=
  mk_clock (mk_datetime 2022 6 1 12 0 0 0 None false)
           (mk_datetime 2022 6 1 14 0 0 0 None false).

(** The frame of [Stats()]: the empty [float64] columns of [views], [likes]
    and [dislikes] pass the check of [int] and are left as they are. *)
Definition empty_store : Stats :=
  mk_stats (mk_frame [("video_id", pd_string); ("timestamp", np_datetime64);
                      ("views", np_float64); ("rating", pd_Float64);
                      ("likes", np_float64); ("dislikes", np_float64)] []).

Definition january : datetime := mk_datetime 2022 1 1 0 0 0 0 None false.
Definition february : datetime := mk_datetime 2022 2 1 0 0 0 0 None false.
Definition january_utc : datetime := mk_datetime 2022 1 1 0 0 0 0 (Some (timezone 0)) false.
Definition february_utc : datetime := mk_datetime 2022 2 1 0 0 0 0 (Some (timezone 0)) false.
Definition next_year_utc : datetime := mk_datetime 2023 1 1 0 0 0 0 (Some (timezone 0)) false.

(** [ZoneInfo("Europe/Berlin")], as it answers around the end of summer time
    in 2021: two hours ahead of UTC until 3 o'clock on 31 October, one hour
    from then on; the wall-clock readings from 2 to 3 o'clock of that night
    occur twice, and [fold] tells the second from the first. *)
Definition berlin_offset (wall : Z) (fold : bool) : Z :=
  let two := wall_us (mk_datetime 2021 10 31 2 0 0 0 None false) in
  let three := wall_us (mk_datetime 2021 10 31 3 0 0 0 None false) in
  if wall <? two then 7200000000
  else if wall <? three then (if fold then 3600000000 else 7200000000)
  else 3600000000.

Definition berlin : tz := ZoneInfo "Europe/Berlin" berlin_offset.

(** Half past two in that night, the first time round. *)
Definition berlin_fold : datetime := mk_datetime 2021 10 31 2 30 0 0 (Some berlin) false.

(** [s = Stats(); s.add_row("12345678901", february, 100, likes=80, dislikes=20)],
    then the January sample of the same video. *)
Definition store_feb : Stats :=
  fst (add_row is_video_id_spec refuse_cast clock0 empty_store
         (VStr "12345678901") (VDatetime february) (VInt 100) VNone (VInt 80) (VInt 20)).
Definition store_feb_jan : Stats :=
  fst (add_row is_video_id_spec refuse_cast clock0 store_feb
         (VStr "12345678901") (VDatetime january) (VInt 50) VNone (VInt 30) (VInt 20)).

(** A frame as [pd.DataFrame] builds it from Python objects. *)
Definition object_columns : list (string * dtype) :=
  [("video_id", np_object); ("timestamp", np_object); ("views", np_int64);
   ("rating", np_float64); ("likes", np_int64); ("dislikes", np_int64)].

(** Two samples whose index labels are both 2, as
    [pd.DataFrame(..., index=[2, 2])] or a concatenation of two frames
    gives. *)
Definition relabelled_dataset : DataFrame :=
  mk_frame object_columns
    [ (2, [CStr "aaaaaaaaaaa"; CTimestamp january_utc; CInt 10; CFloat (9 # 2); CInt 9; CInt 1]);
      (2, [CStr "bbbbbbbbbbb"; CTimestamp february_utc; CInt 20; CFloat (5 # 2); CInt 1; CInt 1]) ].

(** One sample of January 2022, as section 3 of the specification asks for
    it: the timestamp carries a time zone.  pandas builds the [timestamp]
    column of such a frame in the dtype of that zone. *)
Definition aware_dataset : DataFrame :=
  mk_frame [("video_id", np_object); ("timestamp", pd_datetime64tz (timezone 0));
            ("views", np_int64); ("rating", np_float64); ("likes", np_int64);
            ("dislikes", np_int64)]
    [ (0, [CStr "aaaaaaaaaaa"; CTimestamp january_utc; CInt 10; CFloat (9 # 2); CInt 9;
           CInt 1]) ].

(** One sample dated after [clock0]. *)
Definition future_dataset : DataFrame :=
  mk_frame object_columns
    [ (0, [CStr "aaaaaaaaaaa"; CTimestamp next_year_utc; CInt 10; CFloat (9 # 2); CInt 9; CInt 1]) ].

(** A frame with a column of each kind [coerce_dtypes] converts. *)
Definition mixed_frame : DataFrame :=
  mk_frame [("views", np_object); ("rating", np_int64); ("title", pd_string)]
           [ (0, [CBool true; CInt 4; CStr "a"]);
             (1, [CInt 7; CInt 5; NA]);
             (2, [NA; CInt 1; CStr "c"]) ].

Definition mixed_kwargs : list (string * typespec) :=
  [("views", Single ty_int); ("rating", Single ty_float); ("title", Single ty_str)].

(** A validator that takes the addresses with a scheme separator. *)
Definition url_with_scheme (s : string) : bool :=
  match index 0 "://" s with Some _ => true | None => false end.

End Samples.
Export Samples.

(** ** Further notions *)

Module More.

(** [items()] and [__eq__] of a [VideoInfo], as [PropertyDict] defines them
    for every record; none of its fields is a record itself. *)
Definition VideoInfo_items (self : VideoInfo) : result (list (string * value)) :=
  getattrs VideoInfo_getattr self video_keys.

Definition VideoInfo_eq (self : VideoInfo) (other : list (string * value)) : result bool :=
  mapping_eq VideoInfo_getattr (fun x y => Ok (value_eqb x y)) self video_keys other.

(** Every field of a [VideoInfo] that holds a value holds one its setter
    accepts; the keywords are a tuple in an immutable record, a list in a
    mutable one. *)
Definition video_valid (validators_url : string -> bool) (v : VideoInfo) : Prop :=
  (forall s, v_channel_id v = Some s ->
             String.length s = 24%nat /\ String.prefix "UC" s = true) /\
  (forall s, v_channel_name v = Some s -> s <> "") /\
  (forall s, _video_id v = Some s -> String.length s = 11%nat) /\
  (forall s, _video_title v = Some s -> s <> "") /\
  (forall d, _duration v = Some d -> 0 <= d) /\
  (forall k, _keywords v = Some k ->
             exists l, k = (if v_immutable v then VTuple l else VList l) /\
                       Forall (fun x => exists s, x = VStr s /\ s <> "") l) /\
  (forall s, _thumbnail_url v = Some s -> validators_url s = true).

(** Every field holds a value. *)
Definition video_complete (v : VideoInfo) : Prop :=
  hasattr (v_channel_id v) = true /\ hasattr (v_channel_name v) = true /\
  hasattr (_video_id v) = true /\ hasattr (_video_title v) = true /\
  hasattr (_publish_date v) = true /\ hasattr (v_last_updated v) = true /\
  hasattr (_duration v) = true /\ hasattr (_description v) = true /\
  hasattr (_keywords v) = true /\ hasattr (_thumbnail_url v) = true.

End More.
Export More.

(** ** Further sample data *)

Module MoreSamples.

(** A frame whose columns hold what their dtypes say. *)
Definition typed_frame : DataFrame :=
  mk_frame [("views", pd_Int64); ("title", pd_string)]
           [ (0, [CInt 1; CStr "a"]); (1, [NA; CStr "b"]) ].

Definition typed_kwargs : list (string * typespec) :=
  [("views", Single ty_int); ("title", Single ty_str)].

(** The January and then the February sample of one video. *)
Definition store_jan : Stats :=
  fst (add_row is_video_id_spec refuse_cast clock0 empty_store
         (VStr "12345678901") (VDatetime january) (VInt 50) VNone (VInt 30) (VInt 20)).
Definition store_jan_feb : Stats :=
  fst (add_row is_video_id_spec refuse_cast clock0 store_jan
         (VStr "12345678901") (VDatetime february) (VInt 100) VNone (VInt 80) (VInt 20)).

(** A sample dated 1600, before the first instant that [datetime64[ns]]
    holds: [add_row] appends it and raises while it restores the dtypes. *)
Definition year_1600 : datetime := mk_datetime 1600 1 1 0 0 0 0 None false.
Definition store_feb_1600 : Stats :=
  fst (add_row is_video_id_spec refuse_cast clock0 store_feb
         (VStr "12345678901") (VDatetime year_1600) (VInt 1) VNone VNone VNone).

(** The arguments of a video published in January 2022 and checked in
    February. *)
Definition sample_video (immutable : bool) : result VideoInfo :=
  VideoInfo_init url_with_scheme clock0 (VStr "UC0123456789abcdefghijkl") (VStr "a channel")
    (VStr "12345678901") (VStr "a title") (VDatetime january_utc) (VDatetime february_utc)
    (VTimedelta 60000000) (VStr "") (VList [VStr "k"]) (VStr "https://i.ytimg.com/t.jpg")
    (VBool immutable).

Definition sample_channel (hp : heap) (immutable : bool) : result (ChannelInfo * heap) :=
  ChannelInfo_init clock0 hp (VStr "UC0123456789abcdefghijkl") (VStr "a channel")
    (VDatetime january_utc) (VStr "about") (VStr "community") (VStr "featured")
    (VStr "videos") (VBool immutable).

End MoreSamples.
Export MoreSamples.

(** ** Stores grown from [Stats()] *)

Module Grown.

(** The [data] property: a copy of the frame. *)
Definition Stats_data (self : Stats) : DataFrame := _data self.

(** The six columns of the store in their order, [video_id] a string
    column, [timestamp] a [datetime64[ns]] column or, once a timestamp that
    [datetime64[ns]] cannot hold has been appended, an [object] column. *)
Definition grown_columns (cols : list (string * dtype)) : bool :=
  match cols with
  | [(k0, pd_string); (k1, (np_datetime64 | np_object)); (k2, _); (k3, _); (k4, _);
     (k5, _)] =>
      String.eqb k0 "video_id" && String.eqb k1 "timestamp" && String.eqb k2 "views"
      && String.eqb k3 "rating" && String.eqb k4 "likes" && String.eqb k5 "dislikes"
  | _ => false
  end.

(** A row of six cells that holds an id the format check accepts and a
    naive timestamp. *)
Definition stored_row (is_video_id : string -> bool) (r : list cell) : bool :=
  match r with
  | [CStr video_id; CTimestamp t; _; _; _; _] => is_video_id video_id && negb (is_aware t)
  | _ => false
  end.

(** What identifies a row: its label and its ([video_id], [timestamp])
    pair. *)
Definition row_key (r : Z * list cell) : Z * (cell * cell) :=
  (fst r, (cell_at 0 (snd r), cell_at 1 (snd r))).

(** The stores a program reaches from [Stats()] by calls of [add_row],
    whether they return or raise. *)
Inductive Stats_grown (is_video_id : string -> bool)
    (cast_other : dtype -> cell -> result cell) : Stats -> Prop :=
| grown_new clk interpolate s :
    Stats_init is_video_id cast_other clk None interpolate = Ok s ->
    Stats_grown is_video_id cast_other s
| grown_add_row clk s video_id timestamp views rating likes dislikes s' outcome :
    Stats_grown is_video_id cast_other s ->
    add_row is_video_id cast_other clk s video_id timestamp views rating likes dislikes
    = (s', outcome) ->
    Stats_grown is_video_id cast_other s'.

(** The index labels are the numbers below the number of rows, each once. *)
Definition labels_permuted (self : Stats) : Prop :=
  Permutation (map fst (rows (_data self))) (map Z.of_nat (seq 0 (Stats_len self))).

(** What holds of every store grown from [Stats()]. *)
Definition grown_invariant (is_video_id : string -> bool) (self : Stats) : Prop :=
  grown_columns (columns (_data self)) = true /\
  Forall (fun r => stored_row is_video_id (snd r) = true) (rows (_data self)) /\
  labels_permuted self /\
  unique_pairs self.

End Grown.
Export Grown.

(** ** A [ChannelInfo] in its object store *)

Module Channels.

(** The four fields of an [HtmlDict] hold values. *)
Definition html_complete (h : HtmlDict) : Prop :=
  hasattr (_about h) = true /\ hasattr (_community h) = true /\
  hasattr (_featured_channels h) = true /\ hasattr (_videos h) = true.

(** One [ChannelInfo] in its object store, as a program holds it: built by
    the constructor among [HtmlDict]s that constructors built, then changed
    by item or attribute assignments; meanwhile the [HtmlDict]s of the store
    are assigned to by item, and further ones are constructed.  No second
    [ChannelInfo] takes an [HtmlDict] of the store as its [html]. *)
Inductive ChannelInfo_reachable : ChannelInfo -> heap -> Prop :=
| channel_constructed clk hp a1 a2 a3 a4 a5 a6 a7 imm c hp1 :
    Forall html_complete hp ->
    ChannelInfo_init clk hp a1 a2 a3 a4 a5 a6 a7 imm = Ok (c, hp1) ->
    ChannelInfo_reachable c hp1
| channel_assigned clk c hp key val c' hp' :
    ChannelInfo_reachable c hp ->
    ChannelInfo_setitem clk hp c key val = Ok (c', hp') ->
    ChannelInfo_reachable c' hp'
| channel_attribute_assigned clk c hp key val c' hp' :
    ChannelInfo_reachable c hp ->
    ChannelInfo_setattr clk hp c key val = Ok (c', hp') ->
    ChannelInfo_reachable c' hp'
| html_assigned c hp ref key val hp' :
    ChannelInfo_reachable c hp ->
    HtmlDict_setitem hp ref key val = Ok hp' ->
    ChannelInfo_reachable c hp'
| html_constructed c hp about community featured_channels videos imm h :
    ChannelInfo_reachable c hp ->
    HtmlDict_init about community featured_channels videos imm = Ok h ->
    ChannelInfo_reachable c (hp ++ [h])%list.

(** Every field of the [ChannelInfo] holds a value its setter accepts; its
    [html] is an [HtmlDict] of the store that carries the flag of its owner;
    every [HtmlDict] of the store is complete. *)
Definition channel_valid (c : ChannelInfo) (hp : heap) : Prop :=
  (exists s, _channel_id c = Some s /\
             String.length s = 24%nat /\ String.prefix "UC" s = true) /\
  (exists s, _channel_name c = Some s /\ s <> "") /\
  (exists t, _last_updated c = Some t /\ is_aware t = true) /\
  (exists r h, _html c = Some r /\ hp !! r = Some h /\ h_immutable h = c_immutable c) /\
  Forall html_complete hp.

End Channels.
Export Channels.

(** ** Types that stay as they are cast *)

Module Settled.

(** The types whose dtype [convert_dtypes] leaves alone once a column has
    been cast to it: every type of the table but [object], whose columns
    are inferred anew. *)
Definition settled_type (t : pytype) : bool :=
  match t with
  | ty_int | ty_float | ty_complex | ty_str | ty_bool | ty_datetime | ty_timedelta => true
  | _ => false
  end.

End Settled.
Export Settled.

(** * The statistics store: what [add_row] checks *)

Section StatsFacts.
Variable is_video_id : string -> bool.
Variable cast_other : dtype -> cell -> result cell.

Local Abbreviation add_row := (add_row is_video_id cast_other).
Local Abbreviation add_row_checks := (add_row_checks is_video_id).
Local Abbreviation Stats_init := (Stats_init is_video_id cast_other).

Lemma now_naive_is_naive clk : is_aware (now_naive clk) = false.
Proof. reflexivity. Qed.

Lemma now_utc_is_aware clk : is_aware (now_utc clk) = true.
Proof. reflexivity. Qed.

(** A naive datetime is its wall-clock reading. *)
Lemma instant_naive t : is_aware t = false -> instant t = wall_us t.
Proof.
  unfold is_aware, instant, utcoffset. destruct (tzinfo t); [discriminate | reflexivity].
Qed.

(** Two naive datetimes are ordered by their readings. *)
Lemma dt_compare_naive a b :
  is_aware a = false -> is_aware b = false -> dt_compare a b = Ok (instant a ?= instant b).
Proof.
  intros Ha Hb. rewrite (instant_naive _ Ha), (instant_naive _ Hb).
  unfold dt_compare, same_tzinfo. unfold is_aware in Ha, Hb.
  destruct (tzinfo a); [discriminate |]. destruct (tzinfo b); [discriminate | reflexivity].
Qed.

(** An aware datetime against one of a fixed offset: whether the two share
    the [tzinfo] or not, the order is that of the instants. *)
Lemma dt_compare_fixed a b o :
  is_aware a = true -> tzinfo b = Some (timezone o) ->
  dt_compare a b = Ok (instant a ?= instant b).
Proof.
  intros Ha Hb. unfold dt_compare, same_tzinfo, is_aware in *. rewrite Hb.
  destruct (tzinfo a) as [za |] eqn:Ea; [| discriminate].
  destruct (same_tz za (timezone o)) eqn:Es; [| reflexivity].
  destruct za as [x | k f]; [| discriminate Es]. apply Z.eqb_eq in Es. subst x.
  unfold instant, utcoffset. rewrite Ea, Hb. cbn [option_map tz_utcoffset].
  f_equal.
  destruct (Z.compare_spec (wall_us a) (wall_us b)),
    (Z.compare_spec (wall_us a - o) (wall_us b - o)); try reflexivity; lia.
Qed.

(** Python refuses to order an aware datetime against a naive one. *)
Lemma dt_compare_aware_naive a b :
  is_aware a = true -> is_aware b = false -> dt_compare a b = Raise TypeError.
Proof.
  intros Ha Hb. unfold dt_compare, same_tzinfo. unfold is_aware in *.
  destruct (tzinfo a); [| discriminate]. destruct (tzinfo b); [discriminate | reflexivity].
Qed.

Lemma dt_gt_aware_naive t clk : is_aware t = true -> dt_gt t (now_naive clk) = Raise TypeError.
Proof.
  intros H. unfold dt_gt. now rewrite (dt_compare_aware_naive _ _ H (now_naive_is_naive clk)).
Qed.

Lemma same_tz_sym x y : same_tz x y = same_tz y x.
Proof.
  destruct x, y; cbn [same_tz]; try reflexivity; [apply Z.eqb_sym | apply String.eqb_sym].
Qed.

Lemma same_tz_refl x : same_tz x x = true.
Proof. destruct x; cbn [same_tz]; [apply Z.eqb_refl | apply String.eqb_refl]. Qed.

Lemma same_tzinfo_sym a b : same_tzinfo a b = same_tzinfo b a.
Proof.
  unfold same_tzinfo. destruct (tzinfo a), (tzinfo b); try reflexivity. apply same_tz_sym.
Qed.

Lemma same_tzinfo_refl a : same_tzinfo a a = true.
Proof. unfold same_tzinfo. destruct (tzinfo a); [apply same_tz_refl | reflexivity]. Qed.

(** Swapping the sides of a comparison mirrors its outcome. *)
Lemma dt_compare_swap a b :
  dt_compare b a = match dt_compare a b with Ok c => Ok (CompOpp c) | Raise e => Raise e end.
Proof.
  unfold dt_compare. rewrite (same_tzinfo_sym b a), (andb_comm (is_aware b)).
  destruct (same_tzinfo a b); [now rewrite Z.compare_antisym |].
  destruct (is_aware a && is_aware b); [now rewrite Z.compare_antisym | reflexivity].
Qed.

(** [a <= b] is [not a > b] and [not b < a] wherever the two compare. *)
Lemma no_later_gt a b : no_later a b = true <-> dt_gt a b = Ok false.
Proof.
  unfold no_later, dt_le, dt_gt. destruct (dt_compare a b) as [[] |]; cbn [bind];
    split; intros H; try reflexivity; discriminate H.
Qed.

Lemma no_later_lt a b : no_later a b = true <-> dt_lt b a = Ok false.
Proof.
  unfold no_later, dt_le, dt_lt. rewrite (dt_compare_swap a b).
  destruct (dt_compare a b) as [[] |]; cbn [bind CompOpp];
    split; intros H; try reflexivity; discriminate H.
Qed.

(** Against the current time in UTC, every aware datetime is ordered by
    its instant. *)
Lemma dt_gt_utc t clk :
  is_aware t = true -> dt_gt t (now_utc clk) = Ok (instant (now_utc clk) <? instant t).
Proof.
  intros Ht. unfold dt_gt. rewrite (dt_compare_fixed t (now_utc clk) 0 Ht eq_refl).
  cbn [bind]. f_equal.
  destruct (Z.compare_spec (instant t) (instant (now_utc clk))); symmetry;
    [apply Z.ltb_ge | apply Z.ltb_ge | apply Z.ltb_lt]; lia.
Qed.

Lemma dt_eq_refl t : dt_eq t t = true.
Proof. unfold dt_eq. rewrite same_tzinfo_refl. apply Z.eqb_refl. Qed.

Lemma ts_eq_refl t : ts_eq t t = true.
Proof. unfold ts_eq. rewrite Bool.eqb_reflx, Z.eqb_refl. reflexivity. Qed.

(** A failed check leaves the store as it was. *)
Lemma add_row_raises_unchanged clk self a b c d e f err :
  add_row_checks clk self a b c d e f = Raise err ->
  add_row clk self a b c d e f = (self, Raise err).
Proof. intros H. unfold StatsStore.add_row. rewrite H. reflexivity. Qed.

Lemma checks_aware clk self video_id t views rating likes dislikes :
  is_aware t = true ->
  (forall s, video_id = VStr s -> is_video_id s = true) ->
  add_row_checks clk self video_id (VDatetime t) views rating likes dislikes = Raise TypeError.
Proof.
  intros Ht Hs. unfold StatsStore.add_row_checks.
  destruct video_id; cbn [bind]; try reflexivity.
  rewrite (Hs s eq_refl). cbn [negb raise_if bind].
  rewrite (dt_gt_aware_naive _ _ Ht). reflexivity.
Qed.

Lemma checks_aware_any clk self video_id t views rating likes dislikes :
  is_aware t = true ->
  exists e, add_row_checks clk self video_id (VDatetime t) views rating likes dislikes = Raise e.
Proof.
  intros Ht. unfold StatsStore.add_row_checks.
  destruct video_id; cbn [bind]; eauto.
  destruct (is_video_id s); cbn [negb raise_if bind]; eauto.
  rewrite (dt_gt_aware_naive _ _ Ht). eauto.
Qed.

(** The call of the specification's example, at any time and on any store. *)
Lemma add_row_now_utc_raises clk self :
  is_video_id "12345678901" = true ->
  add_row clk self (VStr "12345678901") (VDatetime (now_utc clk))
    (VInt 100) VNone (VInt 80) (VInt 20) = (self, Raise TypeError).
Proof.
  intros Hid. apply add_row_raises_unchanged, checks_aware; [apply now_utc_is_aware |].
  intros s [= <-]. exact Hid.
Qed.

(** The rating [add_row] derives from the two counts. *)
Lemma derive_rating_formula l d :
  0 < l + d ->
  derive_rating VNone (VInt l) (VInt d)
  = Ok (VFloat (round_double (inject_Z (5 * l) / inject_Z (l + d)))).
Proof.
  intros Hpos. unfold derive_rating. cbn [is_none andb orb negb as_int].
  destruct (l + d =? 0) eqn:E; [apply Z.eqb_eq in E; lia | reflexivity].
Qed.

(** ** Duplicates *)

Lemma valid_count_checks v : valid_count v -> check_count v = Ok tt.
Proof.
  intros (z & Hz & Hpos). unfold check_count. rewrite Hz.
  destruct (z <? 0) eqn:E; [apply Z.ltb_lt in E; lia | reflexivity].
Qed.

Lemma valid_optional_count_checks v : valid_optional_count v -> check_optional_count v = Ok tt.
Proof.
  intros [-> | H]; [reflexivity |].
  destruct H as (z & Hz & Hpos).
  pose proof (valid_count_checks v (ex_intro _ z (conj Hz Hpos))) as Hc.
  unfold check_optional_count. destruct v; try exact Hc. discriminate Hz.
Qed.

Lemma valid_rating_checks r : valid_rating r -> check_rating r = Ok tt.
Proof.
  intros [-> | (q & Hq & H0 & H5)]; [reflexivity |].
  unfold check_rating.
  assert (E : Qle_bool 0 q && Qle_bool q 5 = true).
  { apply andb_true_intro. split; apply Qle_bool_iff; assumption. }
  destruct r; try (rewrite Hq, E; reflexivity). discriminate Hq.
Qed.

Lemma existsb_zip_columns {A} (f g : A -> bool) (l : list A) :
  existsb id (zip_with andb (map f l) (map g l)) = existsb (fun x => f x && g x) l.
Proof. induction l as [| x l IH]; simpl; [reflexivity | now rewrite IH]. Qed.

(** The duplicate test, row by row, on a frame with the store's columns. *)
Lemma row_exists_canonical data vid ts :
  column_names data = expected_names ->
  row_exists data vid ts
  = Ok (existsb (fun r => cell_eq (cell_at 0 (snd r)) (CStr vid)
                          && cell_eq (cell_at 1 (snd r)) (CTimestamp ts)) (rows data)).
Proof.
  intros Hc. unfold row_exists, getitem. rewrite Hc.
  cbn [expected_names expected_columns map fst index_of String.eqb Ascii.eqb Bool.eqb
       option_map bind s_values].
  simpl. rewrite !map_map.
  rewrite (existsb_zip_columns (fun r => cell_eq (cell_at 0 (snd r)) (CStr vid))
             (fun r => cell_eq (cell_at 1 (snd r)) (CTimestamp ts))). reflexivity.
Qed.

Lemma holds_pair_row_exists self vid ts :
  column_names (_data self) = expected_names ->
  holds_pair self vid ts -> row_exists (_data self) vid ts = Ok true.
Proof.
  intros Hc (label & row & stamp & Hin & Hv & Ht & Heq).
  rewrite row_exists_canonical by assumption. f_equal.
  apply existsb_exists. exists (label, row). split; [assumption |].
  cbn [snd]. rewrite Hv, Ht. unfold cell_eq. cbn. rewrite String.eqb_refl, Heq. reflexivity.
Qed.

Lemma dt_gt_not_future t clk :
  tzinfo t = None -> instant t <= instant (now_naive clk) -> dt_gt t (now_naive clk) = Ok false.
Proof.
  intros Hn Hle. unfold dt_gt.
  rewrite dt_compare_naive; [| unfold is_aware; now rewrite Hn | reflexivity].
  cbn [bind].
  destruct (instant t ?= instant (now_naive clk)) eqn:E; try reflexivity.
  apply Z.compare_gt_iff in E. lia.
Qed.

(** ** Timestamps in the future *)

(** The check of the constructor lets every aware timestamp through: the
    comparison with the current time is made and its outcome dropped. *)
Lemma check_timestamp_aware clk t :
  is_aware t = true -> check_timestamp clk (CTimestamp t) = Ok tt.
Proof.
  intros H. unfold check_timestamp. rewrite H. cbn [negb raise_if bind].
  unfold dt_gt. rewrite (dt_compare_fixed t (now_utc clk) 0 H eq_refl). cbn [bind].
  destruct (instant t ?= _); reflexivity.
Qed.

Lemma check_timestamp_clock clk clk' c : check_timestamp clk c = check_timestamp clk' c.
Proof.
  destruct c; try reflexivity.
  destruct (is_aware d) eqn:E.
  - now rewrite !check_timestamp_aware.
  - unfold check_timestamp. rewrite E. reflexivity.
Qed.

Lemma for_each_ext {A} (f g : A -> result unit) l :
  (forall x, f x = g x) -> for_each f l = for_each g l.
Proof. intros H. induction l as [| x l IH]; simpl; [reflexivity | now rewrite H, IH]. Qed.

Lemma apply_check_timestamp_clock clk clk' data :
  apply_check data "timestamp" (check_timestamp clk)
  = apply_check data "timestamp" (check_timestamp clk').
Proof.
  unfold apply_check. destruct (getitem data "timestamp"); cbn [bind]; [| reflexivity].
  apply for_each_ext. intros x. apply check_timestamp_clock.
Qed.

(** What the constructor returns does not depend on the time it runs at. *)
Lemma Stats_init_clock clk clk' data interpolate :
  Stats_init clk data interpolate = Stats_init clk' data interpolate.
Proof.
  unfold StatsStore.Stats_init. destruct data as [data |]; [| reflexivity].
  repeat match goal with
         | |- bind ?m _ = bind ?m _ => destruct m; cbn [bind]; [| reflexivity]
         end.
  rewrite (apply_check_timestamp_clock clk clk'). reflexivity.
Qed.

Lemma add_row_future_raises clk self video_id t views rating likes dislikes :
  later_than_now clk t = true ->
  exists e, add_row clk self video_id (VDatetime t) views rating likes dislikes
            = (self, Raise e).
Proof.
  intros H.
  assert (exists e, add_row_checks clk self video_id (VDatetime t) views rating
                      likes dislikes = Raise e) as [e He].
  { unfold StatsStore.add_row_checks. destruct video_id; cbn [bind]; eauto.
    destruct (is_video_id s); cbn [negb raise_if bind]; eauto.
    unfold later_than_now in H.
    destruct (is_aware t) eqn:E; [rewrite (dt_gt_aware_naive _ _ E); eauto |].
    unfold dt_gt. rewrite (dt_compare_naive _ _ E (now_naive_is_naive clk)).
    apply Z.ltb_lt in H.
    replace (instant t ?= instant (now_naive clk)) with Gt.
    2:{ symmetry. apply Z.compare_gt_iff. exact H. }
    cbn [raise_if bind]. eauto. }
  exists e. now apply add_row_raises_unchanged.
Qed.

(** A naive timestamp after the current local time, with an accepted id:
    the value error of the guard. *)
Lemma add_row_future_naive clk self s t views rating likes dislikes :
  is_video_id s = true -> is_aware t = false -> later_than_now clk t = true ->
  add_row clk self (VStr s) (VDatetime t) views rating likes dislikes
  = (self, Raise ValueError).
Proof.
  intros Hs Hn H. apply add_row_raises_unchanged.
  unfold StatsStore.add_row_checks. cbn [bind]. rewrite Hs. cbn [negb raise_if bind].
  unfold later_than_now in H. rewrite Hn in H. apply Z.ltb_lt in H.
  unfold dt_gt. rewrite (dt_compare_naive _ _ Hn (now_naive_is_naive clk)).
  replace (instant t ?= instant (now_naive clk)) with Gt; [reflexivity |].
  symmetry. apply Z.compare_gt_iff. exact H.
Qed.

(** ** The claims on [add_row] and the constructor *)

(** A duplicate given with a naive timestamp: [add_row] called with a
    ([video_id], [timestamp]) pair that a row of the store holds, with a
    naive timestamp not after the current local time and with [views],
    [rating], [likes] and [dislikes] that pass their own checks, raises a
    value error and returns the store as it was before the call. *)
Lemma add_row_duplicate_naive clk self vid ts views rating likes dislikes :
  column_names (_data self) = expected_names ->
  holds_pair self vid ts ->
  is_video_id vid = true ->
  tzinfo ts = None -> instant ts <= instant (now_naive clk) ->
  valid_count views -> valid_rating rating ->
  valid_optional_count likes -> valid_optional_count dislikes ->
  add_row clk self (VStr vid) (VDatetime ts) views rating likes dislikes
  = (self, Raise ValueError).
Proof.
  intros Hc Hp Hid Hn Hle Hv Hr Hl Hd.
  apply add_row_raises_unchanged.
  unfold StatsStore.add_row_checks. cbn [bind]. rewrite Hid. cbn [negb raise_if bind].
  rewrite (dt_gt_not_future _ _ Hn Hle). cbn [raise_if bind].
  rewrite (valid_count_checks _ Hv). cbn [bind].
  rewrite (valid_rating_checks _ Hr). cbn [bind for_each].
  rewrite (valid_optional_count_checks _ Hl). cbn [bind].
  rewrite (valid_optional_count_checks _ Hd). cbn [bind].
  rewrite (holds_pair_row_exists _ _ _ Hc Hp). reflexivity.
Qed.

(** C9: the constructor returns the same result whatever the current time
    is, so a dataset is accepted or refused without regard to its timestamps
    lying in the future, and its timestamp check passes every aware
    timestamp; [add_row] raises on every timestamp after the current time
    and leaves the store as it was. *)
Theorem future_timestamp_bulk_accepts_add_row_rejects
    clk clk' data interpolate t self video_id views rating likes dislikes :
  Stats_init clk data interpolate = Stats_init clk' data interpolate /\
  (is_aware t = true -> check_timestamp clk (CTimestamp t) = Ok tt) /\
  (later_than_now clk t = true ->
   exists e, add_row clk self video_id (VDatetime t) views rating likes dislikes
             = (self, Raise e)).
Proof.
  split; [apply Stats_init_clock |].
  split; [apply check_timestamp_aware | apply add_row_future_raises].
Qed.

(** C10, as amended: for every aware timestamp [add_row] raises and returns
    the store as it was, so no aware sample is ever inserted; the error is
    the type error of the comparison with the naive current time unless
    [video_id] is a string that the id check refuses. *)
Theorem add_row_aware_timestamp clk self video_id t views rating likes dislikes :
  is_aware t = true ->
  (exists e, add_row clk self video_id (VDatetime t) views rating likes dislikes
             = (self, Raise e)) /\
  ((forall s, video_id = VStr s -> is_video_id s = true) ->
   add_row clk self video_id (VDatetime t) views rating likes dislikes
   = (self, Raise TypeError)).
Proof.
  intros Ht. split.
  - destruct (checks_aware_any clk self video_id t views rating likes dislikes Ht) as [e He].
    exists e. now apply add_row_raises_unchanged.
  - intros Hs. apply add_row_raises_unchanged. now apply checks_aware.
Qed.

End StatsFacts.

(** ** The claims at concrete calls *)

(** The February sample, added with a naive timestamp, is stored with the
    derived rating. *)
Example store_feb_rows :
  rows (_data store_feb)
  = [(0, [CStr "12345678901"; CTimestamp february; CFloat 100; CFloat 4; CFloat 80;
          CFloat 20])].
Proof. vm_compute. reflexivity. Qed.

(** C1: the call of the specification's example,
    [add_row("12345678901", now_utc, 100, likes=80, dislikes=20)], raises a
    type error at any time and on any store, which it leaves as it was, where
    the claim has it succeed; the rating derived from these counts is 4.0. *)
Theorem add_row_aware_now_raises cast_other clk self :
  add_row is_video_id_spec cast_other clk self (VStr "12345678901")
    (VDatetime (now_utc clk)) (VInt 100) VNone (VInt 80) (VInt 20)
  = (self, Raise TypeError)
  /\ derive_rating VNone (VInt 80) (VInt 20) = Ok (VFloat 4).
Proof.
  split; [| reflexivity].
  apply add_row_now_utc_raises. reflexivity.
Qed.

Lemma store_feb_holds_pair : holds_pair store_feb "12345678901" february.
Proof.
  exists 0, [CStr "12345678901"; CTimestamp february; CFloat 100; CFloat 4; CFloat 80;
             CFloat 20], february.
  rewrite store_feb_rows. repeat split. left. reflexivity.
Qed.

(** A second February sample of the same video, given like the first with a
    naive timestamp, is refused with a value error. *)
Example add_row_duplicate_naive_sample :
  add_row is_video_id_spec refuse_cast clock0 store_feb (VStr "12345678901")
    (VDatetime february) (VInt 100) VNone (VInt 80) (VInt 20)
  = (store_feb, Raise ValueError).
Proof.
  apply (add_row_duplicate_naive is_video_id_spec refuse_cast clock0 store_feb
           "12345678901" february (VInt 100) VNone (VInt 80) (VInt 20)).
  - vm_compute. reflexivity.
  - exact store_feb_holds_pair.
  - reflexivity.
  - reflexivity.
  - vm_compute. discriminate.
  - exists 100. split; [reflexivity | lia].
  - left. reflexivity.
  - right. exists 80. split; [reflexivity | lia].
  - right. exists 20. split; [reflexivity | lia].
Qed.

(** C5: the constructor accepts a dataset of one sample, whose timestamp
    carries a time zone as the constructor demands, and the store holds its
    ([video_id], [timestamp]) pair; [add_row] called with that pair, and with
    [views], [rating], [likes] and [dislikes] that pass their checks, raises
    a type error where the claim has a value error: the aware timestamp is
    compared with the naive current time before the pair is looked up.  The
    store is as it was before the call. *)
Theorem add_row_duplicate_aware_type_error cast_other :
  exists s,
    Stats_init is_video_id_spec cast_other clock0 (Some aware_dataset) false = Ok s /\
    holds_pair s "aaaaaaaaaaa" january_utc /\
    add_row is_video_id_spec cast_other clock0 s (VStr "aaaaaaaaaaa")
      (VDatetime january_utc) (VInt 10) (VFloat (9 # 2)) (VInt 9) (VInt 1)
    = (s, Raise TypeError) /\
    add_row is_video_id_spec cast_other clock0 s (VStr "aaaaaaaaaaa")
      (VDatetime january_utc) (VInt 10) (VFloat (9 # 2)) (VInt 9) (VInt 1)
    <> (s, Raise ValueError).
Proof.
  eexists. split; [vm_compute; reflexivity |].
  split.
  - eexists 0, _, january_utc. split; [left; reflexivity |]. repeat split.
  - assert (E : forall s : Stats,
               add_row is_video_id_spec cast_other clock0 s (VStr "aaaaaaaaaaa")
                 (VDatetime january_utc) (VInt 10) (VFloat (9 # 2)) (VInt 9) (VInt 1)
               = (s, Raise TypeError)).
    { intros s. apply add_row_raises_unchanged, checks_aware; [reflexivity |].
      intros x [= <-]. reflexivity. }
    split; [apply E |]. rewrite E. intros [= ].
Qed.

(** C9: a dataset dated 2023 is accepted on 1 June 2022, and [add_row]
    refuses the same timestamp. *)
Lemma future_timestamp_witness :
  later_than_now clock0 next_year_utc = true /\
  is_ok (Stats_init is_video_id_spec refuse_cast clock0 (Some future_dataset) false) = true /\
  check_timestamp clock0 (CTimestamp next_year_utc) = Ok tt /\
  exists e, add_row is_video_id_spec refuse_cast clock0 empty_store (VStr "aaaaaaaaaaa")
              (VDatetime next_year_utc) (VInt 10) VNone (VInt 9) (VInt 1)
            = (empty_store, Raise e).
Proof.
  destruct (future_timestamp_bulk_accepts_add_row_rejects is_video_id_spec refuse_cast
              clock0 (mk_clock next_year_utc next_year_utc) (Some future_dataset) false
              next_year_utc empty_store (VStr "aaaaaaaaaaa") (VInt 10) VNone (VInt 9) (VInt 1))
    as (Hinit & Hcheck & Hadd).
  split; [reflexivity |].
  split; [rewrite Hinit; vm_compute; reflexivity |].
  split; [apply Hcheck; reflexivity | apply Hadd; reflexivity].
Defined.

(** C10: an aware January timestamp is refused with a type error. *)
Lemma add_row_aware_timestamp_witness :
  add_row is_video_id_spec refuse_cast clock0 empty_store (VStr "12345678901")
    (VDatetime january_utc) (VInt 100) VNone (VInt 80) (VInt 20)
  = (empty_store, Raise TypeError).
Proof.
  apply (add_row_aware_timestamp is_video_id_spec refuse_cast clock0 empty_store
           (VStr "12345678901") january_utc (VInt 100) VNone (VInt 80) (VInt 20)).
  - reflexivity.
  - intros s [= <-]. reflexivity.
Defined.

(** C10, as stated, fails: with an aware timestamp and an id of five
    characters the error is the value error of the id check. *)
Lemma add_row_aware_bad_id :
  is_aware january_utc = true /\
  add_row is_video_id_spec refuse_cast clock0 empty_store (VStr "short")
    (VDatetime january_utc) (VInt 100) VNone (VInt 80) (VInt 20)
  = (empty_store, Raise ValueError) /\
  add_row is_video_id_spec refuse_cast clock0 empty_store (VStr "short")
    (VDatetime january_utc) (VInt 100) VNone (VInt 80) (VInt 20)
  <> (empty_store, Raise TypeError).
Proof.
  split; [reflexivity |].
  assert (E : add_row is_video_id_spec refuse_cast clock0 empty_store (VStr "short")
                (VDatetime january_utc) (VInt 100) VNone (VInt 80) (VInt 20)
              = (empty_store, Raise ValueError)) by (vm_compute; reflexivity).
  split; [exact E |]. rewrite E. intros [= ].
Qed.

(** * The statistics store: row labels and row positions *)

(** Both samples of [store_feb_jan] were accepted. *)
Example store_feb_jan_accepted :
  snd (add_row is_video_id_spec refuse_cast clock0 empty_store
         (VStr "12345678901") (VDatetime february) (VInt 100) VNone (VInt 80) (VInt 20))
  = Ok tt /\
  snd (add_row is_video_id_spec refuse_cast clock0 store_feb
         (VStr "12345678901") (VDatetime january) (VInt 50) VNone (VInt 30) (VInt 20))
  = Ok tt.
Proof. split; vm_compute; reflexivity. Qed.

(** After sorting, the January sample, labelled 1, stands before the
    February sample, labelled 0. *)
Example store_feb_jan_rows :
  rows (_data store_feb_jan)
  = [(1, [CStr "12345678901"; CTimestamp january; CFloat 50; CFloat 3; CFloat 30;
          CFloat 20]);
     (0, [CStr "12345678901"; CTimestamp february; CFloat 100; CFloat 4; CFloat 80;
          CFloat 20])].
Proof. vm_compute. reflexivity. Qed.

(** [idxmax] answers with the label of the later sample. *)
Example store_feb_jan_idxmax :
  groupby_idxmax (_data store_feb_jan) "video_id" "timestamp" = Ok [0].
Proof. vm_compute. reflexivity. Qed.

(** C8: on the store holding the February and then the January sample of
    one video, [most_recent] returns the fields of the January row, the
    earlier one, where the row of the maximum timestamp is the February
    one. *)
Theorem most_recent_returns_earlier_sample :
  most_recent store_feb_jan
  = Ok [(CStr "12345678901",
         [("timestamp", CTimestamp january); ("views", CFloat 50); ("rating", CFloat 3);
          ("likes", CFloat 30); ("dislikes", CFloat 20)])]
  /\ most_recent_spec store_feb_jan
     = [(CStr "12345678901",
         [("timestamp", CTimestamp february); ("views", CFloat 100); ("rating", CFloat 4);
          ("likes", CFloat 80); ("dislikes", CFloat 20)])].
Proof. split; vm_compute; reflexivity. Qed.

(** When the samples arrive in the order of their timestamps, labels and
    positions agree and [most_recent] is the row of the maximum. *)
Example most_recent_in_order :
  let s1 := fst (add_row is_video_id_spec refuse_cast clock0 empty_store
                   (VStr "12345678901") (VDatetime january) (VInt 50) VNone (VInt 30) (VInt 20)) in
  let s2 := fst (add_row is_video_id_spec refuse_cast clock0 s1
                   (VStr "12345678901") (VDatetime february) (VInt 100) VNone (VInt 80) (VInt 20)) in
  most_recent s2 = Ok (most_recent_spec s2).
Proof. vm_compute. reflexivity. Qed.

Lemma unique_pairs_two (self : Stats) r1 r2 :
  rows (_data self) = [r1; r2] -> (unique_pairs self <-> pair_eq (snd r1) (snd r2) = false).
Proof.
  intros E. unfold unique_pairs. rewrite E. split.
  - intros H. inversion H as [| ? ? Hhd _]; subst. now inversion Hhd.
  - intros H. repeat constructor. exact H.
Qed.

(** C6: a dataset of two samples whose index labels are both 2 is accepted
    by the constructor, with its pairs distinct; [add_row] of a third sample
    then succeeds and writes the new row over both, so that the store holds
    the new pair twice. *)
Theorem add_row_repeated_labels_duplicates :
  let added := [CStr "ccccccccccc"; CTimestamp january; CInt 5; CFloat 4; CInt 4; CInt 1] in
  exists s s',
    Stats_init is_video_id_spec refuse_cast clock0 (Some relabelled_dataset) false = Ok s /\
    unique_pairs s /\
    add_row is_video_id_spec refuse_cast clock0 s
      (VStr "ccccccccccc") (VDatetime january) (VInt 5) VNone (VInt 4) (VInt 1) = (s', Ok tt) /\
    rows (_data s') = [(2, added); (2, added)] /\
    ~ unique_pairs s'.
Proof.
  intros added.
  exists (mk_stats relabelled_dataset),
    (mk_stats (mk_frame object_columns [(2, added); (2, added)])).
  split; [vm_compute; reflexivity |].
  split; [eapply unique_pairs_two; [reflexivity | vm_compute; reflexivity] |].
  split; [vm_compute; reflexivity |].
  split; [reflexivity |].
  intros H. eapply unique_pairs_two in H; [| reflexivity]. vm_compute in H. discriminate H.
Qed.

(** A store grown from [Stats()] by [add_row] alone: labels are positions of
    insertion, and the two samples stay distinct and in order. *)
Example store_feb_jan_invariant : unique_pairs store_feb_jan /\ sorted_by_pair store_feb_jan.
Proof.
  split.
  - eapply unique_pairs_two; [apply store_feb_jan_rows | vm_compute; reflexivity].
  - unfold sorted_by_pair. rewrite store_feb_jan_rows.
    repeat constructor.
Qed.

(** * Dtype coercion *)

(** ** Lists and frames *)

Section ListFacts.
Context {A : Type}.

Lemma set_nth_length (j : nat) (x : A) l : (j < length l)%nat -> length (set_nth j x l) = length l.
Proof.
  revert j. induction l as [| y l IH]; intros [| j] H; simpl in *; try lia.
  rewrite IH; lia.
Qed.

Lemma nth_set_nth_same (j : nat) (x d : A) l : (j < length l)%nat -> nth j (set_nth j x l) d = x.
Proof.
  revert j. induction l as [| y l IH]; intros [| j] H; simpl in *; try lia; auto.
  apply IH. lia.
Qed.

Lemma nth_set_nth_other (j j' : nat) (x d : A) l :
  j <> j' -> (j < length l)%nat -> nth j' (set_nth j x l) d = nth j' l d.
Proof.
  revert j j'. induction l as [| y l IH]; intros [| j] [| j'] Hne H; simpl in *; try lia; auto.
  apply IH; lia.
Qed.

Lemma set_nth_nth_id (j : nat) (d : A) l : (j < length l)%nat -> set_nth j (nth j l d) l = l.
Proof.
  revert j. induction l as [| y l IH]; intros [| j] H; simpl in *; try lia; auto.
  f_equal. apply IH. lia.
Qed.

End ListFacts.

Lemma map_set_nth {A B} (f : A -> B) j x (l : list A) :
  map f (set_nth j x l) = set_nth j (f x) (map f l).
Proof.
  revert j. induction l as [| y l IH]; intros [| j]; simpl; auto. now rewrite IH.
Qed.

Lemma index_of_Some name names j :
  index_of name names = Some j -> (j < length names)%nat /\ nth j names "" = name.
Proof.
  revert j. induction names as [| n ns IH]; intros j H; simpl in *; [discriminate |].
  destruct (String.eqb n name) eqn:E.
  - injection H as <-. apply String.eqb_eq in E. split; [lia | exact E].
  - destruct (index_of name ns) as [k |]; simpl in H; [| discriminate].
    injection H as <-. destruct (IH k eq_refl) as [Hl Hn]. split; [simpl; lia | exact Hn].
Qed.

Lemma index_of_distinct c c' names j j' :
  index_of c names = Some j -> index_of c' names = Some j' -> c <> c' -> j <> j'.
Proof.
  intros H H' Hne ->. apply index_of_Some in H, H'. destruct H as [_ H], H' as [_ H'].
  congruence.
Qed.

Lemma write_column_cells j vals rs :
  length vals = length rs ->
  Forall (fun r => (j < length (snd r))%nat) rs ->
  map (fun r => cell_at j (snd r)) (write_column j vals rs) = vals.
Proof.
  revert vals. induction rs as [| [lbl r] rs IH]; intros [| v vals] Hlen Hwf; simpl in *;
    try discriminate; auto.
  inversion Hwf; subst. simpl in *.
  unfold cell_at at 1. rewrite nth_set_nth_same by assumption. f_equal. apply IH; auto.
Qed.

Lemma write_column_other j j' vals rs :
  j <> j' -> length vals = length rs ->
  Forall (fun r => (j < length (snd r))%nat) rs ->
  map (fun r => cell_at j' (snd r)) (write_column j vals rs)
  = map (fun r => cell_at j' (snd r)) rs.
Proof.
  intros Hne. revert vals. induction rs as [| [lbl r] rs IH]; intros [| v vals] Hlen Hwf;
    simpl in *; try discriminate; auto.
  inversion Hwf; subst. simpl in *.
  unfold cell_at at 1 3. rewrite nth_set_nth_other by assumption. f_equal. apply IH; auto.
Qed.

Lemma write_column_id j rs :
  Forall (fun r => (j < length (snd r))%nat) rs ->
  write_column j (map (fun r => cell_at j (snd r)) rs) rs = rs.
Proof.
  induction rs as [| [lbl r] rs IH]; intros Hwf; simpl; auto.
  inversion Hwf; subst. simpl in *. unfold cell_at at 1.
  rewrite set_nth_nth_id by assumption. f_equal. apply IH; auto.
Qed.

Lemma write_column_lengths j vals rs n :
  length vals = length rs -> (j < n)%nat ->
  Forall (fun r => length (snd r) = n) rs ->
  Forall (fun r => length (snd r) = n) (write_column j vals rs).
Proof.
  intros Hlen Hj. revert vals Hlen. induction rs as [| [lbl r] rs IH]; intros [| v vals] Hlen Hwf;
    simpl in *; try discriminate; auto.
  inversion Hwf; subst. constructor; simpl in *.
  - apply set_nth_length. lia.
  - apply IH; auto.
Qed.

Lemma write_column_length j vals rs :
  length vals = length rs -> length (write_column j vals rs) = length rs.
Proof.
  revert vals. induction rs as [| [lbl r] rs IH]; intros [| v vals] Hlen; simpl in *;
    try discriminate; auto.
Qed.

Lemma wf_rows_long data j :
  frame_wf data -> (j < length (columns data))%nat ->
  Forall (fun r => (j < length (snd r))%nat) (rows data).
Proof.
  intros Hwf Hj. eapply Forall_impl; [exact Hwf |]. simpl. intros r Hr. lia.
Qed.

Lemma column_names_length data : length (column_names data) = length (columns data).
Proof. unfold column_names. apply length_map. Qed.

(** Writing a column of the right length into an existing column. *)
Lemma setitem_existing data c s j :
  frame_wf data ->
  index_of c (column_names data) = Some j ->
  length (s_values s) = length (rows data) ->
  exists data',
    setitem data c s = Ok data' /\
    frame_wf data' /\
    column_names data' = column_names data /\
    length (rows data') = length (rows data) /\
    getitem data' c = Ok s /\
    (forall c', c' <> c -> getitem data' c' = getitem data c').
Proof.
  intros Hwf Hj Hlen.
  destruct (index_of_Some _ _ _ Hj) as [Hjl Hjn]. rewrite column_names_length in Hjl.
  unfold setitem. rewrite Hlen, Nat.eqb_refl, Hj. cbn [negb].
  eexists. split; [reflexivity |].
  assert (Hnames : column_names
            {| columns := set_nth j (c, s_dtype s) (columns data);
               rows := write_column j (s_values s) (rows data) |} = column_names data).
  { unfold column_names. cbn [columns]. rewrite map_set_nth. cbn [fst].
    rewrite <- Hjn at 1. apply set_nth_nth_id. rewrite length_map. exact Hjl. }
  repeat split.
  - unfold frame_wf. cbn [columns rows]. rewrite set_nth_length by assumption.
    apply write_column_lengths; auto.
  - exact Hnames.
  - cbn [rows]. now apply write_column_length.
  - unfold getitem. rewrite Hnames, Hj. cbn [columns rows].
    rewrite map_set_nth. cbn [snd].
    rewrite nth_set_nth_same by (rewrite length_map; exact Hjl).
    rewrite write_column_cells; auto using wf_rows_long.
    destruct s; reflexivity.
  - intros c' Hne. unfold getitem. rewrite Hnames.
    destruct (index_of c' (column_names data)) as [j' |] eqn:Hj'; [| reflexivity].
    assert (j <> j') by (eapply index_of_distinct; eauto).
    cbn [columns rows]. rewrite map_set_nth. cbn [snd].
    rewrite nth_set_nth_other by (auto; rewrite length_map; exact Hjl).
    rewrite write_column_other; auto using wf_rows_long.
Qed.

(** Writing back the column just read changes nothing. *)
Lemma setitem_getitem_id data c s :
  frame_wf data -> getitem data c = Ok s -> setitem data c s = Ok data.
Proof.
  intros Hwf Hg. unfold getitem in Hg.
  destruct (index_of c (column_names data)) as [j |] eqn:Hj; [| discriminate].
  injection Hg as <-.
  destruct (index_of_Some _ _ _ Hj) as [Hjl Hjn]. rewrite column_names_length in Hjl.
  unfold setitem. cbn [s_values s_dtype]. rewrite length_map, Nat.eqb_refl, Hj. cbn [negb].
  rewrite write_column_id by auto using wf_rows_long.
  f_equal. destruct data as [cols rs]. cbn [columns rows] in *. f_equal.
  unfold column_names in Hjn. cbn [columns] in Hjn.
  replace (c, nth j (map snd cols) np_object) with (nth j cols (""%string, np_object)).
  - apply set_nth_nth_id. exact Hjl.
  - rewrite <- Hjn. clear. revert j. induction cols as [| [n d] cols IH]; intros [| j]; simpl; auto.
Qed.


(** [setitem] refuses a column of another length than the frame. *)
Lemma setitem_Ok_length data c s data' :
  setitem data c s = Ok data' -> length (s_values s) = length (rows data).
Proof.
  unfold setitem. destruct (length (s_values s) =? length (rows data))%nat eqn:E;
    cbn [negb]; [| discriminate].
  intros _. now apply Nat.eqb_eq.
Qed.

(** ** Running the loop twice *)

Section Idempotence.

Variable convert : Series -> result Series.
Variable astype : dtype -> Series -> result Series.

(** [convert_dtypes] raises nothing but the [TypeError] the code catches. *)
Hypothesis convert_raises_TypeError : forall s e, convert s = Raise e -> e = TypeError.
(** Casting to the dtype a column was cast to leaves it as it is. *)
Hypothesis astype_stable : forall d s s', astype d s = Ok s' -> astype d s' = Ok s'.

Lemma check_column_congr data data' c ts :
  getitem data c = getitem data' c ->
  check_column convert data c ts = check_column convert data' c ts.
Proof. intros H. unfold check_column, narrowed. now rewrite H. Qed.

Lemma check_single_congr data data' c ts :
  getitem data c = getitem data' c ->
  check_dtypes convert data [(c, ts)] = check_dtypes convert data' [(c, ts)].
Proof. intros H. cbn [check_dtypes]. now rewrite (check_column_congr data data' c ts H). Qed.

Lemma narrowed_ok data c s :
  getitem data c = Ok s -> exists col, narrowed convert data c = Ok col.
Proof using convert_raises_TypeError.
  intros H. unfold narrowed. rewrite H. cbn [bind].
  destruct (convert s) as [col | e] eqn:E; [eauto |].
  rewrite (convert_raises_TypeError _ _ E). eauto.
Qed.

Lemma check_supported data c s t d :
  getitem data c = Ok s -> target_dtype (Single t) = Ok d ->
  exists b, check_dtypes convert data [(c, Single t)] = Ok b.
Proof using convert_raises_TypeError.
  intros Hg Ht. cbn [check_dtypes]. unfold check_column.
  destruct (narrowed_ok _ _ _ Hg) as [col ->]. cbn [bind]. unfold check_one.
  destruct t; cbn in Ht; try discriminate;
    cbn; destruct (is_object_dtype (s_dtype col)); cbn; eauto;
    match goal with |- exists b, (if ?x then _ else _) = _ => destruct x; eauto end.
Qed.

Lemma target_dtype_single ts d : target_dtype ts = Ok d -> exists t, ts = Single t.
Proof. destruct ts as [t | [] l]; cbn; intros H; try discriminate. eauto. Qed.

(** What one run of the loop leaves in [result]. *)
Lemma coerce_loop_run kwargs : forall data res r,
  frame_wf res ->
  NoDup (map fst kwargs) ->
  coerce_loop convert astype data res kwargs = Ok r ->
  frame_wf r /\
  (forall c, ~ In c (map fst kwargs) -> getitem r c = getitem res c) /\
  (forall c ts, In (c, ts) kwargs ->
     (check_dtypes convert data [(c, ts)] = Ok true /\ getitem r c = getitem res c) \/
     (exists s d, getitem r c = Ok s /\ target_dtype ts = Ok d /\ astype d s = Ok s)).
Proof using astype_stable.
  induction kwargs as [| [c ts] rest IH]; intros data res r Hwf Hnd Hrun.
  - cbn in Hrun. injection Hrun as <-. repeat split; auto. intros c ts [].
  - cbn [map fst] in Hnd. apply NoDup_cons in Hnd as [Hfresh Hnd].
    cbn [coerce_loop] in Hrun.
    destruct (check_dtypes convert data [(c, ts)]) as [[|] | e] eqn:Hchk; cbn [bind] in Hrun;
      try discriminate.
    + destruct (IH data res r Hwf Hnd Hrun) as (Hwfr & Hout & Hin).
      split; [exact Hwfr |]. split.
      * intros c' Hc'. apply Hout. intros Hi. apply Hc'. cbn. now right.
      * intros c' ts' [Heq | Hi]; [| now apply Hin].
        injection Heq as <- <-. left. split; [exact Hchk |].
        apply Hout. now rewrite <- list_elem_of_In.
    + destruct (getitem res c) as [s | e] eqn:Hg; cbn [bind] in Hrun; [| discriminate].
      destruct (target_dtype ts) as [d | e] eqn:Ht; cbn [bind] in Hrun; [| discriminate].
      destruct (astype d s) as [s' | e] eqn:Ha; cbn [bind] in Hrun; [| discriminate].
      destruct (setitem res c s') as [res' | e] eqn:Hs; cbn [bind] in Hrun; [| discriminate].
      assert (Hj : exists j, index_of c (column_names res) = Some j).
      { unfold getitem in Hg. destruct (index_of c (column_names res)); [eauto | discriminate]. }
      destruct Hj as [j Hj].
      assert (Hlen : length (s_values s') = length (rows res)).
      { exact (setitem_Ok_length _ _ _ _ Hs). }
      destruct (setitem_existing res c s' j Hwf Hj Hlen)
        as (res2 & Hs2 & Hwf2 & _ & _ & Hsame & Hother).
      rewrite Hs in Hs2. injection Hs2 as <-.
      destruct (IH data res' r Hwf2 Hnd Hrun) as (Hwfr & Hout & Hin).
      split; [exact Hwfr |]. split.
      * intros c' Hc'. rewrite Hout by (intros Hi; apply Hc'; cbn; now right).
        apply Hother. intros ->. apply Hc'. cbn. now left.
      * intros c' ts' [Heq | Hi].
        -- injection Heq as <- <-. right. exists s', d. split; [| split; eauto].
           rewrite Hout by (now rewrite <- list_elem_of_In). exact Hsame.
        -- destruct (Hin c' ts' Hi) as [[Hc1 Hc2] | Hc]; [| now right].
           left. split; [exact Hc1 |]. rewrite Hc2. apply Hother.
           intros ->. apply Hfresh. rewrite list_elem_of_In. apply in_map_iff.
           exists (c, ts'). split; [reflexivity | exact Hi].
Qed.

(** A second run over a frame whose named columns are settled changes
    nothing. *)
Lemma coerce_loop_settled r kwargs :
  frame_wf r ->
  (forall c ts, In (c, ts) kwargs ->
     check_dtypes convert r [(c, ts)] = Ok true \/
     (check_dtypes convert r [(c, ts)] = Ok false /\
      exists s d, getitem r c = Ok s /\ target_dtype ts = Ok d /\ astype d s = Ok s)) ->
  coerce_loop convert astype r r kwargs = Ok r.
Proof.
  intros Hwf. induction kwargs as [| [c ts] rest IH]; intros H; [reflexivity |].
  cbn [coerce_loop].
  destruct (H c ts (or_introl eq_refl)) as [-> | (-> & s & d & Hg & Ht & Ha)]; cbn [bind].
  - apply IH. intros c' ts' Hi. apply H. now right.
  - rewrite Hg. cbn [bind]. rewrite Ht. cbn [bind]. rewrite Ha. cbn [bind].
    rewrite (setitem_getitem_id r c s Hwf Hg). cbn [bind].
    apply IH. intros c' ts' Hi. apply H. now right.
Qed.

(** C7: [coerce_dtypes] is idempotent.  For every rectangular frame and
    every keyword arguments (a mapping, so no column is named twice), over an
    engine whose [convert_dtypes] raises nothing but the [TypeError] the code
    catches and whose [astype] leaves a column it produced as it is: when
    [coerce_dtypes] returns a frame, [coerce_dtypes] of that frame with the
    same arguments returns the same frame. *)
Theorem coerce_dtypes_idempotent data kwargs r :
  frame_wf data ->
  NoDup (map fst kwargs) ->
  coerce_dtypes convert astype data kwargs = Ok r ->
  coerce_dtypes convert astype r kwargs = Ok r.
Proof using convert_raises_TypeError astype_stable.
  intros Hwf Hnd Hrun. unfold coerce_dtypes in *.
  destruct kwargs as [| kw rest]; [discriminate |].
  set (kwargs := kw :: rest) in *.
  destruct (coerce_loop_run kwargs data data r Hwf Hnd Hrun) as (Hwfr & _ & Hin).
  apply coerce_loop_settled; [exact Hwfr |].
  intros c ts Hi. destruct (Hin c ts Hi) as [[Hc Hg] | (s & d & Hg & Ht & Ha)].
  - left. rewrite (check_single_congr r data c ts Hg). exact Hc.
  - destruct (target_dtype_single _ _ Ht) as [t ->].
    destruct (check_supported r c s t d Hg Ht) as [[|] Hb]; [now left | right].
    split; [exact Hb |]. eauto.
Qed.

End Idempotence.

(** ** The engine of the model meets the two assumptions *)

Lemma cast_cell_stable d c c' :
  cast_cell refuse_cast d c = Ok c' -> cast_cell refuse_cast d c' = Ok c'.
Proof.
  destruct d, c; cbn [cast_cell refuse_cast]; intros H; try discriminate;
    try (injection H as <-; reflexivity);
    repeat match type of H with
           | (if ?b then _ else _) = _ => destruct b eqn:?; try discriminate
           end;
    try (injection H as <-; cbn [cast_cell]);
    repeat match goal with E : ?b = _ |- context [if ?b then _ else _] => rewrite E end;
    try reflexivity;
    try (unfold is_int64_cell in *;
         match goal with
         | E : _ && _ = true |- _ => apply andb_prop in E as [_ E]; rewrite E; reflexivity
         end);
    now destruct b.
Qed.

Lemma cast_cells_stable d cs cs' :
  cast_cells refuse_cast d cs = Ok cs' -> cast_cells refuse_cast d cs' = Ok cs'.
Proof.
  revert cs'. induction cs as [| c cs IH]; intros cs' H; cbn in H.
  - injection H as <-. reflexivity.
  - destruct (cast_cell refuse_cast d c) as [c1 |] eqn:E1; cbn in H; [| discriminate].
    destruct (cast_cells refuse_cast d cs) as [cs1 |] eqn:E2; cbn in H; [| discriminate].
    injection H as <-. cbn. rewrite (cast_cell_stable _ _ _ E1). cbn.
    rewrite (IH _ eq_refl). reflexivity.
Qed.

Lemma pd_astype_stable d s s' :
  pd_astype refuse_cast d s = Ok s' -> pd_astype refuse_cast d s' = Ok s'.
Proof.
  unfold pd_astype. intros H.
  destruct (cast_cells refuse_cast d (s_values s)) as [vals |] eqn:E; cbn in H; [| discriminate].
  injection H as <-. cbn. rewrite (cast_cells_stable _ _ _ E). reflexivity.
Qed.

Lemma pd_convert_never_raises s e : pd_convert_dtypes s = Raise e -> e = TypeError.
Proof. discriminate. Qed.

(** The object column of a flag and a count becomes a nullable integer
    column, the integer column a nullable float column, the string column
    stays.  In the second run every column passes its check. *)
Example coerce_mixed_frame :
  coerce_dtypes pd_convert_dtypes (pd_astype refuse_cast) mixed_frame mixed_kwargs
  = Ok (mk_frame [("views", pd_Int64); ("rating", pd_Float64); ("title", pd_string)]
          [ (0, [CInt 1; CFloat 4; CStr "a"]);
            (1, [CInt 7; CFloat 5; NA]);
            (2, [NA; CFloat 1; CStr "c"]) ]).
Proof. vm_compute. reflexivity. Qed.

(** C7 on [mixed_frame]: the frame of the first run comes back from the
    second. *)
Lemma coerce_dtypes_idempotent_witness :
  exists r,
    coerce_dtypes pd_convert_dtypes (pd_astype refuse_cast) mixed_frame mixed_kwargs = Ok r /\
    coerce_dtypes pd_convert_dtypes (pd_astype refuse_cast) r mixed_kwargs = Ok r.
Proof.
  eexists. split; [apply coerce_mixed_frame |].
  apply (coerce_dtypes_idempotent pd_convert_dtypes (pd_astype refuse_cast)
           pd_convert_never_raises pd_astype_stable mixed_frame mixed_kwargs).
  - repeat constructor.
  - apply (bool_decide_unpack _). vm_compute. reflexivity.
  - apply coerce_mixed_frame.
Defined.

(** * Records: the JSON round trip *)

(** ** ISO 8601 text *)

Lemma digit_val_digit x : 0 <= x < 10 -> digit_val (digit x) = Some x.
Proof.
  intros H. assert (x = 0 \/ x = 1 \/ x = 2 \/ x = 3 \/ x = 4 \/ x = 5 \/ x = 6 \/ x = 7
                    \/ x = 8 \/ x = 9) as Hc by lia.
  repeat (destruct Hc as [-> | Hc]; [reflexivity |]). subst. reflexivity.
Qed.

Lemma pad_length n v : length (pad n v) = n.
Proof.
  revert v. induction n as [| n IH]; intros v; simpl; [reflexivity |].
  rewrite length_app, IH. simpl. lia.
Qed.

Lemma take_num_pad_more n : forall m a acc rest,
  0 <= a < 10 ^ Z.of_nat n ->
  take_num (n + m) acc (pad n a ++ rest) = take_num m (acc * 10 ^ Z.of_nat n + a) rest.
Proof.
  induction n as [| n IH]; intros m a acc rest Ha.
  - simpl in *. f_equal. lia.
  - rewrite Nat2Z.inj_succ, Z.pow_succ_r in Ha by lia.
    cbn [pad]. rewrite <- app_assoc. cbn [app].
    replace (S n + m)%nat with (n + S m)%nat by lia.
    rewrite IH.
    2:{ split; [apply Z.div_pos; lia | apply Z.div_lt_upper_bound; lia]. }
    cbn [take_num]. rewrite digit_val_digit by (apply Z.mod_pos_bound; lia).
    f_equal. rewrite Nat2Z.inj_succ, Z.pow_succ_r by lia.
    pose proof (Z.div_mod a 10 ltac:(lia)). lia.
Qed.

Lemma take_num_pad n a rest :
  0 <= a < 10 ^ Z.of_nat n -> take_num n 0 (pad n a ++ rest) = Some (a, rest).
Proof.
  intros Ha. replace n with (n + 0)%nat at 1 by lia.
  rewrite take_num_pad_more by assumption. reflexivity.
Qed.

Lemma take_num_not_digit n acc c rest :
  digit_val c = None -> take_num (S n) acc (c :: rest) = None.
Proof. intros H. cbn. now rewrite H. Qed.

(** The time of day, followed by whatever does not start with a dot. *)
Lemma parse_format_time h m s us rest :
  0 <= h < 24 -> 0 <= m < 60 -> 0 <= s < 60 -> 0 <= us < 1000000 ->
  match rest with "."%char :: _ => False | _ => True end ->
  parse_hh_mm_ss_ff (format_time h m s us ++ rest) = Some (h, m, s, us, rest).
Proof.
  intros Hh Hm Hs Hus Hrest. unfold parse_hh_mm_ss_ff, format_time.
  repeat (rewrite <- app_assoc; cbn [app]).
  rewrite take_num_pad by lia.
  rewrite take_num_pad by lia.
  rewrite take_num_pad by lia.
  destruct (us =? 0) eqn:E.
  - apply Z.eqb_eq in E. subst us. cbn [app].
    destruct rest as [| c rest]; [reflexivity |].
    destruct c as [[] [] [] [] [] [] [] []]; try reflexivity. contradiction.
  - cbn [app]. rewrite take_num_pad by lia. reflexivity.
Qed.

Lemma parse_format_offset off :
  -86400000000 < off < 86400000000 ->
  exists sign body,
    format_offset off = sign :: body /\ is_sign sign = true /\
    parse_offset sign body = Some off.
Proof.
  intros Hoff. unfold format_offset.
  set (a := Z.abs off).
  assert (Ha : 0 <= a < 86400000000) by (unfold a; lia).
  set (hh := a / 3600000000). set (r1 := a mod 3600000000).
  set (mm := r1 / 60000000). set (r2 := r1 mod 60000000).
  set (ss := r2 / 1000000). set (us := r2 mod 1000000).
  assert (Hr1 : 0 <= r1 < 3600000000) by (unfold r1; apply Z.mod_pos_bound; lia).
  assert (Hr2 : 0 <= r2 < 60000000) by (unfold r2; apply Z.mod_pos_bound; lia).
  assert (Hhh : 0 <= hh < 24).
  { unfold hh. split; [apply Z.div_pos; lia | apply Z.div_lt_upper_bound; lia]. }
  assert (Hmm : 0 <= mm < 60).
  { unfold mm. split; [apply Z.div_pos; lia | apply Z.div_lt_upper_bound; lia]. }
  assert (Hss : 0 <= ss < 60).
  { unfold ss. split; [apply Z.div_pos; lia | apply Z.div_lt_upper_bound; lia]. }
  assert (Hus : 0 <= us < 1000000) by (unfold us; apply Z.mod_pos_bound; lia).
  assert (Hsum : ((hh * 60 + mm) * 60 + ss) * 1000000 + us = a).
  { unfold hh, mm, ss, us.
    pose proof (Z.div_mod a 3600000000 ltac:(lia)).
    pose proof (Z.div_mod r1 60000000 ltac:(lia)).
    pose proof (Z.div_mod r2 1000000 ltac:(lia)).
    fold r1 in H. fold r2 in H0. lia. }
  eexists _, _. split; [reflexivity |].
  split; [destruct (off <? 0); reflexivity |].
  assert (Hsign : (if Ascii.eqb (if off <? 0 then "-"%char else "+"%char) "-"
                   then - a else a) = off).
  { destruct (off <? 0) eqn:E; cbn; unfold a; [apply Z.ltb_lt in E | apply Z.ltb_ge in E]; lia. }
  clearbody hh mm ss us r1 r2 a.
  unfold parse_offset, parse_hh_mm_ss_ff.
  rewrite !length_app, !pad_length.
  destruct ((ss =? 0) && (us =? 0)) eqn:E0.
  - cbn [length app Nat.add Nat.eqb orb negb].
    rewrite take_num_pad by lia. cbn [app].
    rewrite take_num_pad by lia.
    apply andb_true_iff in E0 as [E1 E2]. apply Z.eqb_eq in E1, E2.
    f_equal. rewrite <- Hsign at 2. rewrite <- Hsum, E1, E2.
    destruct (Ascii.eqb _ _); lia.
  - destruct (us =? 0) eqn:E2.
    + cbn [length app Nat.add Nat.eqb orb negb].
      rewrite !length_app, !pad_length. cbn [length app Nat.add Nat.eqb orb negb].
      rewrite take_num_pad by lia. cbn [app].
      rewrite take_num_pad by lia. cbn [app].
      rewrite take_num_pad by lia.
      apply Z.eqb_eq in E2.
      f_equal. rewrite <- Hsign at 2. rewrite <- Hsum, E2.
      destruct (Ascii.eqb _ _); lia.
    + cbn [length app Nat.add Nat.eqb orb negb].
      repeat (rewrite ?length_app, ?pad_length; cbn [length app Nat.add Nat.eqb orb negb]).
      rewrite take_num_pad by lia. cbn [app].
      rewrite take_num_pad by lia. cbn [app].
      rewrite <- ?app_assoc. cbn [app].
      rewrite take_num_pad by lia.
      rewrite <- (app_nil_r (pad 6 us)), take_num_pad by lia.
      f_equal. rewrite <- Hsign at 2. rewrite <- Hsum.
      destruct (Ascii.eqb _ _); lia.
Qed.

Lemma valid_datetime_fields d :
  valid_datetime d = true ->
  1 <= year d <= 9999 /\ 1 <= month d <= 12 /\ 1 <= day d <= 31 /\
  0 <= hour d < 24 /\ 0 <= minute d < 60 /\ 0 <= second d < 60 /\
  0 <= microsecond d < 1000000 /\
  match utcoffset d with
  | Some off => -86400000000 < off < 86400000000
  | None => True
  end.
Proof.
  unfold valid_datetime. intros H.
  repeat (apply andb_true_iff in H as [H ?]).
  assert (days_in_month (year d) (month d) <= 31).
  { unfold days_in_month. repeat match goal with |- context [if ?b then _ else _] => destruct b end; lia. }
  destruct (utcoffset d) as [off |].
  - match goal with Ht : _ && _ = true |- _ => apply andb_true_iff in Ht as [? ?] end.
    repeat split; lia.
  - repeat split; lia.
Qed.

(** The offset of a datetime is that of what is written of it. *)
Lemma utcoffset_as_written d : utcoffset (as_written d) = utcoffset d.
Proof.
  unfold as_written, with_tz, utcoffset. cbn [tzinfo]. now destruct (tzinfo d).
Qed.

Lemma valid_as_written d : valid_datetime (as_written d) = valid_datetime d.
Proof. unfold valid_datetime. rewrite utcoffset_as_written. reflexivity. Qed.

(** [datetime.fromisoformat] reads back what [isoformat] wrote: the fields
    of the datetime, with its offset as a fixed one. *)
Lemma fromisoformat_isoformat d :
  valid_datetime d = true -> fromisoformat (isoformat d) = Ok (as_written d).
Proof.
  intros Hv. pose proof (valid_datetime_fields d Hv) as (Hy & Hm & Hd & Hh & Hmi & Hs & Hus & Htz).
  unfold fromisoformat, isoformat. rewrite list_ascii_of_string_of_list_ascii.
  assert (Hp : parse_chars (isoformat_chars d) = Some (as_written d)).
  { unfold parse_chars, isoformat_chars.
    rewrite take_num_pad by lia. cbn [app expect Ascii.eqb Bool.eqb].
    rewrite take_num_pad by lia. cbn [app expect Ascii.eqb Bool.eqb].
    rewrite take_num_pad by lia. cbn [app].
    unfold parse_time, as_written, with_tz.
    destruct (utcoffset d) as [off |].
    - destruct (parse_format_offset off Htz) as (sign & body & -> & Hsg & Hpo).
      rewrite parse_format_time; try lia.
      + rewrite Hsg, Hpo. reflexivity.
      + unfold is_sign in Hsg. destruct sign as [[] [] [] [] [] [] [] []]; try exact I; discriminate.
    - rewrite parse_format_time by (try lia; exact I). reflexivity. }
  rewrite Hp, valid_as_written, Hv. reflexivity.
Qed.

(** ** [to_json] then [from_json] *)

(** Inversion of the setters of a blank record. *)
Ltac invert_raise_if H :=
  match type of H with
  | context [raise_if ?c ?e] =>
      let E := fresh "E" in destruct c eqn:E; cbn [raise_if bind] in H; [discriminate |]
  end.

Lemma ChannelInfo_init_inv clk hp a1 a2 a3 a4 a5 a6 a7 imm c hp1 :
  ChannelInfo_init clk hp a1 a2 a3 a4 a5 a6 a7 imm = Ok (c, hp1) ->
  exists b s1 s2 t h1 h2 h3 h4,
    imm = VBool b /\ a1 = VStr s1 /\ a2 = VStr s2 /\ a3 = VDatetime t /\
    a4 = VStr h1 /\ a5 = VStr h2 /\ a6 = VStr h3 /\ a7 = VStr h4 /\
    (String.length s1 =? 24)%nat = true /\ String.prefix "UC" s1 = true /\
    str_truthy s2 = true /\ is_aware t = true /\ dt_gt t (now_utc clk) = Ok false /\
    c = mk_channel b (Some s1) (Some s2) (Some (length hp)) (Some t) /\
    hp1 = (hp ++ [mk_html b (Some h1) (Some h2) (Some h3) (Some h4)])%list.
Proof.
  unfold ChannelInfo_init. intros H.
  destruct imm; cbn [PropertyDict_init bind] in H; try discriminate.
  unfold ChannelInfo_set_channel_id in H. cbn [c_immutable _channel_id hasattr andb raise_if bind] in H.
  rewrite andb_false_r in H. cbn [raise_if bind] in H.
  destruct a1; try discriminate. invert_raise_if H.
  apply orb_false_iff in E as [E1 E2]. apply negb_false_iff in E1, E2.
  unfold ChannelInfo_set_channel_name in H. cbn [c_immutable _channel_name hasattr] in H.
  rewrite andb_false_r in H. cbn [raise_if bind] in H.
  destruct a2; try discriminate. invert_raise_if H. apply negb_false_iff in E.
  unfold ChannelInfo_set_last_updated in H. cbn [c_immutable _last_updated hasattr] in H.
  rewrite andb_false_r in H. cbn [raise_if bind] in H.
  destruct a3; try discriminate. invert_raise_if H. apply negb_false_iff in E0.
  destruct (dt_gt d (now_utc clk)) as [[|] |] eqn:Egt; cbn [raise_if bind] in H; try discriminate.
  unfold HtmlDict_init in H. cbn [PropertyDict_init bind] in H.
  unfold HtmlDict_set_about in H. cbn [h_immutable _about hasattr] in H.
  rewrite andb_false_r in H. cbn [raise_if bind] in H.
  destruct a4; try discriminate. cbn [bind] in H.
  unfold HtmlDict_set_community in H. cbn [h_immutable _community hasattr] in H.
  rewrite andb_false_r in H. cbn [raise_if bind] in H.
  destruct a5; try discriminate. cbn [bind] in H.
  unfold HtmlDict_set_featured_channels in H. cbn [h_immutable _featured_channels hasattr] in H.
  rewrite andb_false_r in H. cbn [raise_if bind] in H.
  destruct a6; try discriminate. cbn [bind] in H.
  unfold HtmlDict_set_videos in H. cbn [h_immutable _videos hasattr] in H.
  rewrite andb_false_r in H. cbn [raise_if bind] in H.
  destruct a7; try discriminate. cbn [bind] in H.
  unfold ChannelInfo_set_html in H. cbn [c_immutable _html hasattr] in H.
  rewrite andb_false_r in H. cbn [raise_if bind] in H.
  unfold on_object in H. cbn in H. rewrite list_lookup_middle in H by reflexivity. cbn [bind] in H.
  injection H as <- <-.
  eexists _, _, _, _, _, _, _, _. repeat split; eauto.
  cbn. apply list_insert_id, list_lookup_middle. reflexivity.
Qed.

Lemma dt_gt_later_clock t clk1 clk2 :
  is_aware t = true ->
  dt_gt t (now_utc clk1) = Ok false ->
  instant (now_utc clk1) <= instant (now_utc clk2) ->
  dt_gt t (now_utc clk2) = Ok false.
Proof.
  intros Ha H Hle. rewrite dt_gt_utc in * by assumption.
  injection H as H. f_equal. apply Z.ltb_ge in H. apply Z.ltb_ge. lia.
Qed.

(** What is written of a datetime is the same instant. *)
Lemma instant_as_written t : instant (as_written t) = instant t.
Proof. unfold instant. rewrite utcoffset_as_written. reflexivity. Qed.

Lemma is_aware_as_written t : is_aware (as_written t) = is_aware t.
Proof.
  unfold is_aware, as_written, with_tz, utcoffset. cbn [tzinfo]. now destruct (tzinfo t).
Qed.

Lemma fold_matters_as_written t : fold_matters (as_written t) = false.
Proof.
  unfold fold_matters, as_written, with_tz. cbn [tzinfo].
  destruct (utcoffset t); cbn [option_map tz_utcoffset]; [| reflexivity].
  now rewrite Z.eqb_refl.
Qed.

(** A datetime equals what is read back of its text as long as its offset
    does not hang on [fold]; a datetime in a repeated hour of its zone does
    not. *)
Lemma dt_eq_as_written t :
  is_aware t = true -> dt_eq t (as_written t) = negb (fold_matters t).
Proof.
  intros Ha. unfold dt_eq.
  destruct (same_tzinfo t (as_written t)) eqn:Es.
  - unfold same_tzinfo, as_written, with_tz, utcoffset, fold_matters, is_aware in *.
    cbn [tzinfo] in *.
    destruct (tzinfo t) as [[x | k f] |]; cbn [option_map same_tz tz_utcoffset] in *;
      try discriminate.
    rewrite !Z.eqb_refl. reflexivity.
  - rewrite is_aware_as_written, Ha, instant_as_written, fold_matters_as_written.
    rewrite (Z.eqb_refl (instant t)). cbn [andb negb]. apply andb_true_r.
Qed.

Lemma field_eq_str hp a : field_eq hp (VStr a) (VStr a) = Ok true.
Proof. cbn. now rewrite String.eqb_refl. Qed.

Lemma field_eq_datetime hp t : field_eq hp (VDatetime t) (VDatetime t) = Ok true.
Proof. cbn. now rewrite dt_eq_refl. Qed.

Lemma field_eq_as_written hp t :
  is_aware t = true -> fold_matters t = false ->
  field_eq hp (VDatetime t) (VDatetime (as_written t)) = Ok true.
Proof. intros Ha Hf. cbn. now rewrite dt_eq_as_written, Hf. Qed.

Lemma field_eq_html (hp : heap) r r' b b' h1 h2 h3 h4 :
  hp !! r = Some (mk_html b (Some h1) (Some h2) (Some h3) (Some h4)) ->
  hp !! r' = Some (mk_html b' (Some h1) (Some h2) (Some h3) (Some h4)) ->
  field_eq hp (VHtmlDict r) (VHtmlDict r') = Ok true.
Proof.
  intros H H'. unfold field_eq, as_mapping, HtmlDict_items. rewrite H, H'.
  cbn. now rewrite !String.eqb_refl.
Qed.





(** * Records: the order of the two dates of a [VideoInfo] *)

(** One step through a successful run of checks. *)
Ltac run_step H :=
  match type of H with
  | bind (raise_if ?c _) _ = Ok _ =>
      let E := fresh "E" in destruct c eqn:E; cbn [raise_if bind] in H; [discriminate |]
  | bind (match ?o with Some _ => _ | None => _ end) _ = Ok _ =>
      let E := fresh "E" in destruct o eqn:E; cbn [bind] in H
  | bind ?m _ = Ok _ =>
      let E := fresh "E" in destruct m eqn:E; cbn [bind] in H; [| discriminate]
  | match ?v with _ => _ end = Ok _ => destruct v; try discriminate
  | Ok _ = Ok _ => injection H as <-
  end.

Section VideoFacts.
Variable validators_url : string -> bool.

(** A comparison that a setter let pass. *)
Lemma passed_check (m : result bool) a :
  (let! x := m in raise_if x ValueError) = Ok a -> m = Ok false.
Proof. destruct m as [[] |]; cbn [bind raise_if]; intros H; try discriminate H; reflexivity. Qed.

Lemma set_publish_date_dates self val self' :
  dates_ordered self ->
  VideoInfo_set_publish_date self val = Ok self' ->
  dates_ordered self' /\ exists t, _publish_date self' = Some t /\
                                   v_last_updated self' = v_last_updated self.
Proof.
  unfold VideoInfo_set_publish_date, dates_ordered. intros Hd H.
  repeat run_step H; cbn; apply negb_false_iff in E0.
  - assert (Hl : is_aware d0 = true) by (destruct (_publish_date self); tauto).
    apply passed_check, no_later_gt in E2. split; [| eauto]. repeat split; auto.
  - split; [exact E0 | eauto].
Qed.

Lemma set_last_updated_dates clk self val self' :
  dates_ordered self ->
  VideoInfo_set_last_updated clk self val = Ok self' ->
  dates_ordered self' /\ exists t, v_last_updated self' = Some t /\
                                   _publish_date self' = _publish_date self.
Proof.
  unfold VideoInfo_set_last_updated, dates_ordered. intros Hd H.
  repeat run_step H; cbn; apply negb_false_iff in E0.
  - assert (Hp : is_aware d0 = true) by (destruct (v_last_updated self); tauto).
    apply passed_check, no_later_lt in E4. split; [| eauto]. repeat split; auto.
  - split; [exact E0 | eauto].
Qed.

(** The setters of the other fields leave both dates alone. *)
Ltac other_setter :=
  let H := fresh "H" in
  intros H; repeat run_step H; split; reflexivity.

Lemma set_channel_id_dates self val self' :
  VideoInfo_set_channel_id self val = Ok self' ->
  _publish_date self' = _publish_date self /\ v_last_updated self' = v_last_updated self.
Proof. unfold VideoInfo_set_channel_id. other_setter. Qed.

Lemma set_channel_name_dates self val self' :
  VideoInfo_set_channel_name self val = Ok self' ->
  _publish_date self' = _publish_date self /\ v_last_updated self' = v_last_updated self.
Proof. unfold VideoInfo_set_channel_name. other_setter. Qed.

Lemma set_description_dates self val self' :
  VideoInfo_set_description self val = Ok self' ->
  _publish_date self' = _publish_date self /\ v_last_updated self' = v_last_updated self.
Proof. unfold VideoInfo_set_description. other_setter. Qed.

Lemma set_duration_dates self val self' :
  VideoInfo_set_duration self val = Ok self' ->
  _publish_date self' = _publish_date self /\ v_last_updated self' = v_last_updated self.
Proof. unfold VideoInfo_set_duration. other_setter. Qed.

Lemma set_keywords_dates self val self' :
  VideoInfo_set_keywords self val = Ok self' ->
  _publish_date self' = _publish_date self /\ v_last_updated self' = v_last_updated self.
Proof. unfold VideoInfo_set_keywords. other_setter. Qed.

Lemma set_thumbnail_url_dates self val self' :
  VideoInfo_set_thumbnail_url validators_url self val = Ok self' ->
  _publish_date self' = _publish_date self /\ v_last_updated self' = v_last_updated self.
Proof. unfold VideoInfo_set_thumbnail_url. other_setter. Qed.

Lemma set_video_id_dates self val self' :
  VideoInfo_set_video_id self val = Ok self' ->
  _publish_date self' = _publish_date self /\ v_last_updated self' = v_last_updated self.
Proof. unfold VideoInfo_set_video_id. other_setter. Qed.

Lemma set_video_title_dates self val self' :
  VideoInfo_set_video_title self val = Ok self' ->
  _publish_date self' = _publish_date self /\ v_last_updated self' = v_last_updated self.
Proof. unfold VideoInfo_set_video_title. other_setter. Qed.

Lemma dates_ordered_same self self' :
  _publish_date self' = _publish_date self /\ v_last_updated self' = v_last_updated self ->
  dates_ordered self -> dates_ordered self'.
Proof. unfold dates_ordered. intros [-> ->]. auto. Qed.

Lemma setattr_dates clk self key val self' :
  dates_ordered self ->
  VideoInfo_setattr validators_url clk self key val = Ok self' ->
  dates_ordered self' /\
  (hasattr (_publish_date self) = true -> hasattr (_publish_date self') = true) /\
  (hasattr (v_last_updated self) = true -> hasattr (v_last_updated self') = true).
Proof.
  intros Hd. unfold VideoInfo_setattr.
  repeat match goal with
         | |- (if ?c then _ else _) = _ -> _ => destruct c
         end; intros H; try discriminate.
  all: try (match goal with
            | H : _ = Ok _ |- _ =>
                first [ apply set_channel_id_dates in H | apply set_channel_name_dates in H
                      | apply set_description_dates in H | apply set_duration_dates in H
                      | apply set_keywords_dates in H | apply set_thumbnail_url_dates in H
                      | apply set_video_id_dates in H | apply set_video_title_dates in H ];
                split; [eapply dates_ordered_same; eauto | destruct H as [-> ->]; auto]
            end).
  - destruct (set_last_updated_dates _ _ _ _ Hd H) as (Ho & t & -> & ->). auto.
  - destruct (set_publish_date_dates _ _ _ Hd H) as (Ho & t & -> & ->). auto.
Qed.

Lemma init_dates clk a1 a2 a3 a4 a5 a6 a7 a8 a9 a10 imm v :
  VideoInfo_init validators_url clk a1 a2 a3 a4 a5 a6 a7 a8 a9 a10 imm = Ok v ->
  dates_ordered v /\ hasattr (_publish_date v) = true /\ hasattr (v_last_updated v) = true.
Proof.
  unfold VideoInfo_init. intros H.
  destruct (PropertyDict_init imm) as [b |]; cbn [bind] in H; [| discriminate].
  set (blank := mk_video b None None None None None None None None None None) in H.
  assert (H0 : dates_ordered blank) by exact I.
  repeat match type of H with
         | bind ?m _ = Ok _ =>
             let E := fresh "E" in destruct m eqn:E; cbn [bind] in H; [| discriminate]
         end.
  apply set_channel_id_dates in E. apply set_channel_name_dates in E0.
  apply set_video_id_dates in E1. apply set_video_title_dates in E2.
  pose proof (dates_ordered_same _ _ E H0) as H1.
  pose proof (dates_ordered_same _ _ E0 H1) as H2.
  pose proof (dates_ordered_same _ _ E1 H2) as H3.
  pose proof (dates_ordered_same _ _ E2 H3) as H4.
  destruct (set_publish_date_dates _ _ _ H4 E3) as (H5 & p & Hp & _).
  destruct (set_last_updated_dates _ _ _ _ H5 E4) as (H6 & l & Hl & Hp').
  apply set_duration_dates in E5. apply set_description_dates in E6.
  apply set_keywords_dates in E7. apply set_thumbnail_url_dates in H.
  pose proof (dates_ordered_same _ _ E5 H6) as H7.
  pose proof (dates_ordered_same _ _ E6 H7) as H8.
  pose proof (dates_ordered_same _ _ E7 H8) as H9.
  pose proof (dates_ordered_same _ _ H H9) as H10.
  split; [exact H10 |].
  destruct H as [-> ->], E7 as [-> ->], E6 as [-> ->], E5 as [-> ->].
  rewrite Hl, Hp', Hp. split; reflexivity.
Qed.

Lemma reachable_dates v :
  VideoInfo_reachable validators_url v ->
  dates_ordered v /\ hasattr (_publish_date v) = true /\ hasattr (v_last_updated v) = true.
Proof.
  induction 1 as [clk a1 a2 a3 a4 a5 a6 a7 a8 a9 a10 imm v H | clk v key val v' _ IH H
                   | clk v key val v' _ IH H].
  - eapply init_dates; eauto.
  - destruct IH as (Hd & Hp & Hl). unfold VideoInfo_setitem in H.
    destruct key; try discriminate.
    destruct (negb _); [discriminate |].
    destruct (setattr_dates _ _ _ _ _ Hd H) as (Hd' & Hp' & Hl'). auto.
  - destruct IH as (Hd & Hp & Hl).
    destruct (setattr_dates _ _ _ _ _ Hd H) as (Hd' & Hp' & Hl'). auto.
Qed.

Lemma set_publish_date_rejects_later self l t :
  v_last_updated self = Some l -> dt_gt t l = Ok true ->
  exists e, VideoInfo_set_publish_date self (VDatetime t) = Raise e.
Proof.
  intros Hl Hgt. unfold VideoInfo_set_publish_date.
  destruct (v_immutable self && hasattr (_publish_date self)); cbn [raise_if bind]; eauto.
  destruct (is_aware t) eqn:Et; cbn [negb raise_if bind]; eauto.
  rewrite Hl, Hgt. cbn. eauto.
Qed.

Lemma set_last_updated_rejects_earlier clk self p t :
  _publish_date self = Some p -> dt_lt t p = Ok true ->
  exists e, VideoInfo_set_last_updated clk self (VDatetime t) = Raise e.
Proof.
  intros Hp Hlt. unfold VideoInfo_set_last_updated.
  destruct (v_immutable self && hasattr (v_last_updated self)); cbn [raise_if bind]; eauto.
  destruct (is_aware t) eqn:Et; cbn [negb raise_if bind]; eauto.
  destruct (dt_gt t (now_utc clk)) as [[|] |]; cbn [raise_if bind]; eauto.
  rewrite Hp, Hlt. cbn. eauto.
Qed.

(** C2: every [VideoInfo] the constructor returns, and every one reached
    from it by successful assignments, holds both dates, both aware, with
    [publish_date <= last_updated] as the program compares two datetimes; and
    each of the two setters checks against the other field: [publish_date]
    refuses a value greater than [last_updated], [last_updated] a value less
    than [publish_date]. *)
Theorem VideoInfo_dates_ordered v :
  VideoInfo_reachable validators_url v ->
  exists p l,
    _publish_date v = Some p /\ v_last_updated v = Some l /\
    is_aware p = true /\ is_aware l = true /\ dt_le p l = Ok true /\
    (forall t, dt_gt t l = Ok true ->
       exists e, VideoInfo_set_publish_date v (VDatetime t) = Raise e) /\
    (forall clk t, dt_lt t p = Ok true ->
       exists e, VideoInfo_set_last_updated clk v (VDatetime t) = Raise e).
Proof.
  intros Hr. destruct (reachable_dates v Hr) as (Hd & Hp & Hl).
  unfold dates_ordered in Hd.
  destruct (_publish_date v) as [p |] eqn:Ep; [| discriminate].
  destruct (v_last_updated v) as [l |] eqn:El; [| discriminate].
  destruct Hd as (Hap & Hal & Hle).
  exists p, l. repeat split; auto.
  - unfold no_later in Hle. destruct (dt_le p l) as [[] |]; try discriminate Hle. reflexivity.
  - intros t Ht. eapply set_publish_date_rejects_later; eauto.
  - intros clk t Ht. eapply set_last_updated_rejects_earlier; eauto.
Qed.

End VideoFacts.

(** * Records: the immutable flag *)

(** The record a setter returns, with its fields read off. *)
Ltac video_fields :=
  cbn [v_immutable v_channel_id v_channel_name _video_id _video_title _publish_date
       v_last_updated _duration _description _keywords _thumbnail_url hasattr].

Lemma read_slot_Ok {A} (o : option A) (f : A -> value) old :
  (let! x := read_slot o in Ok (f x)) = Ok old -> hasattr o = true.
Proof. destruct o; [reflexivity | discriminate]. Qed.

Ltac key_cases :=
  repeat match goal with
         | |- context [if String.eqb ?k ?lit then _ else _] => destruct (String.eqb k lit)
         | H : context [if String.eqb ?k ?lit then _ else _] |- _ => destruct (String.eqb k lit)
         end.

Lemma HtmlDict_refuses : refuses_reassignment h_immutable HtmlDict_getattr HtmlDict_setattr.
Proof.
  intros self key val old Hi Hg. unfold HtmlDict_getattr in Hg. unfold HtmlDict_setattr.
  key_cases; try discriminate; apply read_slot_Ok in Hg;
    unfold HtmlDict_set_about, HtmlDict_set_community, HtmlDict_set_featured_channels,
      HtmlDict_set_videos; rewrite Hi, Hg; reflexivity.
Qed.

Lemma HtmlDict_allows :
  allows_reassignment h_immutable HtmlDict_accepts (fun _ _ v => v)
    HtmlDict_getattr HtmlDict_setattr.
Proof.
  intros self key val Hi Ha. unfold HtmlDict_accepts in Ha.
  apply andb_true_iff in Ha as [Hk Hv]. destruct val; try discriminate.
  unfold HtmlDict_setattr, HtmlDict_getattr, html_keys in *. cbn [existsb] in Hk.
  unfold HtmlDict_set_about, HtmlDict_set_community, HtmlDict_set_featured_channels,
      HtmlDict_set_videos. rewrite Hi. cbn [andb raise_if bind].
  destruct (String.eqb key "about") eqn:E1; [eexists; split; [reflexivity |]; cbn; now rewrite ?E1 |].
  destruct (String.eqb key "community") eqn:E2; [eexists; split; [reflexivity |]; cbn; now rewrite ?E1, ?E2 |].
  destruct (String.eqb key "featured_channels") eqn:E3; [eexists; split; [reflexivity |]; cbn; now rewrite ?E1, ?E2, ?E3 |].
  destruct (String.eqb key "videos") eqn:E4; [eexists; split; [reflexivity |]; cbn; now rewrite ?E1, ?E2, ?E3, ?E4 |].
  discriminate.
Qed.

Lemma ChannelInfo_refuses clk :
  refuses_reassignment (fun st : ChannelInfo * heap => c_immutable st.1)
    (fun st => ChannelInfo_getattr st.1) (ChannelInfo_set clk).
Proof.
  intros [self hp] key val old Hi Hg. cbn [fst snd] in *.
  unfold ChannelInfo_getattr in Hg. unfold ChannelInfo_set, ChannelInfo_setattr. cbn [fst snd].
  key_cases; try discriminate; apply read_slot_Ok in Hg;
    unfold ChannelInfo_set_channel_id, ChannelInfo_set_channel_name, ChannelInfo_set_html,
      ChannelInfo_set_last_updated; rewrite Hi, Hg; reflexivity.
Qed.

Lemma dt_gt_not_later t clk :
  is_aware t = true -> (instant t <=? instant (now_utc clk)) = true ->
  dt_gt t (now_utc clk) = Ok false.
Proof.
  intros Ht Hle. rewrite dt_gt_utc by assumption. f_equal.
  apply Z.leb_le in Hle. apply Z.ltb_ge. lia.
Qed.

Lemma ChannelInfo_allows clk :
  allows_reassignment (fun st : ChannelInfo * heap => c_immutable st.1)
    (fun st => ChannelInfo_accepts clk st.2 st.1) (fun _ _ v => v)
    (fun st => ChannelInfo_getattr st.1) (ChannelInfo_set clk).
Proof.
  intros [self hp] key val Hi Ha. cbn [fst snd] in *.
  unfold ChannelInfo_accepts in Ha. unfold ChannelInfo_set, ChannelInfo_setattr. cbn [fst snd].
  unfold ChannelInfo_set_channel_id, ChannelInfo_set_channel_name, ChannelInfo_set_html,
    ChannelInfo_set_last_updated. rewrite Hi. cbn [andb raise_if bind].
  destruct (String.eqb key "channel_id") eqn:E1.
  { destruct val; try discriminate. cbn in Ha. apply andb_true_iff in Ha as [-> ->].
    cbn. eexists. split; [reflexivity |]. unfold ChannelInfo_getattr. now rewrite E1. }
  destruct (String.eqb key "channel_name") eqn:E2.
  { destruct val; try discriminate. cbn in Ha. rewrite Ha.
    cbn. eexists. split; [reflexivity |]. unfold ChannelInfo_getattr. now rewrite E1, E2. }
  destruct (String.eqb key "html") eqn:E3.
  { destruct val; try discriminate. apply bool_decide_eq_true in Ha as [h Hh].
    cbn [bind]. unfold on_object. rewrite Hh. cbn [bind].
    eexists. split; [reflexivity |]. unfold ChannelInfo_getattr. cbn [fst]. now rewrite E1, E2, E3. }
  destruct (String.eqb key "last_updated") eqn:E4; [| discriminate].
  destruct val; try discriminate. apply andb_true_iff in Ha as [Ha Hle]. rewrite Ha.
  cbn [negb raise_if bind]. rewrite (dt_gt_not_later d clk Ha Hle). cbn [raise_if bind].
  eexists. split; [reflexivity |]. unfold ChannelInfo_getattr. cbn [fst]. now rewrite E1, E2, E3, E4.
Qed.

Section VideoImm.
Variable validators_url : string -> bool.

Lemma VideoInfo_refuses clk :
  refuses_reassignment v_immutable VideoInfo_getattr (VideoInfo_setattr validators_url clk).
Proof.
  intros self key val old Hi Hg. unfold VideoInfo_getattr in Hg. unfold VideoInfo_setattr.
  key_cases; try discriminate;
    try (apply read_slot_Ok in Hg);
    unfold VideoInfo_set_channel_id, VideoInfo_set_channel_name, VideoInfo_set_description,
      VideoInfo_set_duration, VideoInfo_set_keywords, VideoInfo_set_last_updated,
      VideoInfo_set_publish_date, VideoInfo_set_thumbnail_url, VideoInfo_set_video_id,
      VideoInfo_set_video_title; rewrite Hi; try (rewrite Hg; reflexivity).
  destruct (_keywords self); [reflexivity | discriminate].
Qed.

Lemma for_each_keywords l :
  forallb is_nonempty_str l = true -> for_each check_keyword l = Ok tt.
Proof.
  induction l as [| k l IH]; cbn; [reflexivity |]. intros H.
  apply andb_true_iff in H as [Hk Hl]. destruct k; try discriminate.
  cbn in Hk. unfold check_keyword. rewrite Hk. cbn. now apply IH.
Qed.

Lemma VideoInfo_allows clk :
  allows_reassignment v_immutable (VideoInfo_accepts validators_url clk) VideoInfo_stored
    VideoInfo_getattr (VideoInfo_setattr validators_url clk).
Proof.
  intros self key val Hi Ha. unfold VideoInfo_accepts in Ha.
  repeat match type of Ha with
         | (if String.eqb key ?lit then _ else _) = true =>
             let E := fresh "E" in
             destruct (String.eqb key lit) eqn:E;
             [apply String.eqb_eq in E; subst key |]
         end; try discriminate;
    unfold VideoInfo_setattr, VideoInfo_stored, VideoInfo_getattr;
    cbn [String.eqb Ascii.eqb Bool.eqb];
    unfold VideoInfo_set_channel_id, VideoInfo_set_channel_name, VideoInfo_set_description,
      VideoInfo_set_duration, VideoInfo_set_keywords, VideoInfo_set_last_updated,
      VideoInfo_set_publish_date, VideoInfo_set_thumbnail_url, VideoInfo_set_video_id,
      VideoInfo_set_video_title;
    rewrite Hi; cbn [andb raise_if bind].
  - destruct val; try discriminate. cbn in Ha. apply andb_true_iff in Ha as [-> ->].
    cbn. eauto.
  - destruct val; try discriminate. cbn in Ha. rewrite Ha. cbn. eauto.
  - destruct val; try discriminate. cbn. eauto.
  - destruct val; try discriminate. apply Z.leb_le in Ha.
    replace (us <? 0) with false by (symmetry; apply Z.ltb_ge; lia). cbn. eauto.
  - destruct (keyword_elements val) as [l |] eqn:El; [| discriminate].
    assert (Hel : match val with VList l | VTuple l | VSet l => Ok l | _ => Raise TypeError end
                  = Ok l) by (destruct val; try discriminate; injection El as ->; reflexivity).
    rewrite Hel. cbn [bind]. rewrite (for_each_keywords _ Ha). cbn. eauto.
  - destruct val; try discriminate. apply andb_true_iff in Ha as [Ha Hp].
    apply andb_true_iff in Ha as [Ha Hle]. rewrite Ha. cbn [negb raise_if bind].
    rewrite (dt_gt_not_later d clk Ha Hle). cbn [raise_if bind].
    destruct (_publish_date self) as [p |].
    + apply no_later_lt in Hp. rewrite Hp. cbn. eauto.
    + cbn. eauto.
  - destruct val; try discriminate. apply andb_true_iff in Ha as [Ha Hl]. rewrite Ha.
    cbn [negb raise_if bind].
    destruct (v_last_updated self) as [l |].
    + apply no_later_gt in Hl. rewrite Hl. cbn. eauto.
    + cbn. eauto.
  - destruct val; try discriminate. rewrite Ha. cbn. eauto.
  - destruct val; try discriminate. rewrite Ha. cbn. eauto.
  - destruct val; try discriminate. cbn in Ha. rewrite Ha. cbn. eauto.
Qed.

End VideoImm.

Lemma HtmlDict_keeps_flag : keeps_flag h_immutable HtmlDict_setattr.
Proof.
  intros self key val self'. unfold HtmlDict_setattr.
  unfold HtmlDict_set_about, HtmlDict_set_community, HtmlDict_set_featured_channels,
    HtmlDict_set_videos.
  key_cases; intros H; try discriminate; repeat run_step H; reflexivity.
Qed.

Lemma ChannelInfo_keeps_flag clk :
  keeps_flag (fun st : ChannelInfo * heap => c_immutable st.1) (ChannelInfo_set clk).
Proof.
  intros [self hp] key val [self' hp']. unfold ChannelInfo_set, ChannelInfo_setattr.
  cbn [fst snd].
  unfold ChannelInfo_set_channel_id, ChannelInfo_set_channel_name, ChannelInfo_set_html,
    ChannelInfo_set_last_updated.
  key_cases; intros H; try discriminate.
  - run_step H. injection H as <- _. repeat run_step E. reflexivity.
  - run_step H. injection H as <- _. repeat run_step E. reflexivity.
  - run_step H. run_step H. destruct a as [ref hp1]. run_step H. injection H as <- _.
    reflexivity.
  - run_step H. injection H as <- _. repeat run_step E. reflexivity.
Qed.

(** The [html] setter hands its own flag to the object it accepts. *)
Lemma html_setter_overwrites_flag hp self ref self' hp' :
  ChannelInfo_set_html hp self (VHtmlDict ref) = Ok (self', hp') ->
  exists h, hp' !! ref = Some h /\ h_immutable h = c_immutable self.
Proof.
  unfold ChannelInfo_set_html, on_object. intros H. run_step H. cbn [bind] in H.
  destruct (hp !! ref) as [h |] eqn:Eh; cbn [bind] in H; [| discriminate].
  injection H as <- <-. eexists. split.
  - apply list_lookup_insert_eq. eapply lookup_lt_Some; eauto.
  - reflexivity.
Qed.

Section VideoFlag.
Variable validators_url : string -> bool.

Lemma VideoInfo_keeps_flag clk :
  keeps_flag v_immutable (VideoInfo_setattr validators_url clk).
Proof.
  intros self key val self'. unfold VideoInfo_setattr.
  unfold VideoInfo_set_channel_id, VideoInfo_set_channel_name, VideoInfo_set_description,
      VideoInfo_set_duration, VideoInfo_set_keywords, VideoInfo_set_last_updated,
      VideoInfo_set_publish_date, VideoInfo_set_thumbnail_url, VideoInfo_set_video_id,
      VideoInfo_set_video_title.
  key_cases; intros H; try discriminate; repeat run_step H; reflexivity.
Qed.

(** Construction assigns every field once, whatever the flag. *)
Lemma VideoInfo_init_accepts clk cid cname vid title p l dur descr kws url imm :
  is_channel_id (VStr cid) = true -> str_truthy cname = true ->
  (String.length vid =? 11)%nat = true -> str_truthy title = true ->
  is_aware p = true -> is_aware l = true ->
  instant l <= instant (now_utc clk) -> no_later p l = true ->
  0 <= dur -> forallb is_nonempty_str kws = true -> validators_url url = true ->
  VideoInfo_init validators_url clk (VStr cid) (VStr cname) (VStr vid) (VStr title)
    (VDatetime p) (VDatetime l) (VTimedelta dur) (VStr descr) (VList kws) (VStr url)
    (VBool imm)
  = Ok (mk_video imm (Some cid) (Some cname) (Some vid) (Some title) (Some p) (Some l)
          (Some dur) (Some descr) (Some (if imm then VTuple kws else VList kws))
          (Some url)).
Proof.
  intros Hcid Hcn Hvid Ht Hp Hl Hnow Hpl Hdur Hk Hurl.
  cbn in Hcid. apply andb_true_iff in Hcid as [Hc1 Hc2].
  unfold VideoInfo_init. cbn [PropertyDict_init bind].
  unfold VideoInfo_set_channel_id. video_fields.
  rewrite andb_false_r, Hc1, Hc2. cbn [negb orb raise_if bind]. video_fields.
  unfold VideoInfo_set_channel_name. video_fields.
  rewrite andb_false_r, Hcn. cbn [negb raise_if bind]. video_fields.
  unfold VideoInfo_set_video_id. video_fields.
  rewrite andb_false_r, Hvid. cbn [negb raise_if bind]. video_fields.
  unfold VideoInfo_set_video_title. video_fields.
  rewrite andb_false_r, Ht. cbn [negb raise_if bind]. video_fields.
  unfold VideoInfo_set_publish_date. video_fields.
  rewrite andb_false_r, Hp. cbn [negb raise_if bind]. video_fields.
  unfold VideoInfo_set_last_updated. video_fields.
  rewrite andb_false_r, Hl. cbn [negb raise_if bind].
  rewrite (dt_gt_not_later l clk Hl) by (apply Z.leb_le; lia).
  cbn [raise_if bind]. apply no_later_lt in Hpl. rewrite Hpl.
  cbn [raise_if bind]. video_fields.
  unfold VideoInfo_set_duration. video_fields.
  rewrite andb_false_r. replace (dur <? 0) with false by (symmetry; apply Z.ltb_ge; lia).
  cbn [raise_if bind]. video_fields.
  unfold VideoInfo_set_description. video_fields.
  rewrite andb_false_r. cbn [raise_if bind]. video_fields.
  unfold VideoInfo_set_keywords. video_fields.
  rewrite andb_false_r. cbn [raise_if bind]. rewrite (for_each_keywords _ Hk).
  cbn [bind]. video_fields.
  unfold VideoInfo_set_thumbnail_url. video_fields.
  rewrite andb_false_r, Hurl. reflexivity.
Qed.

End VideoFlag.

Lemma ChannelInfo_init_accepts clk hp cid cname t a b c d imm :
  is_channel_id (VStr cid) = true -> str_truthy cname = true ->
  is_aware t = true -> instant t <= instant (now_utc clk) ->
  ChannelInfo_init clk hp (VStr cid) (VStr cname) (VDatetime t) (VStr a) (VStr b) (VStr c)
    (VStr d) (VBool imm)
  = Ok (mk_channel imm (Some cid) (Some cname) (Some (length hp)) (Some t),
        (hp ++ [mk_html imm (Some a) (Some b) (Some c) (Some d)])%list).
Proof.
  intros Hcid Hcn Ht Hnow. cbn in Hcid. apply andb_true_iff in Hcid as [Hc1 Hc2].
  unfold ChannelInfo_init. cbn [PropertyDict_init bind].
  unfold ChannelInfo_set_channel_id. cbn [c_immutable _channel_id hasattr].
  rewrite andb_false_r, Hc1, Hc2. cbn [negb orb raise_if bind].
  unfold ChannelInfo_set_channel_name. cbn [c_immutable _channel_name hasattr].
  rewrite andb_false_r, Hcn. cbn [negb raise_if bind].
  unfold ChannelInfo_set_last_updated. cbn [c_immutable _last_updated hasattr].
  rewrite andb_false_r, Ht. cbn [negb raise_if bind].
  rewrite (dt_gt_not_later t clk Ht) by (apply Z.leb_le; lia).
  cbn [raise_if bind].
  unfold HtmlDict_init, HtmlDict_set_about, HtmlDict_set_community,
    HtmlDict_set_featured_channels, HtmlDict_set_videos, ChannelInfo_set_html, on_object.
  repeat (progress (rewrite ?andb_false_r; cbn)).
  rewrite list_lookup_middle by reflexivity. cbn.
  rewrite list_insert_id by (apply list_lookup_middle; reflexivity). reflexivity.
Qed.

Lemma HtmlDict_init_accepts a b c d imm :
  HtmlDict_init (VStr a) (VStr b) (VStr c) (VStr d) (VBool imm)
  = Ok (mk_html imm (Some a) (Some b) (Some c) (Some d)).
Proof.
  unfold HtmlDict_init, HtmlDict_set_about, HtmlDict_set_community,
    HtmlDict_set_featured_channels, HtmlDict_set_videos.
  repeat (progress (rewrite ?andb_false_r; cbn)). reflexivity.
Qed.

(** ** The claim on reassignment *)

(** C4, as amended: a record whose immutable flag is set at the time of the
    call refuses, with the reassignment error, every assignment to a field
    that holds a value, and stays as it was; a record whose flag is clear
    takes every value its field accepts and reads it back (the keywords as a
    list); the setters of a record leave its own flag alone, and the [html]
    setter of a [ChannelInfo] sets the flag of the [HtmlDict] it is given to
    the owner's; the constructors assign every field once whatever the
    flag. *)
Theorem reassignment_follows_flag (validators_url : string -> bool) (clk : clock) :
  (refuses_reassignment h_immutable HtmlDict_getattr HtmlDict_setattr /\
   refuses_reassignment (fun st : ChannelInfo * heap => c_immutable st.1)
     (fun st => ChannelInfo_getattr st.1) (ChannelInfo_set clk) /\
   refuses_reassignment v_immutable VideoInfo_getattr (VideoInfo_setattr validators_url clk)) /\
  (allows_reassignment h_immutable HtmlDict_accepts (fun _ _ v => v)
     HtmlDict_getattr HtmlDict_setattr /\
   allows_reassignment (fun st : ChannelInfo * heap => c_immutable st.1)
     (fun st => ChannelInfo_accepts clk st.2 st.1) (fun _ _ v => v)
     (fun st => ChannelInfo_getattr st.1) (ChannelInfo_set clk) /\
   allows_reassignment v_immutable (VideoInfo_accepts validators_url clk) VideoInfo_stored
     VideoInfo_getattr (VideoInfo_setattr validators_url clk)) /\
  (keeps_flag h_immutable HtmlDict_setattr /\
   keeps_flag (fun st : ChannelInfo * heap => c_immutable st.1) (ChannelInfo_set clk) /\
   keeps_flag v_immutable (VideoInfo_setattr validators_url clk) /\
   forall hp self ref self' hp',
     ChannelInfo_set_html hp self (VHtmlDict ref) = Ok (self', hp') ->
     exists h, hp' !! ref = Some h /\ h_immutable h = c_immutable self) /\
  ((forall a b c d imm,
      HtmlDict_init (VStr a) (VStr b) (VStr c) (VStr d) (VBool imm)
      = Ok (mk_html imm (Some a) (Some b) (Some c) (Some d))) /\
   (forall hp cid cname t a b c d imm,
      is_channel_id (VStr cid) = true -> str_truthy cname = true ->
      is_aware t = true -> instant t <= instant (now_utc clk) ->
      ChannelInfo_init clk hp (VStr cid) (VStr cname) (VDatetime t) (VStr a) (VStr b)
        (VStr c) (VStr d) (VBool imm)
      = Ok (mk_channel imm (Some cid) (Some cname) (Some (length hp)) (Some t),
            (hp ++ [mk_html imm (Some a) (Some b) (Some c) (Some d)])%list)) /\
   (forall cid cname vid title p l dur descr kws url imm,
      is_channel_id (VStr cid) = true -> str_truthy cname = true ->
      (String.length vid =? 11)%nat = true -> str_truthy title = true ->
      is_aware p = true -> is_aware l = true ->
      instant l <= instant (now_utc clk) -> no_later p l = true ->
      0 <= dur -> forallb is_nonempty_str kws = true -> validators_url url = true ->
      VideoInfo_init validators_url clk (VStr cid) (VStr cname) (VStr vid) (VStr title)
        (VDatetime p) (VDatetime l) (VTimedelta dur) (VStr descr) (VList kws) (VStr url)
        (VBool imm)
      = Ok (mk_video imm (Some cid) (Some cname) (Some vid) (Some title) (Some p) (Some l)
              (Some dur) (Some descr) (Some (if imm then VTuple kws else VList kws))
              (Some url)))).
Proof.
  split; [| split; [| split]].
  - split; [apply HtmlDict_refuses |].
    split; [apply ChannelInfo_refuses | apply VideoInfo_refuses].
  - split; [apply HtmlDict_allows |].
    split; [apply ChannelInfo_allows | apply VideoInfo_allows].
  - split; [apply HtmlDict_keeps_flag |].
    split; [apply ChannelInfo_keeps_flag |].
    split; [apply VideoInfo_keeps_flag | apply html_setter_overwrites_flag].
  - split; [apply HtmlDict_init_accepts |].
    split; [intros; now apply ChannelInfo_init_accepts |].
    intros; now apply VideoInfo_init_accepts.
Qed.

(** C4 on two channels built alike but for the flag: the immutable one
    refuses a new name, the mutable one takes it and reads it back. *)
Lemma reassignment_follows_flag_witness :
  let build imm :=
    (mk_channel imm (Some "UC0123456789abcdefghijkl") (Some "a channel") (Some 0%nat)
       (Some january_utc),
     [mk_html imm (Some "about") (Some "community") (Some "featured") (Some "videos")]) in
  ChannelInfo_init clock0 [] (VStr "UC0123456789abcdefghijkl") (VStr "a channel")
    (VDatetime january_utc) (VStr "about") (VStr "community") (VStr "featured")
    (VStr "videos") (VBool true) = Ok (build true) /\
  ChannelInfo_set clock0 (build true) "channel_name" (VStr "renamed")
  = Raise AttributeError /\
  exists st, ChannelInfo_set clock0 (build false) "channel_name" (VStr "renamed") = Ok st /\
             ChannelInfo_getattr st.1 "channel_name" = Ok (VStr "renamed").
Proof.
  intros build.
  destruct (reassignment_follows_flag url_with_scheme clock0)
    as ((_ & Hrefuse & _) & (_ & Hallow & _) & _ & (_ & Hinit & _)).
  split; [| split].
  - apply (Hinit [] "UC0123456789abcdefghijkl" "a channel" january_utc
             "about" "community" "featured" "videos" true);
      first [reflexivity | vm_compute; discriminate].
  - apply (Hrefuse (build true) "channel_name" (VStr "renamed") (VStr "a channel"));
      reflexivity.
  - apply (Hallow (build false) "channel_name" (VStr "renamed")); reflexivity.
Defined.

(** C4, as stated, fails: an [HtmlDict] constructed with [immutable=True]
    and then assigned as the [html] of a mutable [ChannelInfo] takes a new
    value for a field that holds one. *)
Lemma HtmlDict_constructed_immutable_reassigned :
  exists h c hp1 c' hp2 hp3,
    HtmlDict_init (VStr "about") (VStr "community") (VStr "featured") (VStr "videos")
      (VBool true) = Ok h /\
    h_immutable h = true /\
    ChannelInfo_init clock0 [h] (VStr "UC0123456789abcdefghijkl") (VStr "a channel")
      (VDatetime january_utc) (VStr "x") (VStr "x") (VStr "x") (VStr "x") (VBool false)
    = Ok (c, hp1) /\
    ChannelInfo_setitem clock0 hp1 c (VStr "html") (VHtmlDict 0) = Ok (c', hp2) /\
    HtmlDict_getitem hp2 0 (VStr "about") = Ok (VStr "about") /\
    HtmlDict_setitem hp2 0 (VStr "about") (VStr "changed") = Ok hp3 /\
    HtmlDict_setitem hp2 0 (VStr "about") (VStr "changed") <> Raise AttributeError /\
    HtmlDict_getitem hp3 0 (VStr "about") = Ok (VStr "changed").
Proof.
  do 6 eexists.
  split; [vm_compute; reflexivity |].
  split; [reflexivity |].
  split; [vm_compute; reflexivity |].
  split; [vm_compute; reflexivity |].
  split; [vm_compute; reflexivity |].
  split; [vm_compute; reflexivity |].
  split; [vm_compute; discriminate |].
  vm_compute. reflexivity.
Qed.

(** C2 on a video published in January 2022 and checked in February. *)
Lemma VideoInfo_dates_ordered_witness :
  exists v p l,
    VideoInfo_init url_with_scheme clock0 (VStr "UC0123456789abcdefghijkl") (VStr "a channel")
      (VStr "12345678901") (VStr "a title") (VDatetime january_utc) (VDatetime february_utc)
      (VTimedelta 60000000) (VStr "") (VList [VStr "k"]) (VStr "https://i.ytimg.com/t.jpg")
      (VBool false) = Ok v /\
    _publish_date v = Some p /\ v_last_updated v = Some l /\ dt_le p l = Ok true /\
    exists e, VideoInfo_set_publish_date v (VDatetime next_year_utc) = Raise e.
Proof.
  destruct (VideoInfo_init url_with_scheme clock0 (VStr "UC0123456789abcdefghijkl")
              (VStr "a channel") (VStr "12345678901") (VStr "a title")
              (VDatetime january_utc) (VDatetime february_utc) (VTimedelta 60000000)
              (VStr "") (VList [VStr "k"]) (VStr "https://i.ytimg.com/t.jpg") (VBool false))
    as [v | e] eqn:E; [| vm_compute in E; discriminate E].
  destruct (VideoInfo_dates_ordered url_with_scheme v (video_constructed _ _ _ _ _ _ _ _ _ _ _ _ _ _ E))
    as (p & l & Hp & Hl & _ & _ & Hle & Hpub & _).
  exists v, p, l. repeat split; try assumption.
  apply Hpub.
  vm_compute in E. injection E as <-. cbn in Hl. injection Hl as <-. vm_compute. reflexivity.
Defined.

(** * More on [check_dtypes] and [coerce_dtypes] *)

Section DtypeFacts.

Variable convert : Series -> result Series.
Variable astype : dtype -> Series -> result Series.

Local Abbreviation check_dtypes := (check_dtypes convert).
Local Abbreviation coerce_dtypes := (coerce_dtypes convert astype).

(** The check of several columns holds only if the check of each holds. *)
Lemma check_dtypes_each data kwargs c ts :
  check_dtypes data kwargs = Ok true -> In (c, ts) kwargs ->
  check_dtypes data [(c, ts)] = Ok true.
Proof.
  induction kwargs as [| [c' ts'] rest IH]; intros H Hi; [destruct Hi |].
  cbn [Dtypes.check_dtypes] in H.
  destruct (check_column convert data c' ts') as [[|] | e] eqn:E; cbn [bind] in H;
    try discriminate.
  destruct Hi as [[= -> ->] | Hi]; [| now apply IH].
  cbn [Dtypes.check_dtypes]. rewrite E. reflexivity.
Qed.

(** The loop skips every column whose check holds. *)
Lemma coerce_loop_all_checked data res kwargs :
  (forall c ts, In (c, ts) kwargs -> check_dtypes data [(c, ts)] = Ok true) ->
  coerce_loop convert astype data res kwargs = Ok res.
Proof.
  induction kwargs as [| [c ts] rest IH]; intros H; [reflexivity |].
  cbn [coerce_loop]. rewrite (H c ts (or_introl eq_refl)). cbn [bind].
  apply IH. intros c' ts' Hi. apply H. now right.
Qed.

(** X1: [coerce_dtypes] returns the frame it was given, cell for cell and
    dtype for dtype, when [check_dtypes] with the same keyword arguments
    holds of it. *)
Theorem coerce_dtypes_checked_unchanged data kwargs :
  kwargs <> [] ->
  check_dtypes data kwargs = Ok true ->
  coerce_dtypes data kwargs = Ok data.
Proof.
  intros Hne H. unfold Dtypes.coerce_dtypes.
  destruct kwargs as [| kw rest]; [contradiction |].
  apply coerce_loop_all_checked. intros c ts Hi. now apply (check_dtypes_each data (kw :: rest)).
Qed.

Lemma write_column_labels j vals rs :
  length vals = length rs -> map fst (write_column j vals rs) = map fst rs.
Proof.
  revert vals. induction rs as [| [lbl r] rs IH]; intros [| v vals] Hlen; simpl in *;
    try discriminate; auto.
  f_equal. apply IH. lia.
Qed.

Lemma setitem_labels data c s data' :
  setitem data c s = Ok data' -> map fst (rows data') = map fst (rows data).
Proof.
  intros H. pose proof (setitem_Ok_length _ _ _ _ H) as Hlen. unfold setitem in H.
  rewrite Hlen, Nat.eqb_refl in H. cbn [negb] in H.
  destruct (index_of c (column_names data)); injection H as <-; cbn [rows];
    now apply write_column_labels.
Qed.

(** One run of the loop: the frame stays rectangular, keeps its column
    names and row labels, and the columns not named are not touched. *)
Lemma coerce_loop_frame kwargs : forall data res r,
  frame_wf res ->
  coerce_loop convert astype data res kwargs = Ok r ->
  frame_wf r /\
  column_names r = column_names res /\
  map fst (rows r) = map fst (rows res) /\
  (forall c, ~ In c (map fst kwargs) -> getitem r c = getitem res c).
Proof.
  induction kwargs as [| [c ts] rest IH]; intros data res r Hwf Hrun.
  - cbn in Hrun. injection Hrun as <-. auto.
  - cbn [coerce_loop] in Hrun.
    destruct (check_dtypes data [(c, ts)]) as [[|] | e]; cbn [bind] in Hrun;
      try discriminate.
    + destruct (IH data res r Hwf Hrun) as (Hwfr & Hn & Hl & Hout).
      repeat split; auto. intros c' Hc'. apply Hout. intros Hi. apply Hc'. cbn. now right.
    + destruct (getitem res c) as [s | e] eqn:Hg; cbn [bind] in Hrun; [| discriminate].
      destruct (target_dtype ts) as [d | e]; cbn [bind] in Hrun; [| discriminate].
      destruct (astype d s) as [s' | e]; cbn [bind] in Hrun; [| discriminate].
      destruct (setitem res c s') as [res' | e] eqn:Hs; cbn [bind] in Hrun; [| discriminate].
      assert (Hj : exists j, index_of c (column_names res) = Some j).
      { unfold getitem in Hg. destruct (index_of c (column_names res)); [eauto | discriminate]. }
      destruct Hj as [j Hj].
      destruct (setitem_existing res c s' j Hwf Hj (setitem_Ok_length _ _ _ _ Hs))
        as (res2 & Hs2 & Hwf2 & Hn2 & _ & _ & Hother).
      pose proof (setitem_labels _ _ _ _ Hs) as Hl2.
      rewrite Hs in Hs2. injection Hs2 as <-.
      destruct (IH data res' r Hwf2 Hrun) as (Hwfr & Hn & Hl & Hout).
      repeat split; auto; try congruence.
      intros c' Hc'. rewrite Hout by (intros Hi; apply Hc'; cbn; now right).
      apply Hother. intros ->. apply Hc'. cbn. now left.
Qed.

(** X2: the frame [coerce_dtypes] returns has the column names, in order,
    and the row labels of the frame it was given, and every column that no
    keyword argument names has its dtype and its cells unchanged. *)
Theorem coerce_dtypes_keeps_other_columns data kwargs r :
  frame_wf data ->
  coerce_dtypes data kwargs = Ok r ->
  column_names r = column_names data /\
  map fst (rows r) = map fst (rows data) /\
  (forall c, ~ In c (map fst kwargs) -> getitem r c = getitem data c).
Proof.
  intros Hwf Hrun. unfold Dtypes.coerce_dtypes in Hrun.
  destruct kwargs as [| kw rest]; [discriminate |].
  destruct (coerce_loop_frame (kw :: rest) data data r Hwf Hrun) as (_ & H). exact H.
Qed.

(** The type found for a column passes the check of that column. *)
Lemma infer_column_checks column t :
  infer_column column = Some t -> check_one column t = Ok true.
Proof.
  destruct column as [d vals]. unfold infer_column, check_one. cbn [s_dtype].
  destruct d; cbn; intros [= <-]; reflexivity.
Qed.

Lemma infer_dtypes_of_checks data names : forall inferred c t,
  infer_dtypes_of convert data names = Ok inferred -> In (c, t) inferred ->
  check_dtypes data [(c, Single t)] = Ok true.
Proof.
  induction names as [| n ns IH]; intros inferred c t H Hi.
  - cbn in H. injection H as <-. destruct Hi.
  - cbn [infer_dtypes_of] in H.
    destruct (narrowed convert data n) as [column | e] eqn:En; cbn [bind] in H;
      [| discriminate].
    destruct (infer_dtypes_of convert data ns) as [rest | e]; cbn [bind] in H;
      [| discriminate].
    injection H as <-.
    destruct (infer_column column) as [t' |] eqn:Ei.
    + destruct Hi as [[= -> ->] | Hi]; [| now apply (IH rest)].
      cbn [Dtypes.check_dtypes]. unfold check_column. rewrite En. cbn [bind].
      rewrite (infer_column_checks _ _ Ei). reflexivity.
    + now apply (IH rest).
Qed.

(** X3: the two modes of [check_dtypes] agree: a type that
    [check_dtypes(data)] reports for a column makes
    [check_dtypes(data, column=type)] hold. *)
Theorem check_dtypes_kwargless_consistent data inferred c t :
  check_dtypes_kwargless convert data = Ok inferred ->
  In (c, t) inferred ->
  check_dtypes data [(c, Single t)] = Ok true.
Proof. unfold check_dtypes_kwargless. apply infer_dtypes_of_checks. Qed.

Lemma check_single_unfold data c t column :
  narrowed convert data c = Ok column ->
  check_dtypes data [(c, Single t)]
  = (let! b := check_one column t in Ok b).
Proof.
  intros En. cbn [Dtypes.check_dtypes]. unfold check_column. rewrite En. cbn [bind].
  destruct (check_one column t) as [[|] |]; reflexivity.
Qed.

Lemma check_each_any column l :
  Forall (fun t => exists b, check_one column t = Ok b) l ->
  exists bs, check_each column l = Ok bs /\
             (existsb id bs = true <-> Exists (fun t => check_one column t = Ok true) l).
Proof.
  induction 1 as [| t l [b Hb] _ (bs & Hbs & IH)].
  - exists []. split; [reflexivity |]. split; [discriminate | intros H; inversion H].
  - exists (b :: bs). split; [cbn; rewrite Hb, Hbs; reflexivity |].
    cbn [existsb id]. rewrite orb_true_iff, IH, Exists_cons, Hb. unfold id.
    split; (intros [H | H]; [left | right; exact H]); congruence.
Qed.

(** X4: with a tuple, list or set of types whose checks all return,
    [check_dtypes] holds of a column exactly when it holds with one of the
    types alone. *)
Theorem check_dtypes_multiple_any data c k l :
  Forall (fun t => exists b, check_dtypes data [(c, Single t)] = Ok b) l ->
  (check_dtypes data [(c, Multiple k l)] = Ok true <->
   Exists (fun t => check_dtypes data [(c, Single t)] = Ok true) l).
Proof.
  intros Hall. cbn [Dtypes.check_dtypes]. unfold check_column at 1.
  destruct (narrowed convert data c) as [column | e] eqn:En; cbn [bind].
  - assert (Hone : Forall (fun t => exists b, check_one column t = Ok b) l).
    { eapply Forall_impl; [exact Hall |]. cbn beta. intros t [b Hb].
      rewrite (check_single_unfold _ _ _ _ En) in Hb.
      destruct (check_one column t) as [b' |]; [eauto | discriminate]. }
    destruct (check_each_any column l Hone) as (bs & -> & Hiff). cbn [bind].
    assert (Hex : Exists (fun t => check_dtypes data [(c, Single t)] = Ok true) l
                  <-> Exists (fun t => check_one column t = Ok true) l).
    { rewrite !Exists_exists. split; intros (t & Hi & Ht); exists t; split; auto.
      - rewrite (check_single_unfold _ _ _ _ En) in Ht.
        destruct (check_one column t) as [[|] |]; try discriminate; reflexivity.
      - rewrite (check_single_unfold _ _ _ _ En), Ht. reflexivity. }
    rewrite Hex, <- Hiff. destruct (existsb id bs); split; congruence.
  - split; [discriminate |]. rewrite Exists_exists. intros (t & _ & Ht).
    cbn [Dtypes.check_dtypes] in Ht. unfold check_column in Ht. rewrite En in Ht.
    discriminate.
Qed.

End DtypeFacts.

(** * More on the constructor of [Stats] *)

Lemma positions_names names cols : forall js,
  positions names cols = Ok js -> map (fun j => nth j cols ""%string) js = names.
Proof.
  induction names as [| n ns IH]; intros js H; cbn in H.
  - injection H as <-. reflexivity.
  - destruct (index_of n cols) as [j |] eqn:Ej; [| discriminate].
    destruct (positions ns cols) as [js' |]; cbn in H; [| discriminate].
    injection H as <-. cbn. f_equal; [| now apply IH].
    now destruct (index_of_Some _ _ _ Ej).
Qed.

Lemma select_columns_names data names d :
  select_columns data names = Ok d -> column_names d = names.
Proof.
  unfold select_columns. intros H.
  destruct (positions names (column_names data)) as [js |] eqn:Ep; cbn in H; [| discriminate].
  injection H as <-. unfold column_names at 1. cbn [columns]. rewrite map_map.
  rewrite <- (positions_names _ _ _ Ep). apply map_ext. intros j.
  unfold column_names. clear. revert j.
  induction (columns data) as [| [n d] cols IH]; intros [| j]; cbn; auto.
Qed.

Lemma for_each_Ok {A} (f : A -> result unit) l :
  for_each f l = Ok tt -> Forall (fun x => f x = Ok tt) l.
Proof.
  induction l as [| x l IH]; cbn; intros H; [constructor |].
  destruct (f x) as [[] |] eqn:E; cbn in H; [| discriminate]. constructor; auto.
Qed.

Lemma cell_same_sym a b : cell_same a b = cell_same b a.
Proof.
  destruct a, b; cbn; try reflexivity.
  - apply Z.eqb_sym.
  - unfold Qeq_bool. apply Z.eqb_sym.
  - unfold Qeq_bool. f_equal; apply Z.eqb_sym.
  - apply String.eqb_sym.
  - now destruct b0, b.
  - unfold ts_eq. f_equal; [now destruct (is_aware d), (is_aware d0) | apply Z.eqb_sym].
  - apply Z.eqb_sym.
  - apply Nat.eqb_sym.
Qed.

(** What [drop_duplicates] keeps: no two rows of one key, none with a key
    seen before. *)
Lemma drop_dups_distinct js rs : forall seen,
  ForallOrdPairs (fun r1 r2 => same_key js (snd r2) (snd r1) = false) (drop_dups js seen rs) /\
  Forall (fun r => forallb (fun s => negb (same_key js (snd r) s)) seen = true)
         (drop_dups js seen rs).
Proof.
  induction rs as [| r rs IH]; intros seen; cbn [drop_dups].
  - split; constructor.
  - destruct (existsb (same_key js (snd r)) seen) eqn:E; [apply IH |].
    destruct (IH (snd r :: seen)) as [Hpairs Hseen]. split.
    + constructor; [| exact Hpairs].
      eapply Forall_impl; [exact Hseen |]. cbn. intros r' H.
      apply andb_true_iff in H as [H _]. now apply negb_true_iff in H.
    + constructor.
      * apply forallb_forall. intros s Hs. apply negb_true_iff.
        destruct (same_key js (snd r) s) eqn:Es; [| reflexivity].
        rewrite <- E. symmetry. apply existsb_exists. eauto.
      * eapply Forall_impl; [exact Hseen |]. cbn. intros r' H.
        now apply andb_true_iff in H as [_ H].
Qed.

Lemma ForallOrdPairs_weaken {A} (R S : A -> A -> Prop) l :
  (forall a b, R a b -> S a b) -> ForallOrdPairs R l -> ForallOrdPairs S l.
Proof.
  intros HRS. induction 1 as [| a l Ha _ IH]; constructor; [| exact IH].
  eapply Forall_impl; [exact Ha |]. intros b. apply HRS.
Qed.

Section ConstructorFacts.
Variable is_video_id : string -> bool.
Variable cast_other : dtype -> cell -> result cell.

Local Abbreviation Stats_init := (Stats_init is_video_id cast_other).

Lemma check_column_dtypes_Ok data cols :
  check_column_dtypes data cols = Ok tt ->
  forall c ts, In (c, ts) cols -> check_dtypes convert data [(c, ts)] = Ok true.
Proof.
  induction cols as [| [c' ts'] rest IH]; intros H c ts Hi; [destruct Hi |].
  cbn [check_column_dtypes] in H.
  destruct (check_dtypes convert data [(c', ts')]) as [[|] | e] eqn:E; cbn [bind] in H.
  - destruct Hi as [[= -> ->] | Hi]; [exact E | now apply IH].
  - destruct (check_dtypes_kwargless convert data) as [inferred |]; cbn [bind] in H;
      [| discriminate].
    destruct (find _ inferred); [| discriminate].
    destruct (getitem data c'); discriminate.
  - discriminate.
Qed.

(** An accepted dataset passed the dtype check, so that the coercion had
    nothing to do. *)
Lemma Stats_init_inv clk data interpolate s :
  Stats_init clk (Some data) interpolate = Ok s ->
  interpolate = false /\
  (let! d := select_columns data expected_names in
   let! d := dropna d ["video_id"; "timestamp"] in
   drop_duplicates d ["video_id"; "timestamp"]) = Ok (_data s).
Proof.
  unfold StatsStore.Stats_init. intros H.
  destruct (set_differs _ _); cbn [raise_if bind] in H; [discriminate |].
  destruct (check_column_dtypes data expected_columns) as [[] |] eqn:Ec; cbn [bind] in H;
    [| discriminate].
  assert (Hco : coerce_dtypes convert (astype cast_other) data expected_columns = Ok data).
  { apply coerce_loop_all_checked. now apply check_column_dtypes_Ok. }
  rewrite Hco in H. cbn [bind] in H.
  destruct (select_columns data expected_names) as [d1 |]; cbn [bind] in H |- *;
    [| discriminate].
  destruct (dropna d1 _) as [d2 |]; cbn [bind] in H |- *; [| discriminate].
  destruct (drop_duplicates d2 _) as [d3 |]; cbn [bind] in H |- *; [| discriminate].
  destruct (apply_check d3 "video_id" _) as [[] |]; cbn [bind] in H; [| discriminate].
  destruct (apply_check d3 "timestamp" _) as [[] |]; cbn [bind] in H; [| discriminate].
  destruct interpolate; cbn [negb] in H; [discriminate |].
  injection H as <-. auto.
Qed.

(** X5: a dataset the constructor accepts is stored without any dtype
    conversion: the store holds the dataset's own cells, with the columns in
    the canonical order, without the rows that lack a [video_id] or a
    [timestamp], and without the later rows of a repeated ([video_id],
    [timestamp]) pair; and [interpolate] was false. *)
Theorem Stats_init_stores_dataset clk data interpolate s :
  Stats_init clk (Some data) interpolate = Ok s ->
  interpolate = false /\
  (let! d := select_columns data expected_names in
   let! d := dropna d ["video_id"; "timestamp"] in
   drop_duplicates d ["video_id"; "timestamp"]) = Ok (_data s).
Proof. apply Stats_init_inv. Qed.

(** The frame the constructor stores, step by step. *)
Lemma Stats_init_steps clk data interpolate s :
  Stats_init clk (Some data) interpolate = Ok s ->
  column_names (_data s) = expected_names /\
  (exists d2, rows (_data s) = drop_dups [0%nat; 1%nat] [] (rows d2)) /\
  apply_check (_data s) "video_id" (check_video_id is_video_id) = Ok tt /\
  apply_check (_data s) "timestamp" (check_timestamp clk) = Ok tt.
Proof.
  unfold StatsStore.Stats_init. intros H.
  destruct (set_differs _ _); cbn [raise_if bind] in H; [discriminate |].
  destruct (check_column_dtypes data expected_columns) as [[] |]; cbn [bind] in H;
    [| discriminate].
  destruct (coerce_dtypes _ _ data expected_columns) as [d0 |]; cbn [bind] in H;
    [| discriminate].
  destruct (select_columns d0 expected_names) as [d1 |] eqn:E1; cbn [bind] in H;
    [| discriminate].
  apply select_columns_names in E1.
  unfold dropna in H. rewrite E1 in H. cbn [positions expected_names expected_columns map fst
    index_of String.eqb Ascii.eqb Bool.eqb option_map bind] in H.
  unfold drop_duplicates in H. unfold column_names at 1 in H. cbn [columns] in H.
  fold (column_names d1) in H. rewrite E1 in H.
  cbn [positions expected_names expected_columns map fst
    index_of String.eqb Ascii.eqb Bool.eqb option_map bind rows] in H.
  match type of H with
  | context [apply_check ?d "video_id" _] => set (d3 := d) in H
  end.
  destruct (apply_check d3 "video_id" _) as [[] |] eqn:Ev; cbn [bind] in H; [| discriminate].
  destruct (apply_check d3 "timestamp" _) as [[] |] eqn:Et; cbn [bind] in H; [| discriminate].
  destruct interpolate; cbn [negb] in H; [discriminate |].
  injection H as <-. cbn [_data]. repeat split; auto.
  subst d3. cbn [rows].
  match goal with |- exists d2, drop_dups _ _ ?R = _ => exists (mk_frame [] R) end.
  reflexivity.
Qed.

(** X6: in every store the constructor returns from a dataset, the columns
    are the six canonical ones in their order, every row holds a [video_id]
    string that [is_video_id] accepts, and every row holds an aware
    timestamp. *)
Theorem Stats_init_rows_checked clk data interpolate s :
  Stats_init clk (Some data) interpolate = Ok s ->
  column_names (_data s) = expected_names /\
  Forall (fun r => exists v t,
            cell_at 0 (snd r) = CStr v /\ is_video_id v = true /\
            cell_at 1 (snd r) = CTimestamp t /\ is_aware t = true)
         (rows (_data s)).
Proof.
  intros H. destruct (Stats_init_steps _ _ _ _ H) as (Hn & _ & Hv & Ht).
  split; [exact Hn |].
  unfold apply_check, getitem in Hv, Ht. rewrite Hn in Hv, Ht.
  cbn [expected_names expected_columns map fst index_of String.eqb Ascii.eqb Bool.eqb
       option_map bind s_values] in Hv, Ht.
  apply for_each_Ok in Hv, Ht. rewrite Forall_map in Hv, Ht.
  rewrite Forall_forall in Hv, Ht |- *. intros r Hr.
  specialize (Hv r Hr). specialize (Ht r Hr). cbn beta in Hv, Ht.
  destruct (cell_at 0 (snd r)) as [| | | | v | | | |]; try discriminate Hv.
  destruct (cell_at 1 (snd r)) as [| | | | | | t | |]; try discriminate Ht.
  exists v, t. cbn in Hv, Ht.
  destruct (is_video_id v); [| discriminate Hv].
  destruct (is_aware t); [| discriminate Ht]. auto.
Qed.

(** X7: in every store the constructor returns from a dataset, no two rows
    hold the same ([video_id], [timestamp]) pair. *)
Theorem Stats_init_unique_pairs clk data interpolate s :
  Stats_init clk (Some data) interpolate = Ok s -> unique_pairs s.
Proof.
  intros H. destruct (Stats_init_steps _ _ _ _ H) as (_ & (d2 & Hrows) & _).
  unfold unique_pairs. rewrite Hrows.
  destruct (drop_dups_distinct [0%nat; 1%nat] (rows d2) []) as [Hpairs _].
  eapply ForallOrdPairs_weaken; [| exact Hpairs]. cbn beta. intros r1 r2 Hk.
  unfold pair_eq, cell_eq. unfold same_key in Hk. cbn [forallb] in Hk.
  rewrite andb_true_r in Hk.
  rewrite (cell_same_sym (cell_at 0 (snd r2))), (cell_same_sym (cell_at 1 (snd r2))) in Hk.
  destruct (cell_same (cell_at 0 (snd r1)) (cell_at 0 (snd r2)));
    destruct (cell_same (cell_at 1 (snd r1)) (cell_at 1 (snd r2)));
    try discriminate Hk; rewrite ?andb_false_r, ?andb_false_l; reflexivity.
Qed.

(** X8: time interpolation is not there: with [interpolate=True] the
    constructor raises on every dataset, [NotImplementedError] when the
    dataset is one it accepts without the flag; without a dataset the flag
    is not looked at. *)
Theorem Stats_init_interpolate clk data :
  (exists e, Stats_init clk (Some data) true = Raise e) /\
  (forall s, Stats_init clk (Some data) false = Ok s ->
             Stats_init clk (Some data) true = Raise NotImplementedError) /\
  Stats_init clk None true = Stats_init clk None false.
Proof.
  split; [| split; [| reflexivity]].
  - destruct (Stats_init clk (Some data) true) as [s | e] eqn:E; [| eauto].
    apply Stats_init_inv in E as [E _]. discriminate E.
  - unfold StatsStore.Stats_init. intros s H.
    repeat match type of H with
           | bind ?m _ = Ok _ => destruct m; cbn [bind] in H |- *; [| discriminate H]
           end.
    reflexivity.
Qed.

End ConstructorFacts.

(** * More on [add_row] *)

(** ** The order of [sort_values] *)

Lemma cell_compare_antisym a b : cell_compare b a = CompOpp (cell_compare a b).
Proof.
  destruct a, b; cbn; try reflexivity.
  - apply Z.compare_antisym.
  - symmetry. apply Qcompare_antisym.
  - apply String.compare_antisym.
  - apply Z.compare_antisym.
  - apply Z.compare_antisym.
  - apply Z.compare_antisym.
Qed.

Lemma row_compare_antisym js r1 r2 : row_compare js r2 r1 = CompOpp (row_compare js r1 r2).
Proof.
  induction js as [| j js IH]; cbn; [reflexivity |].
  rewrite (cell_compare_antisym (cell_at j r1) (cell_at j r2)).
  destruct (cell_compare (cell_at j r1) (cell_at j r2)); cbn; auto.
Qed.

Lemma row_leb_total js r1 r2 : row_leb js r1 r2 = false -> row_leb js r2 r1 = true.
Proof.
  unfold row_leb. rewrite (row_compare_antisym js (snd r1) (snd r2)).
  destruct (row_compare js (snd r1) (snd r2)); cbn; congruence.
Qed.

Lemma insert_row_HdRel js a r rs :
  row_leb js a r = true ->
  HdRel (fun r1 r2 => row_leb js r1 r2 = true) a rs ->
  HdRel (fun r1 r2 => row_leb js r1 r2 = true) a (insert_row js r rs).
Proof.
  intros Har Hhd. destruct rs as [| r' rs]; cbn; [now constructor |].
  destruct (row_leb js r r'); constructor; auto. now inversion Hhd.
Qed.

Lemma insert_row_Sorted js r rs :
  Sorted (fun r1 r2 => row_leb js r1 r2 = true) rs ->
  Sorted (fun r1 r2 => row_leb js r1 r2 = true) (insert_row js r rs).
Proof.
  induction 1 as [| r' rs Hs IH Hhd]; cbn; [repeat constructor |].
  destruct (row_leb js r r') eqn:E.
  - constructor; [constructor; assumption | constructor; exact E].
  - constructor; [exact IH |]. apply insert_row_HdRel; [| exact Hhd].
    now apply row_leb_total.
Qed.

Lemma sort_rows_Sorted js rs :
  Sorted (fun r1 r2 => row_leb js r1 r2 = true) (sort_rows js rs).
Proof.
  induction rs as [| r rs IH]; cbn; [constructor | now apply insert_row_Sorted].
Qed.

Lemma insert_row_In js r rs x : In x (insert_row js r rs) <-> x = r \/ In x rs.
Proof.
  induction rs as [| r' rs IH]; cbn; [intuition congruence |].
  destruct (row_leb js r r'); cbn; rewrite ?IH; intuition congruence.
Qed.

Lemma sort_rows_In js rs x : In x (sort_rows js rs) <-> In x rs.
Proof.
  induction rs as [| r rs IH]; cbn; [tauto |]. rewrite insert_row_In, IH. intuition congruence.
Qed.

Lemma insert_row_length js r rs : length (insert_row js r rs) = S (length rs).
Proof.
  induction rs as [| r' rs IH]; cbn; [reflexivity |].
  destruct (row_leb js r r'); cbn; auto.
Qed.

Lemma sort_rows_length js rs : length (sort_rows js rs) = length rs.
Proof.
  induction rs as [| r rs IH]; cbn; [reflexivity |]. now rewrite insert_row_length, IH.
Qed.

(** ** Restoring the dtypes *)

Lemma setitem_existing_names data c s j data' :
  index_of c (column_names data) = Some j ->
  setitem data c s = Ok data' ->
  column_names data' = column_names data /\
  columns data' = set_nth j (c, s_dtype s) (columns data) /\
  rows data' = write_column j (s_values s) (rows data).
Proof.
  intros Hj H. destruct (index_of_Some _ _ _ Hj) as [Hjl Hjn].
  unfold setitem in H. destruct (negb _); [discriminate |]. rewrite Hj in H.
  injection H as <-. cbn [columns rows]. repeat split.
  unfold column_names. cbn [columns]. rewrite map_set_nth. cbn [fst].
  rewrite <- Hjn at 1. now apply set_nth_nth_id.
Qed.

Section AddRowFacts.
Variable is_video_id : string -> bool.
Variable cast_other : dtype -> cell -> result cell.

Local Abbreviation add_row := (add_row is_video_id cast_other).
Local Abbreviation restore_dtypes := (restore_dtypes cast_other).

(** The steps of a call that returns normally. *)
Lemma add_row_Ok_inv clk self video_id timestamp views rating likes dislikes s' :
  add_row clk self video_id timestamp views rating likes dislikes = (s', Ok tt) ->
  exists rating' new_row restored sorted,
    add_row_checks is_video_id clk self video_id timestamp views rating likes dislikes
    = Ok tt /\
    derive_rating rating likes dislikes = Ok rating' /\
    new_row_of [ ("video_id", video_id); ("timestamp", timestamp); ("views", views);
                 ("rating", rating'); ("likes", likes); ("dislikes", dislikes) ]
               (column_names (_data self)) = Ok new_row /\
    restore_dtypes (columns (_data self))
      (loc_setitem cast_other (_data self) (Z.of_nat (length (rows (_data self)))) new_row)
    = (restored, Ok tt) /\
    sort_values restored ["video_id"; "timestamp"] = Ok sorted /\
    s' = mk_stats sorted.
Proof.
  unfold StatsStore.add_row. intros H.
  destruct (add_row_checks _ _ _ _ _ _ _ _ _) as [[] |] eqn:Ec; [| discriminate].
  destruct (derive_rating rating likes dislikes) as [rating' |] eqn:Ed; cbn [bind] in H;
    [| discriminate].
  destruct (new_row_of _ _) as [new_row |] eqn:En; [| discriminate].
  destruct (StatsStore.restore_dtypes _ _ _) as [restored [[] |]] eqn:Er; [| discriminate].
  destruct (sort_values restored _) as [sorted |] eqn:Es; [| discriminate].
  injection H as <-. exists rating', new_row, restored, sorted.
  repeat split; first [reflexivity | assumption].
Qed.

(** X9: after every [add_row] that returns normally the rows of the store
    ascend by ([video_id], [timestamp]). *)
Theorem add_row_sorted clk self video_id timestamp views rating likes dislikes s' :
  add_row clk self video_id timestamp views rating likes dislikes = (s', Ok tt) ->
  (exists js, positions ["video_id"; "timestamp"] (column_names (_data s')) = Ok js /\
              Sorted (fun r1 r2 => row_leb js r1 r2 = true) (rows (_data s'))) /\
  (column_names (_data s') = expected_names -> sorted_by_pair s').
Proof.
  intros H. destruct (add_row_Ok_inv _ _ _ _ _ _ _ _ _ H)
    as (rating' & new_row & restored & sorted & _ & _ & _ & _ & Hs & ->).
  unfold sort_values in Hs.
  destruct (positions _ (column_names restored)) as [js |] eqn:Ep; cbn [bind] in Hs;
    [| discriminate].
  destruct (existsb _ js); cbn [raise_if bind] in Hs; [discriminate |].
  injection Hs as <-. cbn [_data rows].
  assert (Hn : column_names (mk_frame (columns restored) (sort_rows js (rows restored)))
               = column_names restored) by reflexivity.
  split.
  - exists js. rewrite Hn. split; [exact Ep | apply sort_rows_Sorted].
  - rewrite Hn. intros Hc. rewrite Hc in Ep. cbn in Ep. injection Ep as <-.
    unfold sorted_by_pair. cbn [_data rows]. apply sort_rows_Sorted.
Qed.

(** The cells of a new row are fitted to the columns under their names. *)
Lemma fit_row_names cols : forall new_row,
  map fst (fst (fit_row cast_other cols new_row)) = map fst cols.
Proof.
  induction cols as [| [k d] cols IH]; intros new_row; [reflexivity |].
  destruct new_row as [| c cs]; [reflexivity |]. cbn [fit_row].
  destruct (fit_cell cast_other d c) as [d' c'].
  specialize (IH cs). destruct (fit_row cast_other cols cs) as [cols2 cs2].
  cbn [fst map] in *. now rewrite IH.
Qed.

Lemma loc_setitem_names data label new_row :
  column_names (loc_setitem cast_other data label new_row) = column_names data.
Proof.
  unfold loc_setitem, column_names. pose proof (fit_row_names (columns data) new_row) as H.
  destruct (fit_row cast_other (columns data) new_row) as [cols cells].
  now destruct (existsb _ _).
Qed.

Lemma loc_setitem_labels data label new_row :
  map fst (rows (loc_setitem cast_other data label new_row))
  = if existsb (fun r => fst r =? label) (rows data)
    then map fst (rows data) else (map fst (rows data) ++ [label])%list.
Proof.
  unfold loc_setitem. destruct (fit_row cast_other (columns data) new_row) as [cols cells].
  destruct (existsb _ _); cbn [rows].
  - rewrite map_map. apply map_ext_in. intros r _.
    destruct (fst r =? label) eqn:E; [apply Z.eqb_eq in E; now rewrite E | reflexivity].
  - now rewrite map_app.
Qed.

(** A column written under its name stands where it stood, and the other
    columns stay. *)
Lemma set_nth_named (l : list (string * dtype)) k v j :
  index_of k (map fst l) = Some j ->
  In (k, v) (set_nth j (k, v) l) /\
  forall y, fst y <> k -> In y l -> In y (set_nth j (k, v) l).
Proof.
  revert j. induction l as [| z l IH]; intros j Hj; cbn [map index_of] in Hj; [discriminate |].
  destruct (String.eqb (fst z) k) eqn:E.
  - injection Hj as <-. cbn [set_nth]. split; [now left |].
    intros y Hy [-> | Hin]; [| now right]. apply String.eqb_eq in E. contradiction.
  - destruct (index_of k (map fst l)) as [j' |]; cbn [option_map] in Hj; [| discriminate].
    injection Hj as <-. destruct (IH j' eq_refl) as [H1 H2]. cbn [set_nth]. split; [now right |].
    intros y Hy [-> | Hin]; [now left | right; now apply H2].
Qed.

(** When every cast succeeds, every column has the dtype it is restored
    to, under the name and with the labels it had. *)
Lemma restore_dtypes_columns old : forall data restored,
  restore_dtypes old data = (restored, Ok tt) ->
  NoDup (map fst old) ->
  column_names restored = column_names data /\
  map fst (rows restored) = map fst (rows data) /\
  (forall k v, In (k, v) old -> In (k, v) (columns restored)) /\
  (forall y, ~ In (fst y) (map fst old) -> In y (columns data) -> In y (columns restored)).
Proof.
  induction old as [| [k v] rest IH]; intros data restored H Hnd.
  - cbn in H. injection H as <-. repeat split; auto. intros k v [].
  - cbn [StatsStore.restore_dtypes] in H.
    destruct (getitem data k) as [s |] eqn:Hg; cbn [bind] in H; [| discriminate].
    unfold astype, pd_astype in H.
    destruct (cast_cells cast_other v (s_values s)) as [vals |]; cbn [bind] in H;
      [| discriminate].
    destruct (setitem data k _) as [data' |] eqn:Hs; [| discriminate].
    assert (Hj : exists j, index_of k (column_names data) = Some j).
    { unfold getitem in Hg. destruct (index_of k (column_names data)); [eauto | discriminate]. }
    destruct Hj as [j Hj].
    destruct (setitem_existing_names _ _ _ _ _ Hj Hs) as (Hn' & Hc' & _).
    cbn [s_dtype] in Hc'. cbn [map fst] in Hnd. apply NoDup_cons in Hnd as [Hk Hnd].
    rewrite list_elem_of_In in Hk.
    destruct (set_nth_named (columns data) k v j Hj) as [Hset Hother].
    destruct (IH data' restored H Hnd) as (Hn & Hl & Hin & Hout).
    split; [congruence |].
    split; [rewrite Hl; exact (setitem_labels _ _ _ _ Hs) |].
    split.
    + intros k' v' [[= <- <-] | Hi]; [| now apply Hin].
      apply Hout; [exact Hk | rewrite Hc'; exact Hset].
    + intros y Hy Hi. apply Hout; [intros Hr; apply Hy; now right |].
      rewrite Hc'. apply Hother; [| exact Hi]. intros E. apply Hy. now left.
Qed.

(** Two lists of columns with the same distinct names agree as soon as one
    holds the columns of the other. *)
Lemma columns_determined (l1 l2 : list (string * dtype)) :
  map fst l1 = map fst l2 -> NoDup (map fst l1) ->
  (forall y, In y l1 -> In y l2) -> l2 = l1.
Proof.
  revert l2. induction l1 as [| [k v] l1 IH]; intros [| [k' v'] l2] Hm Hnd Hin;
    try discriminate Hm; [reflexivity |].
  cbn [map fst] in Hm, Hnd. injection Hm as <- Hm. apply NoDup_cons in Hnd as [Hk Hnd].
  rewrite list_elem_of_In in Hk.
  assert (v' = v) as ->.
  { destruct (Hin (k, v) (or_introl eq_refl)) as [[= ->] | Hi]; [reflexivity |].
    exfalso. apply Hk. rewrite Hm. apply in_map_iff. now exists (k, v). }
  f_equal. apply IH; [exact Hm | exact Hnd |].
  intros y Hy. destruct (Hin y (or_intror Hy)) as [<- | Hi]; [| exact Hi].
  exfalso. apply Hk. apply in_map_iff. now exists (k, v).
Qed.

(** The frame of a call that returns normally, before it is sorted. *)
Lemma add_row_restored self label new_row restored :
  NoDup (column_names (_data self)) ->
  restore_dtypes (columns (_data self)) (loc_setitem cast_other (_data self) label new_row)
  = (restored, Ok tt) ->
  columns restored = columns (_data self) /\
  map fst (rows restored)
  = map fst (rows (loc_setitem cast_other (_data self) label new_row)).
Proof.
  intros Hnd Hr. apply restore_dtypes_columns in Hr as (Hn & Hl & Hin & _); [| exact Hnd].
  split; [| exact Hl].
  apply columns_determined; [| exact Hnd | exact (fun y => match y with (k, v) => Hin k v end)].
  fold (column_names (_data self)). fold (column_names restored).
  now rewrite Hn, loc_setitem_names.
Qed.

(** X10: an [add_row] that returns normally leaves the store with the
    columns it had, names and dtypes, in the same order (the column names
    being distinct). *)
Theorem add_row_keeps_columns clk self video_id timestamp views rating likes dislikes s' :
  NoDup (column_names (_data self)) ->
  add_row clk self video_id timestamp views rating likes dislikes = (s', Ok tt) ->
  columns (_data s') = columns (_data self).
Proof.
  intros Hnd H. destruct (add_row_Ok_inv _ _ _ _ _ _ _ _ _ H)
    as (rating' & new_row & restored & sorted & _ & _ & _ & Hr & Hs & ->).
  apply (add_row_restored _ _ _ _ Hnd) in Hr as [Hc _].
  unfold sort_values in Hs.
  destruct (positions _ _); cbn [bind] in Hs; [| discriminate].
  destruct (existsb _ _); cbn [raise_if bind] in Hs; [discriminate |].
  injection Hs as <-. cbn [_data columns]. exact Hc.
Qed.

(** X11: an [add_row] that returns normally adds one row when no row of
    the store is labelled with the number of its rows; when one is, the
    number of rows stays: the new row is written over the rows of that
    label. *)
Theorem add_row_length clk self video_id timestamp views rating likes dislikes s' :
  NoDup (column_names (_data self)) ->
  add_row clk self video_id timestamp views rating likes dislikes = (s', Ok tt) ->
  Stats_len s'
  = if existsb (fun r => fst r =? Z.of_nat (Stats_len self)) (rows (_data self))
    then Stats_len self else S (Stats_len self).
Proof.
  intros Hnd H. destruct (add_row_Ok_inv _ _ _ _ _ _ _ _ _ H)
    as (rating' & new_row & restored & sorted & _ & _ & _ & Hr & Hs & ->).
  apply (add_row_restored _ _ _ _ Hnd) in Hr as [_ Hl].
  unfold sort_values in Hs.
  destruct (positions _ _) as [js |]; cbn [bind] in Hs; [| discriminate].
  destruct (existsb _ js); cbn [raise_if bind] in Hs; [discriminate |].
  injection Hs as <-. unfold Stats_len. cbn [_data rows].
  rewrite sort_rows_length. apply (f_equal (@length Z)) in Hl.
  rewrite loc_setitem_labels in Hl. rewrite length_map in Hl. rewrite Hl.
  destruct (existsb _ (rows (_data self))).
  - apply length_map.
  - rewrite length_app, length_map. cbn. lia.
Qed.

End AddRowFacts.

(** ** The row that [add_row] stores *)

Section AddRowStored.
Variable is_video_id : string -> bool.
Variable cast_other : dtype -> cell -> result cell.

Local Abbreviation add_row := (add_row is_video_id cast_other).
Local Abbreviation restore_dtypes := (restore_dtypes cast_other).

(** A cast of a column, seen from one of its rows. *)
Lemma cast_cells_row v j vals lbl r rs :
  cast_cells cast_other v (map (fun r => cell_at j (snd r)) rs) = Ok vals ->
  In (lbl, r) rs ->
  exists c', cast_cell cast_other v (cell_at j r) = Ok c' /\
             In (lbl, set_nth j c' r) (write_column j vals rs).
Proof.
  revert vals. induction rs as [| [lbl0 r0] rs IH]; intros vals H Hi; [destruct Hi |].
  cbn [map cast_cells snd] in H.
  destruct (cast_cell cast_other v (cell_at j r0)) as [c0 |] eqn:E0; cbn [bind] in H;
    [| discriminate].
  destruct (cast_cells cast_other v _) as [vals' |]; cbn [bind] in H; [| discriminate].
  injection H as <-. cbn [write_column].
  destruct Hi as [[= -> ->] | Hi].
  - exists c0. split; [exact E0 | now left].
  - destruct (IH vals' eq_refl Hi) as (c' & Hc & Hin). exists c'. split; [exact Hc | now right].
Qed.

(** A row whose cells the casts leave alone comes out of the restoring as it
    went in, and every cast of one of its cells succeeded. *)
Lemma restore_dtypes_keeps_row old : forall data restored lbl r,
  restore_dtypes old data = (restored, Ok tt) ->
  In (lbl, r) (rows data) ->
  (forall k v j, In (k, v) old -> index_of k (column_names data) = Some j ->
     (j < length r)%nat /\
     forall c', cast_cell cast_other v (cell_at j r) = Ok c' -> c' = cell_at j r) ->
  In (lbl, r) (rows restored) /\
  (forall k v j, In (k, v) old -> index_of k (column_names data) = Some j ->
     cast_cell cast_other v (cell_at j r) = Ok (cell_at j r)).
Proof.
  induction old as [| [k v] rest IH]; intros data restored lbl r H Hi Hcast.
  - cbn in H. injection H as <-. split; [exact Hi | intros k v j []].
  - cbn [StatsStore.restore_dtypes] in H.
    destruct (getitem data k) as [s |] eqn:Hg; cbn [bind] in H; [| discriminate].
    unfold getitem in Hg.
    destruct (index_of k (column_names data)) as [j |] eqn:Hj; [| discriminate].
    injection Hg as <-.
    unfold astype, pd_astype in H. cbn [s_values] in H.
    destruct (cast_cells cast_other v _) as [vals |] eqn:Ec; cbn [bind] in H; [| discriminate].
    destruct (setitem data k _) as [data' |] eqn:Hs; [| discriminate].
    destruct (setitem_existing_names _ _ _ _ _ Hj Hs) as (Hn' & _ & Hr').
    cbn [s_values] in Hr'.
    destruct (cast_cells_row _ _ _ _ _ _ Ec Hi) as (c' & Hc & Hin).
    destruct (Hcast k v j (or_introl eq_refl) Hj) as [Hlen Hid].
    pose proof (Hid c' Hc) as ->. change (cell_at j r) with (nth j r NA) in Hin.
    rewrite set_nth_nth_id in Hin by exact Hlen.
    destruct (IH data' restored lbl r H) as [Hkept Hall].
    + rewrite Hr'. exact Hin.
    + intros k' v' j' Hi' Hj'. rewrite Hn' in Hj'. apply (Hcast k' v' j'); [now right | exact Hj'].
    + split; [exact Hkept |].
      intros k' v' j' [[= <- <-] | Hi'] Hj'.
      * rewrite Hj in Hj'. injection Hj' as <-. exact Hc.
      * apply (Hall k' v' j' Hi'). now rewrite Hn'.
Qed.

(** The row that [loc_setitem] writes. *)
Lemma loc_setitem_In data label new_row :
  In (label, snd (fit_row cast_other (columns data) new_row))
     (rows (loc_setitem cast_other data label new_row)).
Proof.
  unfold loc_setitem. destruct (fit_row cast_other (columns data) new_row) as [cols cells].
  cbn [snd]. destruct (existsb _ (rows data)) eqn:E; cbn [rows].
  - apply existsb_exists in E as (r & Hr & Hl). apply in_map_iff.
    exists r. rewrite Hl. auto.
  - apply in_or_app. right. now left.
Qed.

(** X12: on a store with the columns of [Stats()], a call of [add_row]
    without [rating], with integer [views], [likes] and [dislikes], that
    returns normally leaves in the store the row of its arguments, the three
    counts as the floats nearest to them, with the rating the float nearest
    to [5 * likes / (likes + dislikes)]. *)
Theorem add_row_stores_derived_rating clk self vid ts views l d s' :
  columns (_data self) = columns (_data empty_store) ->
  add_row clk self (VStr vid) (VDatetime ts) (VInt views) VNone (VInt l) (VInt d)
  = (s', Ok tt) ->
  exists label,
    In (label, [CStr vid; CTimestamp ts; CFloat (round_double (inject_Z views));
                CFloat (round_double (inject_Z (5 * l) / inject_Z (l + d)));
                CFloat (round_double (inject_Z l)); CFloat (round_double (inject_Z d))])
       (rows (_data s')).
Proof.
  intros Hcols H. destruct (add_row_Ok_inv _ _ _ _ _ _ _ _ _ _ _ H)
    as (rating' & new_row & restored & sorted & Hchk & Hd & Hnew & Hr & Hs & ->).
  assert (Hnames : column_names (_data self) = expected_names).
  { unfold column_names. rewrite Hcols. reflexivity. }
  (* what the checks say *)
  unfold add_row_checks in Hchk. cbn [bind] in Hchk.
  destruct (is_video_id vid); cbn [negb raise_if bind] in Hchk; [| discriminate].
  assert (Hnaive : is_aware ts = false).
  { destruct (is_aware ts) eqn:E; [| reflexivity].
    rewrite (dt_gt_aware_naive _ _ E) in Hchk. discriminate Hchk. }
  clear Hchk.
  (* the rating *)
  assert (Hsum : l + d <> 0).
  { unfold derive_rating in Hd. cbn [is_none andb orb negb as_int] in Hd.
    destruct (l + d =? 0) eqn:E0; [discriminate |]. now apply Z.eqb_neq in E0. }
  unfold derive_rating in Hd. cbn [is_none andb orb negb as_int] in Hd.
  apply Z.eqb_neq in Hsum. rewrite Hsum in Hd. injection Hd as <-.
  (* the new row, fitted to the columns *)
  rewrite Hnames in Hnew. cbn in Hnew. injection Hnew as <-.
  exists (Z.of_nat (length (rows (_data self)))).
  unfold sort_values in Hs.
  destruct (positions _ _) as [js |]; cbn [bind] in Hs; [| discriminate].
  destruct (existsb _ js); cbn [raise_if bind] in Hs; [discriminate |].
  injection Hs as <-. cbn [_data rows]. apply sort_rows_In.
  pose proof (loc_setitem_In (_data self) (Z.of_nat (length (rows (_data self))))
                [CStr vid; CTimestamp ts; CInt views;
                 CFloat (round_double (inject_Z (5 * l) / inject_Z (l + d)));
                 CInt l; CInt d]) as Hin.
  pose proof (loc_setitem_names cast_other (_data self)
                (Z.of_nat (length (rows (_data self))))
                [CStr vid; CTimestamp ts; CInt views;
                 CFloat (round_double (inject_Z (5 * l) / inject_Z (l + d)));
                 CInt l; CInt d]) as Hn2.
  rewrite Hnames in Hn2. rewrite Hcols in Hin.
  cbn [empty_store _data columns fit_row] in Hin. unfold fit_cell in Hin.
  cbn [cast_cell] in Hin. rewrite Hnaive in Hin.
  destruct (ns_in_bounds ts) eqn:Eb, (float_overflows views) eqn:Ev,
    (float_overflows l) eqn:El, (float_overflows d) eqn:Ed; cbn [snd] in Hin;
    (destruct (restore_dtypes_keeps_row _ _ _ _ _ Hr Hin) as [Hkept Hall];
     [ rewrite Hn2, Hcols; intros k v j Hi Hj;
       cbn in Hi; destruct Hi as [E | [E | [E | [E | [E | [E | []]]]]]];
       injection E as <- <-; cbn in Hj; injection Hj as <-;
       (split; [cbn; lia |]); cbn [snd cell_at nth cast_cell];
       rewrite ?Hnaive, ?Eb, ?Ev, ?El, ?Ed;
       intros c' Hc'; try discriminate Hc'; now injection Hc' as <-
     | rewrite Hn2, Hcols in Hall ]);
    try exact Hkept; exfalso;
    pose proof (Hall "timestamp" np_datetime64 1%nat ltac:(cbn; tauto) eq_refl) as H1;
    pose proof (Hall "views" np_float64 2%nat ltac:(cbn; tauto) eq_refl) as H2;
    pose proof (Hall "likes" np_float64 4%nat ltac:(cbn; tauto) eq_refl) as H4;
    pose proof (Hall "dislikes" np_float64 5%nat ltac:(cbn; tauto) eq_refl) as H5;
    cbn [cell_at nth cast_cell] in H1, H2, H4, H5;
    rewrite ?Hnaive, ?Eb in H1; rewrite ?Ev in H2; rewrite ?El in H4; rewrite ?Ed in H5;
    first [discriminate H1 | discriminate H2 | discriminate H4 | discriminate H5].
Qed.

(** X13: a call of [add_row] without [rating] and with [likes] and
    [dislikes] both 0, whose arguments pass every check, raises
    [ZeroDivisionError] and leaves the store as it was. *)
Theorem add_row_no_votes clk self video_id timestamp views :
  add_row_checks is_video_id clk self video_id timestamp views VNone (VInt 0) (VInt 0)
  = Ok tt ->
  add_row clk self video_id timestamp views VNone (VInt 0) (VInt 0)
  = (self, Raise ZeroDivisionError).
Proof. intros H. unfold StatsStore.add_row. rewrite H. reflexivity. Qed.

End AddRowStored.

(** * More on the records *)

(** ** The fields of a [VideoInfo] *)

Lemma str_truthy_nonempty s : str_truthy s = true <-> s <> "".
Proof.
  unfold str_truthy. rewrite negb_true_iff. split.
  - intros H ->. discriminate.
  - intros H. destruct (String.eqb s "") eqn:E; [| reflexivity].
    apply String.eqb_eq in E. contradiction.
Qed.

Lemma for_each_keywords_inv l :
  for_each check_keyword l = Ok tt ->
  Forall (fun x => exists s, x = VStr s /\ s <> "") l.
Proof.
  induction l as [| k l IH]; cbn; intros H; [constructor |].
  destruct k; cbn in H; try discriminate.
  destruct (negb (str_truthy s)) eqn:E; cbn in H; [discriminate |].
  apply negb_false_iff, str_truthy_nonempty in E.
  constructor; eauto.
Qed.

Section VideoInvariant.
Variable validators_url : string -> bool.

Ltac video_goal :=
  cbn [v_immutable v_channel_id v_channel_name _video_id _video_title _publish_date
       v_last_updated _duration _description _keywords _thumbnail_url hasattr].

Ltac unfold_setters H :=
  unfold VideoInfo_set_channel_id, VideoInfo_set_channel_name, VideoInfo_set_description,
    VideoInfo_set_duration, VideoInfo_set_keywords, VideoInfo_set_last_updated,
    VideoInfo_set_publish_date, VideoInfo_set_thumbnail_url, VideoInfo_set_video_id,
    VideoInfo_set_video_title in H.

Ltac known_dates :=
  repeat match goal with
         | E : _publish_date _ = _ |- _ => rewrite ?E; clear E
         | E : v_last_updated _ = _ |- _ => rewrite ?E; clear E
         end.

Ltac setattr_cases H :=
  unfold VideoInfo_setattr;
  repeat match goal with
         | |- (if String.eqb ?k ?lit then _ else _) = _ -> _ =>
             let E := fresh "Ek" in destruct (String.eqb k lit) eqn:E
         end; intros H; try discriminate H;
  unfold_setters H; repeat run_step H.

Lemma setattr_valid clk self key val self' :
  video_valid validators_url self ->
  VideoInfo_setattr validators_url clk self key val = Ok self' ->
  video_valid validators_url self'.
Proof.
  intros (H1 & H2 & H3 & H4 & H5 & H6 & H7). setattr_cases H.
  all: unfold video_valid; video_goal; repeat apply conj; try assumption.
  all: intros ? [= <-].
  all: repeat match goal with
         | E : _ || _ = false |- _ => apply orb_false_iff in E as [? ?]
         | E : negb _ = false |- _ => apply negb_false_iff in E
         | E : (_ =? _)%nat = true |- _ => apply Nat.eqb_eq in E
         | E : (_ <? _) = false |- _ => apply Z.ltb_ge in E
         | E : str_truthy _ = true |- _ => apply str_truthy_nonempty in E
         | E : for_each check_keyword _ = Ok ?u |- _ =>
             destruct u; apply for_each_keywords_inv in E
         end; eauto.
Qed.

Lemma setattr_slots clk self key val self' :
  VideoInfo_setattr validators_url clk self key val = Ok self' ->
  is_ok (VideoInfo_getattr self' key) = true /\
  forall k, is_ok (VideoInfo_getattr self k) = true ->
            is_ok (VideoInfo_getattr self' k) = true.
Proof.
  setattr_cases H.
  all: split; [unfold VideoInfo_getattr; rewrite ?Ek, ?Ek0, ?Ek1, ?Ek2, ?Ek3, ?Ek4, ?Ek5,
                 ?Ek6, ?Ek7, ?Ek8; reflexivity |].
  all: intros k; unfold VideoInfo_getattr; video_goal; known_dates;
    repeat match goal with
           | |- context [if String.eqb k ?lit then _ else _] => destruct (String.eqb k lit)
           end; auto.
Qed.

Lemma setattr_other_fields clk self key val self' :
  VideoInfo_setattr validators_url clk self key val = Ok self' ->
  forall k, k <> key -> VideoInfo_getattr self' k = VideoInfo_getattr self k.
Proof.
  setattr_cases H.
  all: intros k Hne; unfold VideoInfo_getattr; video_goal; known_dates.
  all: repeat match goal with
         | E : String.eqb _ _ = false |- _ => clear E
         | E : String.eqb ?x _ = true |- _ => apply String.eqb_eq in E; subst x
         end.
  all: repeat match goal with
         | |- context [if String.eqb ?x ?lit then _ else _] =>
             destruct (String.eqb_spec x lit) as [-> |];
             cbn [String.eqb Ascii.eqb Bool.eqb]
         end; try reflexivity; try congruence.
Qed.

Lemma video_complete_keys v :
  video_complete v <-> (forall k, In k video_keys -> is_ok (VideoInfo_getattr v k) = true).
Proof.
  unfold video_complete. split.
  - intros (H1 & H2 & H3 & H4 & H5 & H6 & H7 & H8 & H9 & H10) k Hk.
    destruct v. cbn [v_immutable v_channel_id v_channel_name _video_id _video_title
      _publish_date v_last_updated _duration _description _keywords _thumbnail_url] in *.
    repeat match goal with
           | Hx : hasattr ?o = true |- _ => destruct o; [clear Hx | discriminate Hx]
           end.
    cbn in Hk. repeat destruct Hk as [<- | Hk]; try destruct Hk; reflexivity.
  - intros H. destruct v as [imm o1 o2 o3 o4 o5 o6 o7 o8 o9 o10].
    cbn [v_immutable v_channel_id v_channel_name _video_id _video_title
      _publish_date v_last_updated _duration _description _keywords _thumbnail_url].
    assert (Hk : forall k, In k video_keys -> In k video_keys) by auto.
    repeat apply conj;
      match goal with
      | |- hasattr ?o = true =>
          destruct o; [reflexivity | exfalso]
      end.
    all: [> specialize (H "channel_id") | specialize (H "channel_name")
          | specialize (H "video_id") | specialize (H "video_title")
          | specialize (H "publish_date") | specialize (H "last_updated")
          | specialize (H "duration") | specialize (H "description")
          | specialize (H "keywords") | specialize (H "thumbnail_url") ].
    all: cbn in H; discriminate H; tauto.
Qed.

Lemma setattr_chain clk self key val self' ks b :
  video_valid validators_url self ->
  (forall k, In k ks -> is_ok (VideoInfo_getattr self k) = true) ->
  v_immutable self = b ->
  VideoInfo_setattr validators_url clk self key val = Ok self' ->
  video_valid validators_url self' /\
  (forall k, In k (key :: ks) -> is_ok (VideoInfo_getattr self' k) = true) /\
  v_immutable self' = b.
Proof.
  intros Hv Hc Hf Hs. destruct (setattr_slots _ _ _ _ _ Hs) as [Hset Hmono].
  split; [eapply setattr_valid; eauto |]. split.
  - intros k [<- | Hk]; auto.
  - rewrite <- Hf. exact (VideoInfo_keeps_flag validators_url clk _ _ _ _ Hs).
Qed.

Lemma init_valid clk a1 a2 a3 a4 a5 a6 a7 a8 a9 a10 imm v :
  VideoInfo_init validators_url clk a1 a2 a3 a4 a5 a6 a7 a8 a9 a10 imm = Ok v ->
  video_valid validators_url v /\ video_complete v /\ imm = VBool (v_immutable v).
Proof.
  unfold VideoInfo_init. intros H.
  destruct imm as [| b | | | | | | | | | |]; try discriminate H. cbn [PropertyDict_init bind] in H.
  set (blank := mk_video b None None None None None None None None None None) in H.
  assert (H0 : video_valid validators_url blank).
  { unfold video_valid, blank. cbn. repeat apply conj; intros ? Hx; discriminate Hx. }
  assert (C0 : forall k, In k [] -> is_ok (VideoInfo_getattr blank k) = true)
    by (intros k []).
  assert (F0 : v_immutable blank = b) by reflexivity.
  repeat match type of H with
         | bind ?m _ = Ok _ =>
             let E := fresh "E" in destruct m eqn:E; cbn [bind] in H; [| discriminate]
         end.
  repeat match goal with
         | Hs : VideoInfo_set_channel_id ?x ?a = Ok ?y |- _ =>
             change (VideoInfo_setattr validators_url clk x "channel_id" a = Ok y) in Hs
         | Hs : VideoInfo_set_channel_name ?x ?a = Ok ?y |- _ =>
             change (VideoInfo_setattr validators_url clk x "channel_name" a = Ok y) in Hs
         | Hs : VideoInfo_set_video_id ?x ?a = Ok ?y |- _ =>
             change (VideoInfo_setattr validators_url clk x "video_id" a = Ok y) in Hs
         | Hs : VideoInfo_set_video_title ?x ?a = Ok ?y |- _ =>
             change (VideoInfo_setattr validators_url clk x "video_title" a = Ok y) in Hs
         | Hs : VideoInfo_set_publish_date ?x ?a = Ok ?y |- _ =>
             change (VideoInfo_setattr validators_url clk x "publish_date" a = Ok y) in Hs
         | Hs : VideoInfo_set_last_updated _ ?x ?a = Ok ?y |- _ =>
             change (VideoInfo_setattr validators_url clk x "last_updated" a = Ok y) in Hs
         | Hs : VideoInfo_set_duration ?x ?a = Ok ?y |- _ =>
             change (VideoInfo_setattr validators_url clk x "duration" a = Ok y) in Hs
         | Hs : VideoInfo_set_description ?x ?a = Ok ?y |- _ =>
             change (VideoInfo_setattr validators_url clk x "description" a = Ok y) in Hs
         | Hs : VideoInfo_set_keywords ?x ?a = Ok ?y |- _ =>
             change (VideoInfo_setattr validators_url clk x "keywords" a = Ok y) in Hs
         | Hs : VideoInfo_set_thumbnail_url _ ?x ?a = Ok ?y |- _ =>
             change (VideoInfo_setattr validators_url clk x "thumbnail_url" a = Ok y) in Hs
         end.
  repeat match goal with
         | Hs : VideoInfo_setattr _ _ ?x _ _ = Ok _,
           Hv : video_valid _ ?x,
           Hc : forall k, In k ?ks -> is_ok (VideoInfo_getattr ?x k) = true,
           Hf : v_immutable ?x = b |- _ =>
             destruct (setattr_chain _ _ _ _ _ ks b Hv Hc Hf Hs) as (? & ? & ?);
             clear Hs Hv Hc Hf
         end.
  split; [assumption |]. split; [| congruence].
  apply video_complete_keys. intros k Hk.
  match goal with Hc : forall k, In k _ -> _ |- _ => apply Hc end.
  cbn in Hk |- *. tauto.
Qed.

Lemma reachable_valid v :
  VideoInfo_reachable validators_url v -> video_valid validators_url v /\ video_complete v.
Proof.
  induction 1 as [clk a1 a2 a3 a4 a5 a6 a7 a8 a9 a10 imm v H | clk v key val v' _ IH H
                   | clk v key val v' _ IH H].
  - destruct (init_valid _ _ _ _ _ _ _ _ _ _ _ _ _ H) as (Hv & Hc & _). auto.
  - unfold VideoInfo_setitem in H. destruct key; try discriminate.
    destruct (negb _); [discriminate |]. destruct IH as [Hv Hc]. split.
    + eapply setattr_valid; eauto.
    + rewrite video_complete_keys in Hc |- *. intros k Hk.
      apply (proj2 (setattr_slots _ _ _ _ _ H)). auto.
  - destruct IH as [Hv Hc]. split.
    + eapply setattr_valid; eauto.
    + rewrite video_complete_keys in Hc |- *. intros k Hk.
      apply (proj2 (setattr_slots _ _ _ _ _ H)). auto.
Qed.

(** X14: every [VideoInfo] the constructor returns, and every one reached
    from it by successful assignments, holds a value in each of its ten
    fields, and each value is one its setter accepts: a channel id of 24
    characters starting with [UC], a video id of 11 characters, a name and a
    title that are not empty, a duration that is not negative, a thumbnail
    address the validator accepts, and keywords that are non-empty strings,
    kept as a tuple when the record is immutable and as a list when it is
    not. *)
Theorem VideoInfo_fields_valid v :
  VideoInfo_reachable validators_url v -> video_valid validators_url v /\ video_complete v.
Proof. apply reachable_valid. Qed.

(** X15: an item assignment to a [VideoInfo] that returns normally changes
    the value read under its own key only: every other key reads as
    before. *)
Theorem VideoInfo_setitem_other_keys clk v key val v' :
  VideoInfo_setitem validators_url clk v (VStr key) val = Ok v' ->
  forall k, k <> key -> VideoInfo_getitem v' (VStr k) = VideoInfo_getitem v (VStr k).
Proof.
  unfold VideoInfo_setitem, VideoInfo_getitem. intros H k Hne.
  destruct (negb (existsb (String.eqb key) video_keys)); [discriminate |].
  destruct (negb (existsb (String.eqb k) video_keys)); [reflexivity |].
  eapply setattr_other_fields; eauto.
Qed.

Lemma all_strings_eq l :
  Forall (fun x => exists s, x = VStr s /\ s <> "") l -> value_eqb (VList l) (VList l) = true.
Proof.
  induction 1 as [| x l (s & -> & _) _ IH]; [reflexivity |].
  cbn in IH |- *. rewrite String.eqb_refl. exact IH.
Qed.

Lemma value_eqb_keywords b l :
  Forall (fun x => exists s, x = VStr s /\ s <> "") l ->
  value_eqb (if b : bool then VTuple l else VList l) (if b then VTuple l else VList l) = true.
Proof. intros H. destruct b; apply (all_strings_eq l H). Qed.

(** X16: every [VideoInfo] the constructor returns, or reached from it by
    successful assignments, is equal to itself by [__eq__]. *)
Theorem VideoInfo_eq_refl v :
  VideoInfo_reachable validators_url v ->
  exists items, VideoInfo_items v = Ok items /\ VideoInfo_eq v items = Ok true.
Proof.
  intros Hr. destruct (reachable_valid v Hr) as [Hv Hc].
  destruct Hv as (_ & _ & _ & _ & _ & Hk & _). unfold video_complete in Hc.
  destruct v as [imm o1 o2 o3 o4 o5 o6 o7 o8 o9 o10].
  cbn [v_immutable v_channel_id v_channel_name _video_id _video_title
      _publish_date v_last_updated _duration _description _keywords _thumbnail_url] in *.
  destruct Hc as (H1 & H2 & H3 & H4 & H5 & H6 & H7 & H8 & H9 & H10).
  repeat match goal with
         | Hx : hasattr ?o = true |- _ => destruct o; [clear Hx | discriminate Hx]
         end.
  destruct (Hk _ eq_refl) as (l & -> & Hl).
  eexists. split; [reflexivity |].
  unfold VideoInfo_eq, mapping_eq. cbn [video_keys length Nat.eqb negb].
  cbn [items_eq video_keys VideoInfo_getattr String.eqb Ascii.eqb Bool.eqb v_immutable v_channel_id
       v_channel_name _video_id _video_title _publish_date v_last_updated _duration
       _description _keywords _thumbnail_url read_slot bind find fst snd].
  cbn [value_eqb]. rewrite !String.eqb_refl, !dt_eq_refl, Z.eqb_refl.
  rewrite (value_eqb_keywords imm l Hl). reflexivity.
Qed.

(** X17: an immutable [VideoInfo] and a mutable one are never equal by
    [__eq__], in either direction, whatever their fields hold: the keywords
    of the one are a tuple, of the other a list. *)
Theorem VideoInfo_eq_across_flags v1 v2 items1 items2 :
  VideoInfo_reachable validators_url v1 -> VideoInfo_reachable validators_url v2 ->
  v_immutable v1 = true -> v_immutable v2 = false ->
  VideoInfo_items v1 = Ok items1 -> VideoInfo_items v2 = Ok items2 ->
  VideoInfo_eq v1 items2 = Ok false /\ VideoInfo_eq v2 items1 = Ok false.
Proof.
  intros Hr1 Hr2 Hf1 Hf2 Hi1 Hi2.
  destruct (reachable_valid v1 Hr1) as [(_ & _ & _ & _ & _ & Hk1 & _) Hc1].
  destruct (reachable_valid v2 Hr2) as [(_ & _ & _ & _ & _ & Hk2 & _) Hc2].
  unfold video_complete in Hc1, Hc2.
  destruct v1 as [imm1 a1 a2 a3 a4 a5 a6 a7 a8 a9 a10].
  destruct v2 as [imm2 b1 b2 b3 b4 b5 b6 b7 b8 b9 b10].
  cbn [v_immutable v_channel_id v_channel_name _video_id _video_title
      _publish_date v_last_updated _duration _description _keywords _thumbnail_url] in *.
  subst imm1 imm2.
  destruct Hc1 as (? & ? & ? & ? & ? & ? & ? & ? & ? & ?).
  destruct Hc2 as (? & ? & ? & ? & ? & ? & ? & ? & ? & ?).
  repeat match goal with
         | Hx : hasattr ?o = true |- _ => destruct o; [clear Hx | discriminate Hx]
         end.
  destruct (Hk1 _ eq_refl) as (l1 & -> & _). destruct (Hk2 _ eq_refl) as (l2 & -> & _).
  cbn in Hi1, Hi2. injection Hi1 as <-. injection Hi2 as <-.
  unfold VideoInfo_eq, mapping_eq. cbn [video_keys length Nat.eqb negb].
  cbn [items_eq video_keys VideoInfo_getattr String.eqb Ascii.eqb Bool.eqb v_immutable v_channel_id
       v_channel_name _video_id _video_title _publish_date v_last_updated _duration
       _description _keywords _thumbnail_url read_slot bind find fst snd].
  cbn [value_eqb as_number as_int option_map].
  split;
    repeat match goal with
           | |- (if ?c then _ else Ok false) = Ok false => destruct c; [| reflexivity]
           end; reflexivity.
Qed.

End VideoInvariant.

(** ** The [html] field and equality of a [ChannelInfo] *)

Ltac html_raises :=
  unfold HtmlDict_init, HtmlDict_set_about, HtmlDict_set_community,
    HtmlDict_set_featured_channels, HtmlDict_set_videos;
  repeat (progress (rewrite ?andb_false_r; cbn)); reflexivity.

(** [HtmlDict] called with keyword arguments returns a complete record or
    raises [TypeError]. *)
Lemma HtmlDict_init_cases a b c d imm :
  HtmlDict_init a b c d imm = Raise TypeError \/
  exists sa sb sc sd f,
    a = VStr sa /\ b = VStr sb /\ c = VStr sc /\ d = VStr sd /\ imm = VBool f /\
    HtmlDict_init a b c d imm = Ok (mk_html f (Some sa) (Some sb) (Some sc) (Some sd)).
Proof.
  destruct imm as [| f | | | | | | | | | |]; try (left; reflexivity).
  destruct a as [| | | | sa | | | | | | |]; try (left; html_raises).
  destruct b as [| | | | sb | | | | | | |]; try (left; html_raises).
  destruct c as [| | | | sc | | | | | | |]; try (left; html_raises).
  destruct d as [| | | | sd | | | | | | |]; try (left; html_raises).
  right. exists sa, sb, sc, sd, f. repeat split. apply HtmlDict_init_accepts.
Qed.

(** X18: given a plain dictionary, the [html] setter of a [ChannelInfo]
    that may be assigned to either raises [ValueError], whatever went wrong in
    the conversion, or allocates a new [HtmlDict] holding the four strings of
    the dictionary and the flag of the owner, whatever [immutable] the
    dictionary carries. *)
Theorem ChannelInfo_set_html_dict hp self kv :
  c_immutable self && hasattr (_html self) = false ->
  ChannelInfo_set_html hp self (VDict kv) = Raise ValueError \/
  exists a b c d,
    kwarg kv "about" = Some (VStr a) /\ kwarg kv "community" = Some (VStr b) /\
    kwarg kv "featured_channels" = Some (VStr c) /\ kwarg kv "videos" = Some (VStr d) /\
    ChannelInfo_set_html hp self (VDict kv)
    = Ok (mk_channel (c_immutable self) (_channel_id self) (_channel_name self)
            (Some (length hp)) (_last_updated self),
          (hp ++ [mk_html (c_immutable self) (Some a) (Some b) (Some c) (Some d)])%list).
Proof.
  intros Hg. unfold ChannelInfo_set_html. rewrite Hg. cbn [raise_if bind].
  unfold HtmlDict_of_kwargs.
  destruct (negb (forallb _ kv)); [left; reflexivity |].
  destruct (kwarg kv "about") as [a |]; [| left; reflexivity].
  destruct (kwarg kv "community") as [b |]; [| left; reflexivity].
  destruct (kwarg kv "featured_channels") as [c |]; [| left; reflexivity].
  destruct (kwarg kv "videos") as [d |]; [| left; reflexivity].
  destruct (HtmlDict_init_cases a b c d
              (match kwarg kv "immutable" with Some i => i | None => VBool false end))
    as [-> | (sa & sb & sc & sd & f & -> & -> & -> & -> & _ & ->)]; [left; reflexivity |].
  right. exists sa, sb, sc, sd. repeat split. cbn [bind].
  unfold on_object. rewrite list_lookup_middle by reflexivity. cbn.
  match goal with
  | |- context [<[length hp := ?x]> (hp ++ [?h])%list] =>
      pose proof (insert_app_r hp [h] 0 x) as Hi
  end.
  rewrite Nat.add_0_r in Hi. rewrite Hi. reflexivity.
Qed.

(** X19: two [ChannelInfo] records constructed from the same arguments
    are equal by [__eq__] whatever their immutable flags are. *)
Theorem ChannelInfo_eq_ignores_flag clk1 clk2 hp a1 a2 a3 a4 a5 a6 a7 f1 f2 c1 hp1 c2 hp2 :
  ChannelInfo_init clk1 hp a1 a2 a3 a4 a5 a6 a7 (VBool f1) = Ok (c1, hp1) ->
  ChannelInfo_init clk2 hp1 a1 a2 a3 a4 a5 a6 a7 (VBool f2) = Ok (c2, hp2) ->
  exists items, ChannelInfo_items c2 = Ok items /\ ChannelInfo_eq hp2 c1 items = Ok true.
Proof.
  intros H1 H2.
  destruct (ChannelInfo_init_inv _ _ _ _ _ _ _ _ _ _ _ _ H1)
    as (b & s1 & s2 & t & h1 & h2 & h3 & h4 & [= <-] & -> & -> & -> & -> & -> & -> & -> &
        _ & _ & _ & _ & _ & -> & ->).
  destruct (ChannelInfo_init_inv _ _ _ _ _ _ _ _ _ _ _ _ H2)
    as (b' & s1' & s2' & t' & h1' & h2' & h3' & h4' & [= <-] & [= <-] & [= <-] & [= <-] &
        [= <-] & [= <-] & [= <-] & [= <-] & _ & _ & _ & _ & _ & -> & ->).
  eexists. split; [reflexivity |].
  set (h0 := mk_html f1 (Some h1) (Some h2) (Some h3) (Some h4)).
  set (h' := mk_html f2 (Some h1) (Some h2) (Some h3) (Some h4)).
  assert (Hl0 : ((hp ++ [h0]) ++ [h'])%list !! length hp = Some h0).
  { rewrite <- app_assoc. apply list_lookup_middle. reflexivity. }
  assert (Hl1 : ((hp ++ [h0]) ++ [h'])%list !! length (hp ++ [h0])%list = Some h').
  { apply list_lookup_middle. reflexivity. }
  unfold ChannelInfo_eq, mapping_eq. cbn [channel_keys length Nat.eqb negb].
  cbn [items_eq channel_keys ChannelInfo_getattr String.eqb Ascii.eqb Bool.eqb _channel_id
       _channel_name _html _last_updated read_slot bind find fst snd].
  rewrite field_eq_str. cbn [bind]. rewrite field_eq_str. cbn [bind].
  rewrite (field_eq_html _ _ _ _ _ _ _ _ _ Hl0 Hl1). cbn [bind].
  rewrite field_eq_datetime. reflexivity.
Qed.

(** * More on [most_recent] *)

(** ** [most_recent] when labels are positions *)

Section MostRecent.

(** The rows of the store, and the two columns read. *)
Variable rs : list (Z * list cell).
Variable aware : bool.

Hypothesis labels_are_positions : map fst rs = map Z.of_nat (seq 0 (length rs)).
Hypothesis rows_hold :
  Forall (fun r => exists v t, cell_at 0 (snd r) = CStr v /\
                               cell_at 1 (snd r) = CTimestamp t /\ is_aware t = aware) rs.

Lemma iloc_one_label l row : In (l, row) rs -> iloc_one rs l = Ok (l, row).
Proof using labels_are_positions.
  intros Hin. apply In_nth_error in Hin as [i Hi].
  assert (Hlt : (i < length rs)%nat) by (apply nth_error_Some; congruence).
  assert (Hl : l = Z.of_nat i).
  { pose proof (map_nth_error fst _ _ Hi) as Hm. rewrite labels_are_positions in Hm.
    rewrite nth_error_map, nth_error_seq in Hm.
    destruct (Nat.ltb_spec i (length rs)); [| lia]. cbn in Hm. now injection Hm. }
  unfold iloc_one. subst l.
  destruct (Z.ltb_spec (Z.of_nat i) 0); [lia |].
  destruct (Z.ltb_spec (Z.of_nat i) 0); [lia |].
  destruct (Z.leb_spec (Z.of_nat (length rs)) (Z.of_nat i)); [lia |].
  cbn [orb]. rewrite Nat2Z.id, Hi. reflexivity.
Qed.

(** [idxmax] of a group and the row of its largest timestamp are found
    side by side. *)
Lemma idxmax_latest (U : list (Z * list cell)) j members : forall bi br,
  (forall r, In r members -> In r U) ->
  match bi, br with
  | None, None => True
  | Some (l, c), Some row => c = cell_at j row /\ In (l, row) U
  | _, _ => False
  end ->
  match idxmax_from j bi members, latest_row j br members with
  | None, None => True
  | Some (l, c), Some row => c = cell_at j row /\ In (l, row) U
  | _, _ => False
  end.
Proof.
  induction members as [| [l0 r0] members IH]; intros bi br Hsub HR; [exact HR |].
  cbn [idxmax_from latest_row fst snd].
  assert (Hsub' : forall r, In r members -> In r U) by (intros r Hr; apply Hsub; now right).
  destruct (is_na (cell_at j r0)); [now apply IH |].
  destruct bi as [[l c] |], br as [row |]; try contradiction.
  - destruct HR as [-> Hin].
    destruct (cell_compare (cell_at j r0) (cell_at j row)); apply IH; auto.
    split; [reflexivity |]. apply Hsub. now left.
  - apply IH; auto. split; [reflexivity |]. apply Hsub. now left.
Qed.

Lemma idxmax_from_Some j members b : exists p, idxmax_from j (Some b) members = Some p.
Proof.
  revert b. induction members as [| r members IH]; intros b; cbn; [eauto |].
  destruct (is_na _); [apply IH |]. destruct b as [l c].
  destruct (cell_compare _ c); apply IH.
Qed.

Lemma insert_cell_In c ks x : In x (insert_cell c ks) <-> x = c \/ In x ks.
Proof.
  induction ks as [| k ks IH]; cbn; [intuition congruence |].
  destruct (cell_compare c k); cbn; rewrite ?IH; intuition congruence.
Qed.

Lemma group_keys_In cs k : In k (group_keys cs) -> In k cs.
Proof.
  induction cs as [| c cs IH]; cbn; [tauto |].
  destruct (is_na c || existsb (cell_same c) (group_keys cs)); [auto |].
  rewrite insert_cell_In. intuition.
Qed.

Lemma insert_cell_distinct c ks :
  ForallOrdPairs (fun a b => cell_same a b = false) ks ->
  Forall (fun x => cell_same c x = false) ks ->
  ForallOrdPairs (fun a b => cell_same a b = false) (insert_cell c ks).
Proof.
  induction 1 as [| k ks Hk Hks IH]; intros Hc; cbn; [repeat constructor |].
  inversion Hc as [| ? ? Hck Hcks]; subst.
  destruct (cell_compare c k).
  - constructor; [constructor; assumption | constructor; assumption].
  - constructor; [constructor; assumption | constructor; assumption].
  - constructor; [| apply IH; assumption].
    rewrite Forall_forall. intros x Hx. apply list_elem_of_In, insert_cell_In in Hx as [-> | Hx].
    + now rewrite cell_same_sym.
    + rewrite Forall_forall in Hk. apply Hk. now apply list_elem_of_In.
Qed.

Lemma group_keys_distinct cs :
  ForallOrdPairs (fun a b => cell_same a b = false) (group_keys cs).
Proof.
  induction cs as [| c cs IH]; cbn; [constructor |].
  destruct (is_na c || existsb (cell_same c) (group_keys cs)) eqn:E; [exact IH |].
  apply orb_false_iff in E as [_ E]. apply insert_cell_distinct; [exact IH |].
  rewrite Forall_forall. intros x Hx. apply list_elem_of_In in Hx.
  destruct (cell_same c x) eqn:Ex; [| reflexivity].
  rewrite <- E. symmetry. apply existsb_exists. eauto.
Qed.

Lemma dict_set_fresh {V} k (v : V) d :
  Forall (fun p => cell_same (fst p) k = false) d -> dict_set k v d = (d ++ [(k, v)])%list.
Proof.
  induction 1 as [| [k' v'] d Hk _ IH]; cbn; [reflexivity |].
  cbn in Hk. rewrite Hk, IH. reflexivity.
Qed.

(** Rows of distinct keys become one entry each, in order. *)
Lemma to_dict_distinct names jk (subset : list (Z * list cell)) :
  forall d : list (cell * list (string * cell)),
  ForallOrdPairs (fun a b => cell_same a b = false)
    (map fst d ++ map (fun r => cell_at jk (snd r)) subset) ->
  fold_left
    (fun d r => dict_set (cell_at jk (snd r))
                  (zip_fields (remove_nth jk names) (remove_nth jk (snd r))) d)
    subset d
  = (d ++ map (fun r => (cell_at jk (snd r),
                         zip_fields (remove_nth jk names) (remove_nth jk (snd r)))) subset)%list.
Proof.
  induction subset as [| r subset IH]; intros d Hd; cbn [fold_left map].
  - now rewrite app_nil_r.
  - rewrite dict_set_fresh.
    + rewrite IH; [now rewrite <- app_assoc |].
      rewrite map_app. cbn [map fst]. rewrite <- app_assoc. exact Hd.
    + clear IH. induction d as [| p d IHd]; [constructor |].
      cbn [map app] in Hd. inversion Hd as [| ? ? Hp Hrest]; subst.
      constructor; [| now apply IHd].
      rewrite Forall_forall in Hp. apply Hp. apply list_elem_of_In, in_or_app. right. now left.
Qed.

Lemma group_rows_In jk k r :
  In r (group_rows jk k rs) <-> In r rs /\ cell_same (cell_at jk (snd r)) k = true.
Proof.
  unfold group_rows. rewrite <- !list_elem_of_In, list_elem_of_filter, Is_true_true. tauto.
Qed.

Lemma idxmax_from_None j members :
  idxmax_from j None members = None ->
  Forall (fun r => is_na (cell_at j (snd r)) = true) members.
Proof.
  induction members as [| r members IH]; cbn; intros H; [constructor |].
  destruct (is_na (cell_at j (snd r))) eqn:E; [constructor; auto |].
  destruct (idxmax_from_Some j members (fst r, cell_at j (snd r))) as [p Hp]. congruence.
Qed.

Lemma same_awareness_not_mixed cs :
  Forall (fun c => exists t, c = CTimestamp t /\ is_aware t = aware) cs ->
  mixed_timestamps cs = false.
Proof.
  intros H. unfold mixed_timestamps. destruct aware.
  - replace (existsb is_naive_cell cs) with false; [reflexivity |].
    symmetry. induction H as [| c cs (t & -> & Ht) _ IH]; cbn; [reflexivity |].
    now rewrite Ht, IH.
  - apply andb_false_iff. right.
    induction H as [| c cs (t & -> & Ht) _ IH]; cbn; [reflexivity |].
    now rewrite Ht, IH.
Qed.

(** One group: the label [idxmax] answers with is the label of the row of
    the largest timestamp, a row of the store under that key. *)
Lemma group_picked k :
  In k (group_keys (column_cells 0 rs)) ->
  exists l row,
    idxmax_from 1 None (group_rows 0 k rs) = Some (l, cell_at 1 row) /\
    latest_row 1 None (group_rows 0 k rs) = Some row /\
    In (l, row) rs /\ cell_at 0 row = k /\
    mixed_timestamps (column_cells 1 (group_rows 0 k rs)) = false.
Proof using rows_hold.
  intros Hk. apply group_keys_In in Hk. unfold column_cells in Hk.
  apply in_map_iff in Hk as (r0 & Hr0 & Hin0).
  pose proof rows_hold as Hrows. rewrite Forall_forall in Hrows.
  destruct (Hrows r0 (proj2 (list_elem_of_In _ _) Hin0)) as (v0 & t0 & Hv0 & Ht0 & _).
  assert (Hmem0 : In r0 (group_rows 0 k rs)).
  { apply group_rows_In. split; [exact Hin0 |].
    rewrite Hr0, <- Hr0, Hv0. cbn. apply String.eqb_refl. }
  pose proof (idxmax_latest (group_rows 0 k rs) 1 (group_rows 0 k rs) None None
                (fun r H => H) I) as HR.
  destruct (idxmax_from 1 None (group_rows 0 k rs)) as [[l c] |] eqn:Ei.
  - destruct (latest_row 1 None (group_rows 0 k rs)) as [row |]; [| contradiction].
    destruct HR as [-> Hin]. exists l, row. split; [reflexivity |]. split; [reflexivity |].
    apply group_rows_In in Hin as [Hin Hsame]. cbn [snd] in Hsame.
    split; [exact Hin |]. split.
    + destruct (Hrows (l, row) (proj2 (list_elem_of_In _ _) Hin)) as (v & t & Hv & _).
      cbn [snd] in Hv. rewrite <- Hr0, Hv0 in Hsame |- *. rewrite Hv in Hsame |- *.
      cbn in Hsame. apply String.eqb_eq in Hsame. now subst.
    + apply same_awareness_not_mixed. unfold column_cells. rewrite Forall_map.
      rewrite Forall_forall. intros r Hr. apply list_elem_of_In, group_rows_In in Hr as [Hr _].
      destruct (Hrows r (proj2 (list_elem_of_In _ _) Hr)) as (v & t & _ & Ht & Ha).
      eauto.
  - apply idxmax_from_None in Ei. rewrite Forall_forall in Ei.
    specialize (Ei r0 (proj2 (list_elem_of_In _ _) Hmem0)). rewrite Ht0 in Ei. discriminate.
Qed.

(** All groups: the labels, read as positions, select the rows of the
    largest timestamps. *)
Lemma groups_picked ks :
  (forall k, In k ks -> In k (group_keys (column_cells 0 rs))) ->
  exists picked,
    idxmax_groups 0 1 rs ks = Ok (map fst picked) /\
    iloc rs (map fst picked) = Ok picked /\
    map (fun r => cell_at 0 (snd r)) picked = ks /\
    Forall2 (fun k p => latest_row 1 None (group_rows 0 k rs) = Some (snd p)) ks picked.
Proof using labels_are_positions rows_hold.
  induction ks as [| k ks IH]; intros Hks.
  - exists []. repeat split. constructor.
  - destruct (group_picked k (Hks k (or_introl eq_refl)))
      as (l & row & Hi & Hl & Hin & Hk & Hmix).
    destruct IH as (picked & Hidx & Hiloc & Hkeys & Hall);
      [intros k' Hk'; apply Hks; now right |].
    exists ((l, row) :: picked). cbn [idxmax_groups map fst snd iloc].
    rewrite Hmix, Hi, Hidx. cbn [raise_if bind].
    rewrite (iloc_one_label l row Hin), Hiloc. cbn [bind].
    repeat split; [congruence |]. constructor; assumption.
Qed.

End MostRecent.

Section MostRecentStore.
Variable self : Stats.
Variable aware : bool.

(** X20: on a store with the canonical columns whose row labels are the
    row positions 0, 1, 2, ..., whose ids are strings and whose timestamps are
    all aware or all naive, [most_recent] returns, for every [video_id] in
    ascending order, the fields of the row with the largest timestamp of that
    id. *)
Theorem most_recent_labels_positions :
  column_names (_data self) = expected_names ->
  map fst (rows (_data self)) = map Z.of_nat (seq 0 (length (rows (_data self)))) ->
  Forall (fun r => exists v t, cell_at 0 (snd r) = CStr v /\
                               cell_at 1 (snd r) = CTimestamp t /\ is_aware t = aware)
         (rows (_data self)) ->
  most_recent self = Ok (most_recent_spec self).
Proof.
  intros Hnames Hlabels Hrows.
  destruct (groups_picked (rows (_data self)) aware Hlabels Hrows
              (group_keys (column_cells 0 (rows (_data self)))) (fun k H => H))
    as (picked & Hidx & Hiloc & Hkeys & Hall).
  unfold most_recent, groupby_idxmax, most_recent_spec. rewrite Hnames.
  cbn [expected_names expected_columns map fst index_of String.eqb Ascii.eqb Bool.eqb
       option_map bind].
  rewrite Hidx. cbn [bind]. rewrite Hiloc. cbn [bind]. f_equal.
  unfold to_dict_by.
  rewrite (to_dict_distinct _ 0 picked []).
  - cbn [app]. revert Hall. rewrite <- Hkeys. clear.
    induction picked as [| p picked IH]; intros Hall; [reflexivity |].
    cbn [map flat_map]. inversion Hall as [| ? ? ? ? Hp Hrest]; subst.
    rewrite Hp. cbn [app]. f_equal. now apply IH.
  - cbn [map app]. rewrite Hkeys. apply group_keys_distinct.
Qed.

End MostRecentStore.
(** * Stores grown from [Stats()] *)


Lemma cell_eq_sym a b : cell_eq a b = cell_eq b a.
Proof.
  unfold cell_eq. rewrite (cell_same_sym a b).
  destruct a, b; reflexivity.
Qed.

Lemma pair_eq_sym r1 r2 : pair_eq r1 r2 = pair_eq r2 r1.
Proof.
  unfold pair_eq. now rewrite (cell_eq_sym (cell_at 0 r1)), (cell_eq_sym (cell_at 1 r1)).
Qed.

Lemma insert_row_Permutation js r rs : Permutation (insert_row js r rs) (r :: rs).
Proof.
  induction rs as [| r' rs IH]; cbn; [reflexivity |].
  destruct (row_leb js r r'); [reflexivity |].
  rewrite IH. apply perm_swap.
Qed.

Lemma sort_rows_Permutation js rs : Permutation (sort_rows js rs) rs.
Proof.
  induction rs as [| r rs IH]; cbn; [reflexivity |].
  rewrite insert_row_Permutation. now constructor.
Qed.

Section Pairs.
Variable A : Type.
Variable R : A -> A -> Prop.
Hypothesis R_sym : forall x y, R x y -> R y x.

Lemma ForallOrdPairs_app_one l x :
  ForallOrdPairs R l -> Forall (fun y => R y x) l -> ForallOrdPairs R (l ++ [x]).
Proof.
  induction 1 as [| y l Hy Hl IH]; intros Hx; cbn.
  - repeat constructor.
  - apply Forall_cons_1 in Hx as [Hyx Hx]. constructor; [| now apply IH].
    apply Forall_app. split; [exact Hy | now constructor].
Qed.

Lemma ForallOrdPairs_Permutation l l' :
  Permutation l l' -> ForallOrdPairs R l -> ForallOrdPairs R l'.
Proof.
  induction 1 as [| x l l' Hp IH | x y l | l l' l'' _ IH1 _ IH2]; intros H.
  - exact H.
  - inversion H as [| ? ? Hx Hl]; subst. constructor; [| now apply IH].
    now rewrite <- Hp.
  - inversion H as [| ? ? Hy Hl]; subst. inversion Hl as [| ? ? Hx Hl']; subst.
    apply Forall_cons_1 in Hy as [Hyx Hy].
    constructor; [constructor; [now apply R_sym | exact Hx] |].
    constructor; assumption.
  - auto.
Qed.

End Pairs.

Lemma ForallOrdPairs_map {A B} (f : A -> B) (R : B -> B -> Prop) l :
  ForallOrdPairs R (map f l) <-> ForallOrdPairs (fun a b => R (f a) (f b)) l.
Proof.
  induction l as [| x l IH]; cbn [map]; split; intros H; try constructor;
    inversion H as [| ? ? Hx Hl]; subst.
  - rewrite List.Forall_forall in Hx |- *. intros y Hy. apply Hx. now apply in_map.
  - now apply IH.
  - rewrite List.Forall_forall in Hx |- *. intros y Hy.
    apply in_map_iff in Hy as (z & <- & Hz). now apply Hx.
  - now apply IH.
Qed.

(** Whether no pair is held twice is decided by the keys of the rows. *)
Lemma unique_pairs_keys (self : Stats) :
  unique_pairs self <->
  ForallOrdPairs
    (fun k1 k2 => cell_eq (fst (snd k1)) (fst (snd k2))
                  && cell_eq (snd (snd k1)) (snd (snd k2)) = false)
    (map row_key (rows (_data self))).
Proof. unfold unique_pairs. rewrite ForallOrdPairs_map. reflexivity. Qed.

Lemma labels_keys (rs : list (Z * list cell)) : map fst rs = map fst (map row_key rs).
Proof. rewrite map_map. reflexivity. Qed.

Lemma stored_row_inv is_video_id r :
  stored_row is_video_id r = true ->
  exists vid t c2 c3 c4 c5,
    r = [CStr vid; CTimestamp t; c2; c3; c4; c5] /\
    is_video_id vid = true /\ is_aware t = false.
Proof.
  destruct r as [| [] [| [] [| c2 [| c3 [| c4 [| c5 [|]]]]]]]; try discriminate.
  cbn [stored_row]. intros H. apply andb_true_iff in H as [H1 H2].
  apply negb_true_iff in H2. do 6 eexists. repeat apply conj; try reflexivity; assumption.
Qed.

Lemma grown_columns_inv cols :
  grown_columns cols = true ->
  exists d1 d2 d3 d4 d5,
    cols = [("video_id", pd_string); ("timestamp", d1); ("views", d2); ("rating", d3);
            ("likes", d4); ("dislikes", d5)] /\
    (d1 = np_datetime64 \/ d1 = np_object).
Proof.
  destruct cols as [| [k0 d0] [| [k1 d1] [| [k2 d2] [| [k3 d3] [| [k4 d4] [| [k5 d5] [|]]]]]]];
    try discriminate; try (destruct d0; discriminate);
    try (destruct d0; try discriminate; destruct d1; discriminate).
  intros H.
  assert (Hk : String.eqb k0 "video_id" && String.eqb k1 "timestamp"
               && String.eqb k2 "views" && String.eqb k3 "rating"
               && String.eqb k4 "likes" && String.eqb k5 "dislikes" = true
               /\ d0 = pd_string /\ (d1 = np_datetime64 \/ d1 = np_object)).
  { destruct d0; try discriminate H; destruct d1; try discriminate H; auto. }
  destruct Hk as (Hk & -> & Hd1).
  repeat (apply andb_true_iff in Hk as [Hk ?]).
  repeat match goal with E : String.eqb _ _ = true |- _ => apply String.eqb_eq in E end.
  subst. exists d1, d2, d3, d4, d5. auto.
Qed.

Lemma grown_columns_names cols :
  grown_columns cols = true -> map fst cols = expected_names.
Proof.
  intros H. destruct (grown_columns_inv _ H) as (d1 & d2 & d3 & d4 & d5 & -> & _).
  reflexivity.
Qed.

Section Checks.
Variable is_video_id : string -> bool.

Lemma add_row_checks_inv clk self video_id timestamp views rating likes dislikes :
  add_row_checks is_video_id clk self video_id timestamp views rating likes dislikes
  = Ok tt ->
  exists vid t,
    video_id = VStr vid /\ is_video_id vid = true /\
    timestamp = VDatetime t /\ is_aware t = false /\
    check_count views = Ok tt /\ check_rating rating = Ok tt /\
    check_optional_count likes = Ok tt /\ check_optional_count dislikes = Ok tt /\
    row_exists (_data self) vid t = Ok false.
Proof.
  unfold add_row_checks. intros H.
  destruct video_id as [| | | | vid | | | | | | |]; try discriminate. cbn [bind] in H.
  destruct (is_video_id vid) eqn:Ev; cbn [negb raise_if bind] in H; [| discriminate].
  destruct timestamp as [| | | | | t | | | | | |]; try discriminate. cbn [bind] in H.
  assert (Ht : is_aware t = false).
  { destruct (is_aware t) eqn:E; [| reflexivity].
    rewrite (dt_gt_aware_naive _ _ E) in H. discriminate H. }
  destruct (dt_gt t (now_naive clk)) as [[|] |]; cbn [raise_if bind] in H; try discriminate.
  destruct (check_count views) as [[] |] eqn:Hv; cbn [bind] in H; [| discriminate].
  destruct (check_rating rating) as [[] |] eqn:Hr; cbn [bind for_each] in H; [| discriminate].
  destruct (check_optional_count likes) as [[] |] eqn:Hl; cbn [bind] in H; [| discriminate].
  destruct (check_optional_count dislikes) as [[] |] eqn:Hd; cbn [bind] in H; [| discriminate].
  destruct (row_exists (_data self) vid t) as [[|] |] eqn:He; cbn [raise_if bind] in H;
    try discriminate.
  exists vid, t. repeat apply conj; reflexivity || assumption.
Qed.

End Checks.

Lemma labels_fresh s :
  labels_permuted s ->
  existsb (fun r => fst r =? Z.of_nat (Stats_len s)) (rows (_data s)) = false.
Proof.
  intros Hp. destruct (existsb _ _) eqn:E; [| reflexivity]. exfalso.
  apply existsb_exists in E as (r & Hr & Hl). apply Z.eqb_eq in Hl.
  assert (Hi : In (Z.of_nat (Stats_len s)) (map fst (rows (_data s)))).
  { rewrite <- Hl. now apply in_map. }
  apply (Permutation_in _ Hp) in Hi. apply in_map_iff in Hi as (k & Hk & Hi).
  apply in_seq in Hi. lia.
Qed.

Section GrownFacts.
Variable is_video_id : string -> bool.
Variable cast_other : dtype -> cell -> result cell.

Local Abbreviation add_row := (add_row is_video_id cast_other).
Local Abbreviation add_row_checks := (add_row_checks is_video_id).
Local Abbreviation Stats_init := (Stats_init is_video_id cast_other).
Local Abbreviation restore_dtypes := (restore_dtypes cast_other).
Local Abbreviation stored := (stored_row is_video_id).
Local Abbreviation invariant := (grown_invariant is_video_id).

(** A cast of a column, row by row. *)
Lemma write_column_cast v j rs : forall vals,
  cast_cells cast_other v (map (fun r => cell_at j (snd r)) rs) = Ok vals ->
  Forall2 (fun r r' => fst r' = fst r /\
                       exists c', cast_cell cast_other v (cell_at j (snd r)) = Ok c' /\
                                  snd r' = set_nth j c' (snd r))
          rs (write_column j vals rs).
Proof.
  induction rs as [| [lbl r] rs IH]; intros vals H; cbn [map cast_cells snd] in H.
  - injection H as <-. constructor.
  - destruct (cast_cell cast_other v (cell_at j r)) as [c0 |] eqn:E0; cbn [bind] in H;
      [| discriminate].
    destruct (cast_cells cast_other v _) as [vals' |] eqn:E1; cbn [bind] in H;
      [| discriminate].
    injection H as <-. cbn [write_column]. constructor; [| now apply IH].
    cbn [fst snd]. split; [reflexivity |]. exists c0. auto.
Qed.

(** A cast to the dtype of its column leaves the id and the timestamp of a
    stored row as they are. *)
Lemma stored_row_cast r j v c' :
  stored r = true -> (j < 6)%nat ->
  (j = 0%nat -> v = pd_string) ->
  (j = 1%nat -> v = np_datetime64 \/ v = np_object) ->
  cast_cell cast_other v (cell_at j r) = Ok c' ->
  stored (set_nth j c' r) = true /\
  cell_at 0 (set_nth j c' r) = cell_at 0 r /\ cell_at 1 (set_nth j c' r) = cell_at 1 r.
Proof.
  intros Hr Hj H0 H1 Hc.
  destruct (stored_row_inv _ _ Hr) as (vid & t & c2 & c3 & c4 & c5 & -> & Hv & Ht).
  destruct j as [| [| [| [| [| [| j]]]]]]; try lia; cbn [cell_at nth set_nth] in Hc |- *.
  - rewrite (H0 eq_refl) in Hc. cbn in Hc. injection Hc as <-. auto.
  - destruct (H1 eq_refl) as [-> | ->]; cbn [cast_cell] in Hc.
    + rewrite Ht in Hc. destruct (ns_in_bounds t); [| discriminate Hc].
      injection Hc as <-. auto.
    + injection Hc as <-. auto.
  - cbn [stored_row]. rewrite Hv, Ht. auto.
  - cbn [stored_row]. rewrite Hv, Ht. auto.
  - cbn [stored_row]. rewrite Hv, Ht. auto.
  - cbn [stored_row]. rewrite Hv, Ht. auto.
Qed.

Lemma rows_cast_keep j v rs rs' :
  (j < 6)%nat ->
  (j = 0%nat -> v = pd_string) ->
  (j = 1%nat -> v = np_datetime64 \/ v = np_object) ->
  Forall (fun r => stored (snd r) = true) rs ->
  Forall2 (fun r r' => fst r' = fst r /\
                       exists c', cast_cell cast_other v (cell_at j (snd r)) = Ok c' /\
                                  snd r' = set_nth j c' (snd r)) rs rs' ->
  Forall (fun r => stored (snd r) = true) rs' /\ map row_key rs' = map row_key rs.
Proof.
  intros Hj H0 H1 Hrs H2. induction H2 as [| r r' rs rs' (Hl & c' & Hc & Hs) _ IH].
  - split; [constructor | reflexivity].
  - apply Forall_cons_1 in Hrs as [Hr Hrs]. destruct (IH Hrs) as [IH1 IH2].
    destruct (stored_row_cast _ _ _ _ Hr Hj H0 H1 Hc) as (Hs1 & Hs2 & Hs3).
    split.
    + constructor; [now rewrite Hs | exact IH1].
    + cbn [map]. rewrite IH2. unfold row_key. now rewrite Hl, Hs, Hs2, Hs3.
Qed.

(** One column restored: the frame keeps its shape and its keys. *)
Lemma restore_step_keeps data k v data' :
  grown_columns (columns data) = true ->
  Forall (fun r => stored (snd r) = true) (rows data) ->
  (k = "video_id" -> v = pd_string) ->
  (k = "timestamp" -> v = np_datetime64 \/ v = np_object) ->
  (let! s := getitem data k in
   let! s' := astype cast_other v s in
   setitem data k s') = Ok data' ->
  grown_columns (columns data') = true /\
  Forall (fun r => stored (snd r) = true) (rows data') /\
  map row_key (rows data') = map row_key (rows data).
Proof.
  intros Hc Hrows Hk0 Hk1 H.
  pose proof (grown_columns_names _ Hc) as Hn. fold (column_names data) in Hn.
  destruct (grown_columns_inv _ Hc) as (d1 & d2 & d3 & d4 & d5 & Ecols & Hd1).
  unfold getitem in H. rewrite Hn in H.
  destruct (index_of k expected_names) as [j |] eqn:Hj; cbn [bind] in H; [| discriminate].
  unfold astype, pd_astype in H. cbn [s_values] in H.
  destruct (cast_cells cast_other v _) as [vals |] eqn:Ec; cbn [bind] in H; [| discriminate].
  unfold setitem in H. cbn [s_values s_dtype] in H.
  destruct (negb _); [discriminate |]. rewrite Hn, Hj in H. injection H as <-.
  cbn [columns rows].
  destruct (index_of_Some _ _ _ Hj) as [Hlt Hnth]. cbn [expected_names expected_columns map
    fst length] in Hlt.
  assert (H0 : j = 0%nat -> v = pd_string).
  { intros ->. apply Hk0. now rewrite <- Hnth. }
  assert (H1 : j = 1%nat -> v = np_datetime64 \/ v = np_object).
  { intros ->. apply Hk1. now rewrite <- Hnth. }
  destruct (rows_cast_keep j v _ _ Hlt H0 H1 Hrows (write_column_cast _ _ _ _ Ec))
    as [Hs Hkeys].
  split; [| split; assumption].
  rewrite Ecols.
  destruct j as [| [| [| [| [| [| j]]]]]]; try lia; cbn in Hnth; subst k;
    cbn [set_nth grown_columns String.eqb Ascii.eqb Bool.eqb andb];
    try (destruct Hd1 as [-> | ->]; reflexivity).
  - rewrite (H0 eq_refl). destruct Hd1 as [-> | ->]; reflexivity.
  - destruct (H1 eq_refl) as [-> | ->]; reflexivity.
Qed.

Lemma grown_columns_In cols k v :
  grown_columns cols = true -> In (k, v) cols ->
  (k = "video_id" -> v = pd_string) /\
  (k = "timestamp" -> v = np_datetime64 \/ v = np_object).
Proof.
  intros Hc Hi. destruct (grown_columns_inv _ Hc) as (d1 & d2 & d3 & d4 & d5 & -> & Hd1).
  cbn in Hi. destruct Hi as [E | [E | [E | [E | [E | [E | []]]]]]]; injection E as <- <-;
    split; intros E; try discriminate E; auto.
Qed.

(** The loop that restores the dtypes, however it ends. *)
Lemma restore_keeps old : forall data restored out,
  (forall k v, In (k, v) old ->
     (k = "video_id" -> v = pd_string) /\
     (k = "timestamp" -> v = np_datetime64 \/ v = np_object)) ->
  grown_columns (columns data) = true ->
  Forall (fun r => stored (snd r) = true) (rows data) ->
  restore_dtypes old data = (restored, out) ->
  grown_columns (columns restored) = true /\
  Forall (fun r => stored (snd r) = true) (rows restored) /\
  map row_key (rows restored) = map row_key (rows data).
Proof.
  induction old as [| [k v] rest IH]; intros data restored out Hold Hc Hrows H.
  - cbn in H. injection H as <- _. auto.
  - cbn [StatsStore.restore_dtypes] in H.
    destruct (let! s := getitem data k in
              let! s' := astype cast_other v s in
              setitem data k s') as [data' | e] eqn:Estep.
    + destruct (Hold k v (or_introl eq_refl)) as [Hk0 Hk1].
      destruct (restore_step_keeps _ _ _ _ Hc Hrows Hk0 Hk1 Estep) as (Hc' & Hr' & Hk').
      destruct (IH data' restored out (fun k' v' Hi => Hold k' v' (or_intror Hi)) Hc' Hr' H)
        as (Hc2 & Hr2 & Hk2).
      split; [exact Hc2 | split; [exact Hr2 | congruence]].
    + injection H as <- _. auto.
Qed.

(** The row of a call fitted to the columns of a grown store. *)
Lemma fit_row_grown cols vid t c2 c3 c4 c5 :
  grown_columns cols = true -> is_aware t = false ->
  exists cols' c2' c3' c4' c5',
    fit_row cast_other cols [CStr vid; CTimestamp t; c2; c3; c4; c5]
    = (cols', [CStr vid; CTimestamp t; c2'; c3'; c4'; c5']) /\
    grown_columns cols' = true.
Proof.
  intros Hc Ht. destruct (grown_columns_inv _ Hc) as (d1 & d2 & d3 & d4 & d5 & -> & Hd1).
  cbn [fit_row]. unfold fit_cell.
  destruct (cast_cell cast_other d2 c2), (cast_cell cast_other d3 c3),
    (cast_cell cast_other d4 c4), (cast_cell cast_other d5 c5);
    destruct Hd1 as [-> | ->]; cbn [cast_cell]; rewrite ?Ht;
    try destruct (ns_in_bounds t);
    do 5 eexists; split; reflexivity.
Qed.

(** A store of rows permuted meets the invariant as before. *)
Lemma invariant_permuted cols rs rs' :
  Permutation rs' rs ->
  invariant (mk_stats (mk_frame cols rs)) -> invariant (mk_stats (mk_frame cols rs')).
Proof.
  intros Hp (Hc & Hr & Hl & Hu).
  unfold grown_invariant, labels_permuted, unique_pairs, Stats_len in *.
  cbn [_data columns rows] in *. repeat apply conj.
  - exact Hc.
  - rewrite List.Forall_forall in Hr |- *. intros r Hi. apply Hr.
    exact (Permutation_in _ Hp Hi).
  - rewrite (Permutation_length Hp). rewrite <- Hl. now apply Permutation_map.
  - apply (ForallOrdPairs_Permutation _ (fun r1 r2 => pair_eq (snd r1) (snd r2) = false))
      with (l := rs); [| now symmetry | exact Hu].
    intros x y Hxy. now rewrite pair_eq_sym.
Qed.

(** A call whose checks pass and whose rating can be derived, on a store
    that meets the invariant: its row is appended, whether the call then
    returns or raises, and the store meets the invariant again. *)
Lemma add_row_run clk s video_id timestamp views rating likes dislikes rating' :
  invariant s ->
  add_row_checks clk s video_id timestamp views rating likes dislikes = Ok tt ->
  derive_rating rating likes dislikes = Ok rating' ->
  exists vid t s' outcome,
    video_id = VStr vid /\ timestamp = VDatetime t /\
    add_row clk s video_id timestamp views rating likes dislikes = (s', outcome) /\
    invariant s' /\
    Permutation (map row_key (rows (_data s')))
                (map row_key (rows (_data s))
                 ++ [(Z.of_nat (Stats_len s), (CStr vid, CTimestamp t))]).
Proof.
  intros Hinv Hchk Hder. pose proof Hinv as (Hcols & Hrows & Hlab & Huniq).
  destruct (add_row_checks_inv _ _ _ _ _ _ _ _ _ Hchk)
    as (vid & t & -> & Hv & -> & Ht & _ & _ & _ & _ & He).
  exists vid, t. unfold StatsStore.add_row. rewrite Hchk, Hder. cbn [bind].
  pose proof (grown_columns_names _ Hcols) as Hnames. fold (column_names (_data s)) in Hnames.
  rewrite Hnames.
  cbn [expected_names expected_columns map fst new_row_of find String.eqb Ascii.eqb Bool.eqb
       bind snd cell_of_value].
  unfold loc_setitem.
  destruct (fit_row_grown (columns (_data s)) vid t (cell_of_value views)
              (cell_of_value rating') (cell_of_value likes) (cell_of_value dislikes)
              Hcols Ht) as (cols' & c2 & c3 & c4 & c5 & Efit & Hcols').
  rewrite Efit.
  change (length (rows (_data s))) with (Stats_len s).
  rewrite (labels_fresh s Hlab).
  set (new_row := [CStr vid; CTimestamp t; c2; c3; c4; c5]) in *.
  set (data1 := mk_frame cols' (rows (_data s) ++ [(Z.of_nat (Stats_len s), new_row)])).
  assert (Hrows1 : Forall (fun r => stored (snd r) = true) (rows data1)).
  { apply Forall_app. split; [exact Hrows |]. constructor; [| constructor].
    cbn [snd new_row stored_row]. now rewrite Hv, Ht. }
  destruct (restore_dtypes (columns (_data s)) data1) as [restored out1] eqn:Er.
  destruct (restore_keeps _ data1 _ _ (fun k v => grown_columns_In _ k v Hcols) Hcols'
              Hrows1 Er) as (Hc2 & Hr2 & Hk2).
  assert (Hkeys : map row_key (rows restored)
                  = (map row_key (rows (_data s))
                     ++ [(Z.of_nat (Stats_len s), (CStr vid, CTimestamp t))])%list).
  { rewrite Hk2. cbn [data1 rows]. now rewrite map_app. }
  assert (Hrestored : invariant (mk_stats restored)).
  { unfold grown_invariant, labels_permuted, Stats_len. cbn [_data]. repeat apply conj.
    - exact Hc2.
    - exact Hr2.
    - rewrite (labels_keys (rows restored)), Hk2, <- labels_keys.
      rewrite <- (length_map row_key (rows restored)), Hk2, length_map.
      cbn [data1 rows]. rewrite length_app, map_app. cbn [length map fst].
      rewrite Nat.add_1_r, seq_S, map_app. cbn [map Nat.add].
      apply Permutation_app; [exact Hlab | reflexivity].
    - apply unique_pairs_keys. cbn [_data]. rewrite Hk2.
      apply (unique_pairs_keys (mk_stats data1)). unfold unique_pairs. cbn [_data data1 rows].
      apply ForallOrdPairs_app_one; [exact Huniq |].
      rewrite row_exists_canonical in He by exact Hnames.
      injection He as He. apply List.Forall_forall. intros r Hr. cbn [snd].
      unfold pair_eq. cbn [new_row cell_at nth].
      destruct (cell_eq _ _ && cell_eq _ _) eqn:E; [| reflexivity].
      rewrite <- He. symmetry. apply existsb_exists. now exists r. }
  destruct out1 as [[] | e].
  2:{ do 2 eexists. do 3 (split; [reflexivity |]). split; [exact Hrestored |].
      cbn [_data]. now rewrite Hkeys. }
  destruct (sort_values restored ["video_id"; "timestamp"]) as [sorted | e] eqn:Es.
  2:{ do 2 eexists. do 3 (split; [reflexivity |]). split; [exact Hrestored |].
      cbn [_data]. now rewrite Hkeys. }
  unfold sort_values in Es.
  destruct (positions _ _) as [js |]; cbn [bind] in Es; [| discriminate].
  destruct (existsb _ js); cbn [raise_if bind] in Es; [discriminate |].
  injection Es as <-.
  do 2 eexists. do 3 (split; [reflexivity |]). split.
  - apply (invariant_permuted _ (rows restored)); [apply sort_rows_Permutation |].
    now destruct restored.
  - cbn [_data rows]. rewrite <- Hkeys. apply Permutation_map, sort_rows_Permutation.
Qed.

(** Every call of [add_row], however it ends, leaves a store that meets
    the invariant when the store it was called on did. *)
Lemma add_row_invariant clk s video_id timestamp views rating likes dislikes s' outcome :
  invariant s ->
  add_row clk s video_id timestamp views rating likes dislikes = (s', outcome) ->
  invariant s'.
Proof.
  intros Hinv H.
  destruct (add_row_checks clk s video_id timestamp views rating likes dislikes)
    as [[] | e] eqn:Hchk.
  - destruct (derive_rating rating likes dislikes) as [rating' | e] eqn:Hder.
    + destruct (add_row_run _ _ _ _ _ _ _ _ _ Hinv Hchk Hder)
        as (vid & t & s1 & out1 & _ & _ & Hrun & Hinv1 & _).
      rewrite Hrun in H. now injection H as <- _.
    + unfold StatsStore.add_row in H. rewrite Hchk, Hder in H. cbn [bind] in H.
      now injection H as <- _.
  - unfold StatsStore.add_row in H. rewrite Hchk in H. now injection H as <- _.
Qed.

Lemma Stats_init_empty clk interpolate : Stats_init clk None interpolate = Ok empty_store.
Proof. reflexivity. Qed.

Lemma empty_store_invariant : invariant empty_store.
Proof.
  unfold grown_invariant, labels_permuted, unique_pairs.
  cbn. repeat apply conj; constructor.
Qed.

Lemma grown_meets_invariant s : Stats_grown is_video_id cast_other s -> invariant s.
Proof.
  induction 1 as [clk i s H | clk s a b c d e f s' outcome _ IH H].
  - rewrite Stats_init_empty in H. injection H as <-. apply empty_store_invariant.
  - exact (add_row_invariant _ _ _ _ _ _ _ _ _ _ IH H).
Qed.

(** X21: every store reached from [Stats()] by calls of [add_row], whether
    they return or raise, has the six columns of the store in their order;
    each of its rows holds six cells, an id the format check accepts and a
    naive timestamp; its index labels are the numbers below its length, each
    once; and no two rows hold the same ([video_id], [timestamp]) pair. *)
Theorem grown_store_invariant s :
  Stats_grown is_video_id cast_other s ->
  column_names (_data s) = expected_names /\
  Forall (fun r => stored_row is_video_id (snd r) = true) (rows (_data s)) /\
  labels_permuted s /\ unique_pairs s.
Proof.
  intros Hg. destruct (grown_meets_invariant s Hg) as (Hc & Hr & Hl & Hu).
  split; [exact (grown_columns_names _ Hc) | auto].
Qed.

(** The one error left to a call whose checks pass. *)
Lemma derive_rating_raises clk s video_id timestamp views rating likes dislikes e :
  add_row_checks clk s video_id timestamp views rating likes dislikes = Ok tt ->
  derive_rating rating likes dislikes = Raise e ->
  e = ZeroDivisionError /\ rating = VNone /\
  exists l d, as_int likes = Some l /\ as_int dislikes = Some d /\ l + d = 0.
Proof.
  intros Hchk. destruct (add_row_checks_inv _ _ _ _ _ _ _ _ _ Hchk)
    as (vid & t & _ & _ & _ & _ & _ & _ & Hl & Hd & _).
  unfold derive_rating.
  destruct rating; cbn [is_none andb]; try discriminate.
  destruct likes; cbn [is_none orb negb] in Hl |- *; try discriminate;
    destruct dislikes; cbn [is_none orb negb] in Hd |- *; try discriminate;
    cbn [as_int];
    match goal with
    | |- context [?l + ?d =? 0] =>
        destruct (l + d =? 0) eqn:E; [| discriminate]; apply Z.eqb_eq in E;
        intros [= <-]; repeat split; exists l, d; auto
    end.
Qed.



(** X31: on a store grown from [Stats()], [add_row] called with a
    ([video_id], [timestamp]) pair that a row of the store holds, with a
    timestamp not after the current local time and with [views], [rating],
    [likes] and [dislikes] that pass their own checks, raises a value error
    and leaves the store as it was. *)
Theorem add_row_grown_duplicate clk s vid ts views rating likes dislikes :
  Stats_grown is_video_id cast_other s ->
  holds_pair s vid ts ->
  instant ts <= instant (now_naive clk) ->
  valid_count views -> valid_rating rating ->
  valid_optional_count likes -> valid_optional_count dislikes ->
  add_row clk s (VStr vid) (VDatetime ts) views rating likes dislikes
  = (s, Raise ValueError).
Proof.
  intros Hg Hp Hle Hv Hr Hl Hd. pose proof Hp as (label & row & stamp & Hin & H0 & H1 & Heq).
  apply grown_meets_invariant in Hg as (Hc & Hrows & _).
  rewrite List.Forall_forall in Hrows. specialize (Hrows _ Hin). cbn [snd] in Hrows.
  destruct (stored_row_inv _ _ Hrows) as (vid' & t' & ? & ? & ? & ? & -> & Hid & Hn).
  cbn [cell_at nth] in H0, H1. injection H0 as ->. injection H1 as ->.
  unfold ts_eq in Heq. apply andb_true_iff in Heq as [Heq _]. rewrite Hn in Heq.
  assert (Hts : tzinfo ts = None).
  { unfold is_aware in Heq. destruct (tzinfo ts); [discriminate Heq | reflexivity]. }
  apply add_row_duplicate_naive; try assumption.
  exact (grown_columns_names _ Hc).
Qed.

End GrownFacts.

(** ** The constructor on the frame of a grown store *)

Section GrownRejected.
Variable is_video_id : string -> bool.
Variable cast_other : dtype -> cell -> result cell.

Local Abbreviation Stats_init := (Stats_init is_video_id cast_other).

(** The constructor stops at the first row when its timestamp is naive. *)
Lemma Stats_init_naive_first clk data interpolate lbl r rest s :
  column_names data = expected_names ->
  rows data = (lbl, r) :: rest ->
  stored_row is_video_id r = true ->
  Stats_init clk (Some data) interpolate <> Ok s.
Proof.
  intros Hcols Hrows Hr H.
  destruct (Stats_init_inv _ _ _ _ _ _ H) as [_ Hchain].
  destruct (Stats_init_steps _ _ _ _ _ _ H) as (_ & _ & _ & Ht).
  destruct (stored_row_inv _ _ Hr) as (vid & t & v & ra & l & d & -> & _ & Haw).
  unfold column_names in Hcols.
  destruct (columns data)
    as [| [k0 d0] [| [k1 d1] [| [k2 d2] [| [k3 d3] [| [k4 d4] [| [k5 d5] [|]]]]]]] eqn:Ec;
    try discriminate Hcols.
  injection Hcols as -> -> -> -> -> ->.
  unfold select_columns, column_names in Hchain. rewrite Ec, Hrows in Hchain.
  cbn [map fst positions expected_names expected_columns
       index_of String.eqb Ascii.eqb Bool.eqb option_map bind nth rows snd cell_at]
    in Hchain.
  unfold dropna, column_names in Hchain.
  cbn [columns map fst positions index_of String.eqb Ascii.eqb Bool.eqb option_map bind rows]
    in Hchain.
  rewrite filter_cons_True in Hchain by reflexivity.
  unfold drop_duplicates, column_names in Hchain.
  cbn [columns map fst positions index_of String.eqb Ascii.eqb Bool.eqb option_map bind rows
       drop_dups existsb] in Hchain.
  injection Hchain as Hdata. rewrite <- Hdata in Ht.
  unfold apply_check, getitem, column_names in Ht.
  cbn [columns map fst index_of String.eqb Ascii.eqb Bool.eqb option_map bind rows s_values
       snd cell_at nth for_each check_timestamp] in Ht.
  rewrite Haw in Ht. discriminate Ht.
Qed.

(** X24: the frame of a store grown from [Stats()] that holds a row is
    not accepted by the constructor: [add_row] stores naive timestamps only,
    the constructor accepts aware ones only. *)
Theorem grown_store_data_rejected clk s interpolate :
  Stats_grown is_video_id cast_other s ->
  Stats_len s <> 0%nat ->
  exists e, Stats_init clk (Some (Stats_data s)) interpolate = Raise e.
Proof.
  intros Hg Hlen. apply grown_meets_invariant in Hg as (Hcols & Hrows & _).
  apply grown_columns_names in Hcols. fold (column_names (_data s)) in Hcols.
  unfold Stats_len in Hlen. unfold Stats_data.
  destruct (rows (_data s)) as [| [lbl r] rest] eqn:Er; [now destruct Hlen |].
  apply Forall_cons_1 in Hrows as [Hr _].
  destruct (Stats_init clk (Some (_data s)) interpolate) as [s2 | e] eqn:E; [| now exists e].
  exfalso. exact (Stats_init_naive_first _ _ _ _ _ _ _ Hcols Er Hr E).
Qed.

End GrownRejected.

(** * The fields of a [ChannelInfo] *)

Lemma HtmlDict_setattr_keeps h k v h' :
  HtmlDict_setattr h k v = Ok h' ->
  h_immutable h' = h_immutable h /\ (html_complete h -> html_complete h').
Proof.
  unfold HtmlDict_setattr, HtmlDict_set_about, HtmlDict_set_community,
    HtmlDict_set_featured_channels, HtmlDict_set_videos, html_complete.
  intros H.
  repeat match type of H with
         | (if ?b then _ else _) = _ => destruct b
         end; try discriminate;
    (destruct (h_immutable h && _); cbn [raise_if bind] in H; [discriminate |]);
    (destruct v; try discriminate); injection H as <-; cbn; tauto.
Qed.

Lemma HtmlDict_init_complete a b c d imm h :
  HtmlDict_init a b c d imm = Ok h -> html_complete h.
Proof.
  intros H. destruct (HtmlDict_init_cases a b c d imm)
    as [E | (sa & sb & sc & sd & f & _ & _ & _ & _ & _ & E)]; rewrite E in H;
    [discriminate |].
  injection H as <-. repeat split.
Qed.

Lemma on_object_inv hp ref f hp' :
  on_object hp ref f = Ok hp' ->
  exists h h', hp !! ref = Some h /\ f h = Ok h' /\ hp' = <[ref := h']> hp.
Proof.
  unfold on_object. intros H. destruct (hp !! ref) as [h |] eqn:E; [| discriminate].
  destruct (f h) as [h' |] eqn:Ef; cbn [bind] in H; [| discriminate].
  injection H as <-. eauto.
Qed.

Lemma channel_valid_insert c hp ref h h' :
  channel_valid c hp -> hp !! ref = Some h ->
  h_immutable h' = h_immutable h -> (html_complete h -> html_complete h') ->
  channel_valid c (<[ref := h']> hp).
Proof.
  intros (Hid & Hname & Htime & (r & hr & Hr & Hlook & Hflag) & Hall) Href Himm Hcomp.
  repeat apply conj; try assumption.
  - destruct (Nat.eq_dec r ref) as [-> | Hne].
    + exists ref, h'. repeat apply conj; [exact Hr | | congruence].
      apply list_lookup_insert_eq. now apply lookup_lt_Some in Href.
    + exists r, hr. repeat apply conj; [exact Hr | | exact Hflag].
      rewrite list_lookup_insert_ne by congruence. exact Hlook.
  - apply Forall_insert; [exact Hall |]. apply Hcomp.
    rewrite Forall_lookup in Hall. exact (Hall _ _ Href).
Qed.

Lemma channel_valid_alloc c hp h :
  channel_valid c hp -> html_complete h -> channel_valid c (hp ++ [h])%list.
Proof.
  intros (Hid & Hname & Htime & (r & hr & Hr & Hlook & Hflag) & Hall) Hh.
  repeat apply conj; try assumption.
  - exists r, hr. repeat apply conj; [exact Hr | | exact Hflag].
    now apply lookup_app_l_Some.
  - apply Forall_app. split; [exact Hall | now constructor].
Qed.

Lemma set_html_run c ref hp1 c' hp' :
  (exists s, _channel_id c = Some s /\
             String.length s = 24%nat /\ String.prefix "UC" s = true) ->
  (exists s, _channel_name c = Some s /\ s <> "") ->
  (exists t, _last_updated c = Some t /\ is_aware t = true) ->
  Forall html_complete hp1 ->
  (let! hp2 := on_object hp1 ref
                 (fun h => Ok (mk_html (c_immutable c) (_about h) (_community h)
                                 (_featured_channels h) (_videos h))) in
   Ok (mk_channel (c_immutable c) (_channel_id c) (_channel_name c) (Some ref)
         (_last_updated c), hp2)) = Ok (c', hp') ->
  channel_valid c' hp'.
Proof.
  intros Hid Hname Htime Hall1 Hrun.
  destruct (on_object hp1 ref _) as [hp2 |] eqn:Eo; cbn [bind] in Hrun; [| discriminate].
  injection Hrun as <- <-.
  apply on_object_inv in Eo as (h & h' & Hlook & [= <-] & ->).
  unfold channel_valid.
  cbn [_channel_id _channel_name _last_updated _html c_immutable].
  repeat apply conj; try assumption.
  - exists ref, (mk_html (c_immutable c) (_about h) (_community h) (_featured_channels h)
                         (_videos h)).
    repeat apply conj; [reflexivity | | reflexivity].
    apply list_lookup_insert_eq. now apply lookup_lt_Some in Hlook.
  - apply Forall_insert; [exact Hall1 |].
    rewrite Forall_lookup in Hall1. exact (Hall1 _ _ Hlook).
Qed.

Lemma set_html_valid hp c val c' hp' :
  channel_valid c hp ->
  ChannelInfo_set_html hp c val = Ok (c', hp') ->
  channel_valid c' hp'.
Proof.
  intros (Hid & Hname & Htime & _ & Hall) H. unfold ChannelInfo_set_html in H.
  destruct (c_immutable c && hasattr (_html c)); cbn [raise_if bind] in H; [discriminate |].
  destruct val; try discriminate; cbn [bind] in H.
  - destruct (HtmlDict_of_kwargs kv) as [h | e] eqn:Ek.
    + cbn [bind] in H. apply (set_html_run _ _ _ _ _ Hid Hname Htime) in H; [exact H |].
      apply Forall_app. split; [exact Hall |]. constructor; [| constructor].
      unfold HtmlDict_of_kwargs in Ek.
      destruct (negb _); [discriminate |].
      destruct (kwarg kv "about"); [| discriminate].
      destruct (kwarg kv "community"); [| discriminate].
      destruct (kwarg kv "featured_channels"); [| discriminate].
      destruct (kwarg kv "videos"); [| discriminate].
      exact (HtmlDict_init_complete _ _ _ _ _ _ Ek).
    + destruct e; discriminate.
  - exact (set_html_run _ _ _ _ _ Hid Hname Htime Hall H).
Qed.

Lemma setattr_channel_valid clk hp c key val c' hp' :
  channel_valid c hp ->
  ChannelInfo_setattr clk hp c key val = Ok (c', hp') ->
  channel_valid c' hp'.
Proof.
  intros Hv H. unfold ChannelInfo_setattr in H.
  destruct (String.eqb key "channel_id").
  { destruct Hv as (_ & Hname & Htime & Hhtml & Hall).
    unfold ChannelInfo_set_channel_id in H.
    destruct (c_immutable c && _); cbn [raise_if bind] in H; [discriminate |].
    destruct val; try discriminate.
    destruct (negb (String.length s =? 24)%nat || negb (String.prefix "UC" s)) eqn:E;
      cbn [raise_if bind] in H; [discriminate |].
    injection H as <- <-. apply orb_false_iff in E as [E1 E2].
    apply negb_false_iff in E1, E2. apply Nat.eqb_eq in E1.
    unfold channel_valid. cbn. repeat apply conj; eauto. }
  destruct (String.eqb key "channel_name").
  { destruct Hv as (Hid & _ & Htime & Hhtml & Hall).
    unfold ChannelInfo_set_channel_name in H.
    destruct (c_immutable c && _); cbn [raise_if bind] in H; [discriminate |].
    destruct val; try discriminate.
    destruct (negb (str_truthy s)) eqn:E; cbn [raise_if bind] in H; [discriminate |].
    injection H as <- <-. apply negb_false_iff in E.
    unfold channel_valid. cbn. repeat apply conj; eauto.
    exists s. split; [reflexivity |]. now apply str_truthy_nonempty. }
  destruct (String.eqb key "html"); [exact (set_html_valid _ _ _ _ _ Hv H) |].
  destruct (String.eqb key "last_updated"); [| discriminate].
  destruct Hv as (Hid & Hname & _ & Hhtml & Hall).
  unfold ChannelInfo_set_last_updated in H.
  destruct (c_immutable c && _); cbn [raise_if bind] in H; [discriminate |].
  destruct val; try discriminate.
  destruct (negb (is_aware d)) eqn:E; cbn [raise_if bind] in H; [discriminate |].
  destruct (dt_gt d (now_utc clk)) as [[|] |]; cbn [raise_if bind] in H; try discriminate.
  injection H as <- <-. apply negb_false_iff in E.
  unfold channel_valid. cbn. repeat apply conj; eauto.
Qed.

Lemma reachable_channel_valid c hp : ChannelInfo_reachable c hp -> channel_valid c hp.
Proof.
  induction 1 as [clk hp a1 a2 a3 a4 a5 a6 a7 imm c hp1 Hall H
                 | clk c hp key val c' hp' _ IH H
                 | clk c hp key val c' hp' _ IH H
                 | c hp ref key val hp' _ IH H
                 | c hp a b c0 d imm h _ IH H].
  - destruct (ChannelInfo_init_inv _ _ _ _ _ _ _ _ _ _ _ _ H)
      as (b & s1 & s2 & t & h1 & h2 & h3 & h4 & _ & _ & _ & _ & _ & _ & _ & _ &
          E1 & E2 & E3 & E4 & _ & -> & ->).
    apply Nat.eqb_eq in E1. apply str_truthy_nonempty in E3.
    unfold channel_valid. cbn [_channel_id _channel_name _last_updated _html c_immutable].
    repeat apply conj; eauto.
    + eexists (length hp), (mk_html b _ _ _ _). repeat apply conj; [reflexivity | | reflexivity].
      apply list_lookup_middle. reflexivity.
    + apply Forall_app. split; [exact Hall |]. repeat constructor.
  - unfold ChannelInfo_setitem in H. destruct key; try discriminate.
    destruct (negb _); [discriminate |]. exact (setattr_channel_valid _ _ _ _ _ _ _ IH H).
  - exact (setattr_channel_valid _ _ _ _ _ _ _ IH H).
  - unfold HtmlDict_setitem in H. destruct key; try discriminate.
    destruct (negb _); [discriminate |].
    apply on_object_inv in H as (h & h' & Hlook & Hset & ->).
    apply HtmlDict_setattr_keeps in Hset as [Hflag Hcomp].
    exact (channel_valid_insert _ _ _ _ _ IH Hlook Hflag Hcomp).
  - apply channel_valid_alloc; [exact IH |]. exact (HtmlDict_init_complete _ _ _ _ _ _ H).
Qed.

(** X25: in every state reached by the steps of [ChannelInfo_reachable],
    each of the four fields of the [ChannelInfo] holds a value that its
    setter accepts: an id of 24 characters that starts with UC, a name that
    is not empty, an aware timestamp, and as [html] an [HtmlDict] of the
    store that carries the flag of its owner; and every [HtmlDict] of the
    store holds its four strings. *)
Theorem ChannelInfo_fields_valid c hp :
  ChannelInfo_reachable c hp -> channel_valid c hp.
Proof. exact (reachable_channel_valid c hp). Qed.

(** X26: an immutable [ChannelInfo] is frozen once constructed, as long
    as no other record takes its [HtmlDict]: in every state reached by the
    steps of [ChannelInfo_reachable], no item assignment to it and none to
    its [html] returns normally, and an assignment under one of the keys of
    either raises [AttributeError], whatever the value. *)
Theorem ChannelInfo_immutable_frozen c hp :
  ChannelInfo_reachable c hp -> c_immutable c = true ->
  (forall clk key val, exists e, ChannelInfo_setitem clk hp c key val = Raise e) /\
  (forall clk k val, In k channel_keys ->
     ChannelInfo_setitem clk hp c (VStr k) val = Raise AttributeError /\
     ChannelInfo_setattr clk hp c k val = Raise AttributeError) /\
  (exists r, _html c = Some r /\
     (forall key val, exists e, HtmlDict_setitem hp r key val = Raise e) /\
     (forall k val, In k html_keys ->
        HtmlDict_setitem hp r (VStr k) val = Raise AttributeError)).
Proof.
  intros Hr Himm. apply reachable_channel_valid in Hr
    as ((s1 & E1 & _) & (s2 & E2 & _) & (t & E3 & _) & (r & h & E4 & Hlook & Hflag) & Hall).
  assert (Hattr : forall clk key val,
             ChannelInfo_setattr clk hp c key val = Raise AttributeError \/
             ChannelInfo_setattr clk hp c key val = Raise KeyError).
  { intros clk key val. unfold ChannelInfo_setattr, ChannelInfo_set_channel_id,
      ChannelInfo_set_channel_name, ChannelInfo_set_html, ChannelInfo_set_last_updated.
    rewrite Himm, E1, E2, E3, E4. cbn [hasattr andb raise_if bind].
    repeat match goal with |- context [if ?b then _ else _] => destruct b end; auto. }
  assert (Hkeys : forall clk k val, In k channel_keys ->
             ChannelInfo_setattr clk hp c k val = Raise AttributeError).
  { intros clk k val Hk. unfold ChannelInfo_setattr, ChannelInfo_set_channel_id,
      ChannelInfo_set_channel_name, ChannelInfo_set_html, ChannelInfo_set_last_updated.
    rewrite Himm, E1, E2, E3, E4. cbn [hasattr andb raise_if bind].
    cbn in Hk. destruct Hk as [<- | [<- | [<- | [<- | []]]]]; reflexivity. }
  rewrite Forall_lookup in Hall. destruct (Hall _ _ Hlook) as (Ha & Hb & Hc & Hd).
  rewrite Himm in Hflag.
  assert (Hhtml : forall k val,
             HtmlDict_setattr h k val = Raise AttributeError \/
             HtmlDict_setattr h k val = Raise KeyError).
  { intros k val. unfold HtmlDict_setattr, HtmlDict_set_about, HtmlDict_set_community,
      HtmlDict_set_featured_channels, HtmlDict_set_videos.
    rewrite Hflag, Ha, Hb, Hc, Hd. cbn [andb raise_if bind].
    repeat match goal with |- context [if ?b then _ else _] => destruct b end; auto. }
  split; [| split].
  - intros clk key val. unfold ChannelInfo_setitem. destruct key; eauto.
    destruct (negb _); [eauto |]. destruct (Hattr clk s val) as [-> | ->]; eauto.
  - intros clk k val Hk. split; [| now apply Hkeys]. unfold ChannelInfo_setitem.
    replace (negb (existsb (String.eqb k) channel_keys)) with false; [now apply Hkeys |].
    symmetry. apply negb_false_iff, existsb_exists. exists k.
    split; [assumption | apply String.eqb_refl].
  - exists r. split; [exact E4 |]. split.
    + intros key val. unfold HtmlDict_setitem. destruct key; eauto.
      destruct (negb _); [eauto |]. unfold on_object. rewrite Hlook.
      destruct (Hhtml s val) as [-> | ->]; eauto.
    + intros k val Hk. unfold HtmlDict_setitem.
      replace (negb (existsb (String.eqb k) html_keys)) with false.
      * unfold on_object. rewrite Hlook.
        unfold HtmlDict_setattr, HtmlDict_set_about, HtmlDict_set_community,
          HtmlDict_set_featured_channels, HtmlDict_set_videos.
        rewrite Hflag, Ha, Hb, Hc, Hd. cbn [andb raise_if bind].
        cbn in Hk. destruct Hk as [<- | [<- | [<- | [<- | []]]]]; reflexivity.
      * symmetry. apply negb_false_iff, existsb_exists. exists k.
        split; [assumption | apply String.eqb_refl].
Qed.

(** ** [most_recent] on a grown store *)

Lemma cell_same_refl c : cell_same c c = true.
Proof.
  destruct c; cbn; try reflexivity.
  - apply Z.eqb_refl.
  - apply Qeq_bool_refl.
  - now rewrite !Qeq_bool_refl.
  - apply String.eqb_refl.
  - now destruct b.
  - apply ts_eq_refl.
  - apply Z.eqb_refl.
  - apply Nat.eqb_refl.
Qed.

Lemma dict_set_In {V} k0 (v0 : V) d k v :
  In (k, v) (dict_set k0 v0 d) -> In (k, v) d \/ (v = v0 /\ cell_same k k0 = true).
Proof.
  induction d as [| [k' v'] d IH]; cbn [dict_set].
  - intros [[= <- <-] | []]. right. split; [reflexivity | apply cell_same_refl].
  - destruct (cell_same k' k0) eqn:E.
    + intros [[= <- <-] | H]; [right; auto | left; now right].
    + intros [[= <- <-] | H]; [left; now left |].
      destruct (IH H) as [H' | H']; [left; now right | now right].
Qed.

Lemma to_dict_by_In names jk (subset : list (Z * list cell)) :
  forall (d : list (cell * list (string * cell))) k v,
  In (k, v)
     (fold_left
        (fun d r => dict_set (cell_at jk (snd r))
                      (zip_fields (remove_nth jk names) (remove_nth jk (snd r))) d)
        subset d) ->
  In (k, v) d \/
  exists r, In r subset /\ cell_same k (cell_at jk (snd r)) = true /\
            v = zip_fields (remove_nth jk names) (remove_nth jk (snd r)).
Proof.
  induction subset as [| r subset IH]; intros d k v H; cbn [fold_left] in H; [now left |].
  destruct (IH _ _ _ H) as [H' | (r' & Hr' & Hk & Hv)].
  - apply dict_set_In in H' as [H' | [-> Hk]]; [now left |].
    right. exists r. repeat split; [now left | exact Hk].
  - right. exists r'. repeat split; [now right | exact Hk | exact Hv].
Qed.

Lemma iloc_one_in_range rs l :
  0 <= l < Z.of_nat (length rs) -> exists r, iloc_one rs l = Ok r /\ In r rs.
Proof.
  intros Hl. unfold iloc_one.
  replace (l <? 0) with false by (symmetry; apply Z.ltb_ge; lia).
  replace ((l <? 0) || (Z.of_nat (length rs) <=? l)) with false.
  - destruct (nth_error rs (Z.to_nat l)) as [r |] eqn:E.
    + exists r. split; [reflexivity |]. eapply nth_error_In. exact E.
    + apply nth_error_None in E. lia.
  - symmetry. apply orb_false_iff. split; [apply Z.ltb_ge | apply Z.leb_gt]; lia.
Qed.

Lemma iloc_in_range rs labels :
  Forall (fun l => 0 <= l < Z.of_nat (length rs)) labels ->
  exists subset, iloc rs labels = Ok subset /\ Forall (fun r => In r rs) subset.
Proof.
  induction 1 as [| l labels Hl _ (subset & E & Hs)]; cbn [iloc]; [now exists [] |].
  destruct (iloc_one_in_range rs l Hl) as (r & Er & Hr).
  rewrite Er, E. cbn [bind]. exists (r :: subset). split; [reflexivity | now constructor].
Qed.

Lemma idxmax_groups_labelled rs aware ks :
  Forall (fun r => exists v t, cell_at 0 (snd r) = CStr v /\
                               cell_at 1 (snd r) = CTimestamp t /\ is_aware t = aware) rs ->
  (forall k, In k ks -> In k (group_keys (column_cells 0 rs))) ->
  exists labels, idxmax_groups 0 1 rs ks = Ok labels /\
                 Forall (fun l => In l (map fst rs)) labels.
Proof.
  intros Hrs. induction ks as [| k ks IH]; intros Hks; cbn [idxmax_groups]; [now exists [] |].
  destruct (group_picked rs aware Hrs k (Hks k (or_introl eq_refl)))
    as (l & row & Ei & _ & Hin & _ & Hmix).
  rewrite Hmix, Ei. cbn [raise_if bind].
  destruct IH as (labels & E & Hl); [intros k' Hk'; apply Hks; now right |].
  rewrite E. cbn [bind]. exists (l :: labels). split; [reflexivity |].
  constructor; [| exact Hl]. change l with (fst (l, row)). now apply in_map.
Qed.

Section MostRecentGrown.
Variable is_video_id : string -> bool.
Variable cast_other : dtype -> cell -> result cell.

(** X27: on a store grown from [Stats()], [most_recent] returns normally,
    and every entry of its result maps a [video_id] to the other fields of a
    row that the store holds under that id. *)
Theorem most_recent_grown s :
  Stats_grown is_video_id cast_other s ->
  exists result,
    most_recent s = Ok result /\
    forall k fields,
      In (k, fields) result ->
      exists label row,
        In (label, row) (rows (_data s)) /\ cell_at 0 row = k /\
        fields = zip_fields ["timestamp"; "views"; "rating"; "likes"; "dislikes"] (tl row).
Proof.
  intros Hg. apply grown_meets_invariant in Hg as (Hcols & Hrows & Hlab & _).
  assert (Hnames : column_names (_data s) = expected_names).
  { exact (grown_columns_names _ Hcols). }
  assert (Hhold : Forall (fun r => exists v t, cell_at 0 (snd r) = CStr v /\
                                     cell_at 1 (snd r) = CTimestamp t /\
                                     is_aware t = false) (rows (_data s))).
  { revert Hrows. apply List.Forall_impl. intros r Hr.
    destruct (stored_row_inv _ _ Hr) as (vid & t & ? & ? & ? & ? & -> & _ & Ht).
    exists vid, t. auto. }
  destruct (idxmax_groups_labelled (rows (_data s)) false
              (group_keys (column_cells 0 (rows (_data s)))) Hhold (fun k H => H))
    as (labels & El & Hl).
  destruct (iloc_in_range (rows (_data s)) labels) as (subset & Es & Hs).
  { revert Hl. apply List.Forall_impl. intros l Hi.
    apply (Permutation_in _ Hlab) in Hi. apply in_map_iff in Hi as (i & <- & Hi).
    apply in_seq in Hi. unfold Stats_len in Hi. lia. }
  unfold most_recent, groupby_idxmax. rewrite Hnames.
  cbn [expected_names expected_columns map fst index_of String.eqb Ascii.eqb Bool.eqb
       option_map bind].
  rewrite El. cbn [bind]. rewrite Es. cbn [bind].
  eexists. split; [reflexivity |]. intros k fields Hin.
  apply to_dict_by_In in Hin as [[] | ([label row] & Hr & Hk & ->)].
  rewrite List.Forall_forall in Hs, Hrows. specialize (Hs _ Hr).
  exists label, row. split; [exact Hs |]. cbn [snd] in *.
  destruct (stored_row_inv _ _ (Hrows _ Hs)) as (vid & t & ? & ? & ? & ? & E & _).
  cbn [snd] in E. subst row. cbn [cell_at nth] in Hk |- *.
  destruct k; try discriminate Hk. apply String.eqb_eq in Hk. subst. split; reflexivity.
Qed.

End MostRecentGrown.

(** ** An immutable [VideoInfo] *)

Section VideoFrozen.
Variable validators_url : string -> bool.

(** X28: an immutable [VideoInfo] is frozen once constructed: no item
    assignment to a record reached from the constructor returns normally,
    and an item or attribute assignment under one of its keys raises
    [AttributeError], whatever the value. *)
Theorem VideoInfo_immutable_frozen v :
  VideoInfo_reachable validators_url v -> v_immutable v = true ->
  (forall clk key val, exists e, VideoInfo_setitem validators_url clk v key val = Raise e) /\
  (forall clk k val, In k video_keys ->
     VideoInfo_setitem validators_url clk v (VStr k) val = Raise AttributeError /\
     VideoInfo_setattr validators_url clk v k val = Raise AttributeError).
Proof.
  intros Hr Himm. apply reachable_valid in Hr as [_ Hc].
  rewrite video_complete_keys in Hc.
  assert (Hkeys : forall clk k val, In k video_keys ->
             VideoInfo_setattr validators_url clk v k val = Raise AttributeError).
  { intros clk k val Hk. specialize (Hc k Hk).
    destruct (VideoInfo_getattr v k) as [old |] eqn:Eg; [| discriminate Hc].
    exact (VideoInfo_refuses validators_url clk v k val old Himm Eg). }
  split.
  - intros clk key val. unfold VideoInfo_setitem. destruct key; eauto.
    destruct (existsb (String.eqb s) video_keys) eqn:E; cbn [negb]; [| eauto].
    apply existsb_exists in E as (k & Hk & Ek). apply String.eqb_eq in Ek. subst k.
    rewrite (Hkeys clk s val Hk). eauto.
  - intros clk k val Hk. split; [| now apply Hkeys]. unfold VideoInfo_setitem.
    replace (negb (existsb (String.eqb k) video_keys)) with false; [now apply Hkeys |].
    symmetry. apply negb_false_iff, existsb_exists. exists k.
    split; [assumption | apply String.eqb_refl].
Qed.

End VideoFrozen.

(** ** What [coerce_dtypes] establishes *)

Section CoerceChecks.
Variable cast_other : dtype -> cell -> result cell.

Local Abbreviation check_dtypes := (check_dtypes pd_convert_dtypes).
Local Abbreviation coerce_loop := (coerce_loop pd_convert_dtypes (pd_astype cast_other)).
Local Abbreviation coerce_dtypes := (coerce_dtypes pd_convert_dtypes (pd_astype cast_other)).

(** A column just cast to the dtype of a settled type passes the check. *)
Lemma cast_column_checks data c t d s s' :
  settled_type t = true ->
  target_dtype (Single t) = Ok d ->
  pd_astype cast_other d s = Ok s' ->
  getitem data c = Ok s' ->
  check_dtypes data [(c, Single t)] = Ok true.
Proof.
  intros Ht Hd Hs Hg. unfold pd_astype in Hs.
  destruct (cast_cells cast_other d (s_values s)) as [vals |]; cbn [bind] in Hs;
    [| discriminate].
  injection Hs as <-.
  cbn [Dtypes.check_dtypes]. unfold check_column, narrowed. rewrite Hg. cbn [bind].
  destruct t; try discriminate Ht; cbn in Hd; injection Hd as <-; reflexivity.
Qed.

Lemma coerce_loop_checks kwargs : forall data res r,
  frame_wf res ->
  NoDup (map fst kwargs) ->
  Forall (fun kw => exists t, snd kw = Single t /\ settled_type t = true) kwargs ->
  (forall c, In c (map fst kwargs) -> getitem res c = getitem data c) ->
  coerce_loop data res kwargs = Ok r ->
  forall c ts, In (c, ts) kwargs -> check_dtypes r [(c, ts)] = Ok true.
Proof.
  induction kwargs as [| [c0 ts0] rest IH]; intros data res r Hwf Hnd Hall Hsame Hrun c ts Hi;
    [destruct Hi |].
  cbn [map fst] in Hnd. apply NoDup_cons in Hnd as [Hfresh Hnd].
  rewrite list_elem_of_In in Hfresh.
  apply Forall_cons_1 in Hall as [(t0 & Et0 & Hset) Hall]. cbn [snd] in Et0. subst ts0.
  cbn [Dtypes.coerce_loop] in Hrun.
  destruct (check_dtypes data [(c0, Single t0)]) as [[|] | e] eqn:Ec; cbn [bind] in Hrun;
    try discriminate.
  - destruct (coerce_loop_frame _ _ rest data res r Hwf Hrun) as (_ & _ & _ & Hout).
    destruct Hi as [[= <- <-] | Hi].
    + rewrite (check_single_congr _ r data c0 (Single t0)); [exact Ec |].
      rewrite (Hout c0 Hfresh). apply Hsame. now left.
    + apply (IH data res r Hwf Hnd Hall); [| exact Hrun | exact Hi].
      intros c' Hc'. apply Hsame. now right.
  - destruct (getitem res c0) as [s | e] eqn:Hg; cbn [bind] in Hrun; [| discriminate].
    destruct (target_dtype (Single t0)) as [d | e] eqn:Hd; cbn [bind] in Hrun;
      [| discriminate].
    destruct (pd_astype cast_other d s) as [s' | e] eqn:Hs; cbn [bind] in Hrun;
      [| discriminate].
    destruct (setitem res c0 s') as [res' | e] eqn:Hset'; cbn [bind] in Hrun;
      [| discriminate].
    assert (Hj : exists j, index_of c0 (column_names res) = Some j).
    { unfold getitem in Hg. destruct (index_of c0 (column_names res)); [eauto | discriminate]. }
    destruct Hj as [j Hj].
    destruct (setitem_existing res c0 s' j Hwf Hj (setitem_Ok_length _ _ _ _ Hset'))
      as (res2 & Hs2 & Hwf2 & _ & _ & Hnew & Hother).
    rewrite Hset' in Hs2. injection Hs2 as <-.
    destruct (coerce_loop_frame _ _ rest data res' r Hwf2 Hrun) as (_ & _ & _ & Hout).
    destruct Hi as [[= <- <-] | Hi].
    + apply (cast_column_checks r c0 t0 d s s' Hset Hd Hs).
      rewrite (Hout c0 Hfresh). exact Hnew.
    + apply (IH data res' r Hwf2 Hnd Hall); [| exact Hrun | exact Hi].
      intros c' Hc'. rewrite Hother; [apply Hsame; now right |].
      intros ->. contradiction.
Qed.

Lemma check_dtypes_all data kwargs :
  (forall c ts, In (c, ts) kwargs -> check_dtypes data [(c, ts)] = Ok true) ->
  check_dtypes data kwargs = Ok true.
Proof.
  induction kwargs as [| [c ts] rest IH]; intros H; [reflexivity |].
  pose proof (H c ts (or_introl eq_refl)) as Hc. cbn [Dtypes.check_dtypes] in Hc |- *.
  destruct (check_column pd_convert_dtypes data c ts) as [[|] |]; cbn [bind] in Hc |- *;
    try discriminate.
  apply IH. intros c' ts' Hi. apply H. now right.
Qed.

(** X29: after [coerce_dtypes] returns normally on keyword arguments that
    name each column once, with the types [int], [float], [complex], [str],
    [bool], [datetime] or [timedelta], [check_dtypes] with the same keyword
    arguments holds of the frame returned. *)
Theorem coerce_dtypes_establishes_check data kwargs r :
  frame_wf data ->
  NoDup (map fst kwargs) ->
  Forall (fun kw => exists t, snd kw = Single t /\ settled_type t = true) kwargs ->
  coerce_dtypes data kwargs = Ok r ->
  check_dtypes r kwargs = Ok true.
Proof.
  intros Hwf Hnd Hall Hrun. unfold Dtypes.coerce_dtypes in Hrun.
  destruct kwargs as [| kw rest]; [discriminate |].
  apply check_dtypes_all.
  exact (coerce_loop_checks (kw :: rest) data data r Hwf Hnd Hall (fun _ _ => eq_refl) Hrun).
Qed.

End CoerceChecks.

(** * The further properties at concrete inputs *)

Lemma coerce_dtypes_checked_unchanged_witness :
  coerce_dtypes pd_convert_dtypes (pd_astype refuse_cast) typed_frame typed_kwargs
  = Ok typed_frame.
Proof.
  apply (coerce_dtypes_checked_unchanged pd_convert_dtypes (pd_astype refuse_cast)).
  - discriminate.
  - vm_compute. reflexivity.
Defined.

Lemma coerce_dtypes_keeps_other_columns_witness :
  exists r,
    coerce_dtypes pd_convert_dtypes (pd_astype refuse_cast) mixed_frame
      [("views", Single ty_int)] = Ok r /\
    column_names r = ["views"; "rating"; "title"] /\
    getitem r "title" = getitem mixed_frame "title".
Proof.
  destruct (coerce_dtypes pd_convert_dtypes (pd_astype refuse_cast) mixed_frame
              [("views", Single ty_int)]) as [r | e] eqn:E; [| vm_compute in E; discriminate E].
  destruct (coerce_dtypes_keeps_other_columns pd_convert_dtypes (pd_astype refuse_cast)
              mixed_frame [("views", Single ty_int)] r) as (Hn & _ & Hother).
  - repeat constructor.
  - exact E.
  - exists r. split; [reflexivity |]. split; [exact Hn |].
    apply Hother. cbn. intros [H | []]. discriminate H.
Defined.

Lemma check_dtypes_kwargless_consistent_witness :
  check_dtypes pd_convert_dtypes mixed_frame [("rating", Single ty_int)] = Ok true.
Proof.
  apply (check_dtypes_kwargless_consistent pd_convert_dtypes mixed_frame
           [("views", ty_object); ("rating", ty_int); ("title", ty_str)]).
  - vm_compute. reflexivity.
  - right. left. reflexivity.
Defined.

Lemma check_dtypes_multiple_any_witness :
  check_dtypes pd_convert_dtypes mixed_frame [("rating", Multiple c_tuple [ty_float; ty_int])]
  = Ok true.
Proof.
  apply (check_dtypes_multiple_any pd_convert_dtypes mixed_frame "rating" c_tuple
           [ty_float; ty_int]).
  - repeat constructor; eexists; vm_compute; reflexivity.
  - apply Exists_cons_tl, Exists_cons_hd. vm_compute. reflexivity.
Defined.

Lemma Stats_init_stores_dataset_witness :
  exists s,
    Stats_init is_video_id_spec refuse_cast clock0 (Some future_dataset) false = Ok s /\
    (let! d := select_columns future_dataset expected_names in
     let! d := dropna d ["video_id"; "timestamp"] in
     drop_duplicates d ["video_id"; "timestamp"]) = Ok (_data s).
Proof.
  destruct (Stats_init is_video_id_spec refuse_cast clock0 (Some future_dataset) false)
    as [s | e] eqn:E; [| vm_compute in E; discriminate E].
  exists s. split; [reflexivity |].
  exact (proj2 (Stats_init_stores_dataset is_video_id_spec refuse_cast clock0
                  future_dataset false s E)).
Defined.

Lemma Stats_init_rows_checked_witness :
  exists s,
    Stats_init is_video_id_spec refuse_cast clock0 (Some relabelled_dataset) false = Ok s /\
    column_names (_data s) = expected_names /\
    Forall (fun r => exists v t,
              cell_at 0 (snd r) = CStr v /\ is_video_id_spec v = true /\
              cell_at 1 (snd r) = CTimestamp t /\ is_aware t = true)
           (rows (_data s)).
Proof.
  destruct (Stats_init is_video_id_spec refuse_cast clock0 (Some relabelled_dataset) false)
    as [s | e] eqn:E; [| vm_compute in E; discriminate E].
  exists s. split; [reflexivity |].
  exact (Stats_init_rows_checked is_video_id_spec refuse_cast clock0 relabelled_dataset
           false s E).
Defined.

Lemma Stats_init_unique_pairs_witness :
  exists s,
    Stats_init is_video_id_spec refuse_cast clock0 (Some relabelled_dataset) false = Ok s /\
    unique_pairs s.
Proof.
  destruct (Stats_init is_video_id_spec refuse_cast clock0 (Some relabelled_dataset) false)
    as [s | e] eqn:E; [| vm_compute in E; discriminate E].
  exists s. split; [reflexivity |].
  exact (Stats_init_unique_pairs is_video_id_spec refuse_cast clock0 relabelled_dataset
           false s E).
Defined.

Lemma Stats_init_interpolate_witness :
  Stats_init is_video_id_spec refuse_cast clock0 (Some future_dataset) true
  = Raise NotImplementedError.
Proof.
  destruct (Stats_init is_video_id_spec refuse_cast clock0 (Some future_dataset) false)
    as [s | e] eqn:E; [| vm_compute in E; discriminate E].
  exact (proj1 (proj2 (Stats_init_interpolate is_video_id_spec refuse_cast clock0
                         future_dataset)) s E).
Defined.

Lemma store_feb_jan_added :
  add_row is_video_id_spec refuse_cast clock0 store_feb
    (VStr "12345678901") (VDatetime january) (VInt 50) VNone (VInt 30) (VInt 20)
  = (store_feb_jan, Ok tt).
Proof. vm_compute. reflexivity. Qed.

Lemma add_row_sorted_witness : sorted_by_pair store_feb_jan.
Proof.
  apply (add_row_sorted is_video_id_spec refuse_cast clock0 store_feb
           (VStr "12345678901") (VDatetime january) (VInt 50) VNone (VInt 30) (VInt 20)
           store_feb_jan store_feb_jan_added).
  vm_compute. reflexivity.
Defined.

Lemma add_row_keeps_columns_witness :
  columns (_data store_feb_jan) = columns (_data store_feb).
Proof.
  apply (add_row_keeps_columns is_video_id_spec refuse_cast clock0 store_feb
           (VStr "12345678901") (VDatetime january) (VInt 50) VNone (VInt 30) (VInt 20)
           store_feb_jan).
  - apply (bool_decide_unpack _). vm_compute. reflexivity.
  - exact store_feb_jan_added.
Defined.

Lemma add_row_length_witness : Stats_len store_feb_jan = 2%nat.
Proof.
  rewrite (add_row_length is_video_id_spec refuse_cast clock0 store_feb
             (VStr "12345678901") (VDatetime january) (VInt 50) VNone (VInt 30) (VInt 20)
             store_feb_jan).
  - vm_compute. reflexivity.
  - apply (bool_decide_unpack _). vm_compute. reflexivity.
  - exact store_feb_jan_added.
Defined.

Lemma add_row_stores_derived_rating_witness :
  exists label,
    In (label, [CStr "12345678901"; CTimestamp january; CFloat 50; CFloat 3; CFloat 30;
                CFloat 20])
       (rows (_data store_feb_jan)).
Proof.
  destruct (add_row_stores_derived_rating is_video_id_spec refuse_cast clock0 store_feb
              "12345678901" january 50 30 20 store_feb_jan) as (label & Hin).
  - vm_compute. reflexivity.
  - exact store_feb_jan_added.
  - exists label. vm_compute in Hin |- *. exact Hin.
Defined.

Lemma add_row_no_votes_witness :
  add_row is_video_id_spec refuse_cast clock0 empty_store
    (VStr "12345678901") (VDatetime january) (VInt 50) VNone (VInt 0) (VInt 0)
  = (empty_store, Raise ZeroDivisionError).
Proof.
  apply (add_row_no_votes is_video_id_spec refuse_cast clock0 empty_store).
  vm_compute. reflexivity.
Defined.

Lemma most_recent_labels_positions_witness :
  most_recent store_jan_feb = Ok (most_recent_spec store_jan_feb).
Proof.
  apply (most_recent_labels_positions store_jan_feb false).
  - vm_compute. reflexivity.
  - vm_compute. reflexivity.
  - vm_compute. repeat constructor.
    + exists "12345678901", january. repeat split.
    + exists "12345678901", february. repeat split.
Defined.

Lemma sample_video_constructed imm : exists v, sample_video imm = Ok v /\ v_immutable v = imm.
Proof.
  destruct (sample_video imm) as [v | e] eqn:E.
  - exists v. split; [reflexivity |].
    destruct (init_valid url_with_scheme _ _ _ _ _ _ _ _ _ _ _ _ _ E) as (_ & _ & Hf).
    now injection Hf.
  - destruct imm; vm_compute in E; discriminate E.
Qed.

Lemma sample_video_reachable imm v :
  sample_video imm = Ok v -> VideoInfo_reachable url_with_scheme v.
Proof. intros E. exact (video_constructed _ _ _ _ _ _ _ _ _ _ _ _ _ _ E). Qed.

Lemma VideoInfo_fields_valid_witness :
  exists v, sample_video true = Ok v /\ video_valid url_with_scheme v /\ video_complete v.
Proof.
  destruct (sample_video_constructed true) as (v & E & _).
  exists v. split; [exact E |].
  exact (VideoInfo_fields_valid url_with_scheme v (sample_video_reachable true v E)).
Defined.

Lemma VideoInfo_setitem_other_keys_witness :
  exists v v',
    sample_video false = Ok v /\
    VideoInfo_setitem url_with_scheme clock0 v (VStr "video_title") (VStr "renamed") = Ok v' /\
    VideoInfo_getitem v' (VStr "video_id") = VideoInfo_getitem v (VStr "video_id").
Proof.
  destruct (sample_video_constructed false) as (v & E & _).
  destruct (VideoInfo_setitem url_with_scheme clock0 v (VStr "video_title") (VStr "renamed"))
    as [v' | e] eqn:Es.
  - exists v, v'. split; [exact E |]. split; [exact Es |].
    apply (VideoInfo_setitem_other_keys url_with_scheme clock0 v "video_title"
             (VStr "renamed") v' Es). discriminate.
  - vm_compute in E. injection E as <-. vm_compute in Es. discriminate Es.
Defined.

Lemma VideoInfo_eq_refl_witness :
  exists v items, sample_video true = Ok v /\ VideoInfo_items v = Ok items /\
                  VideoInfo_eq v items = Ok true.
Proof.
  destruct (sample_video_constructed true) as (v & E & _).
  destruct (VideoInfo_eq_refl url_with_scheme v (sample_video_reachable true v E))
    as (items & Hi & He).
  exists v, items. auto.
Defined.

Lemma VideoInfo_eq_across_flags_witness :
  exists v1 v2 items1 items2,
    sample_video true = Ok v1 /\ sample_video false = Ok v2 /\
    VideoInfo_items v1 = Ok items1 /\ VideoInfo_items v2 = Ok items2 /\
    VideoInfo_eq v1 items2 = Ok false /\ VideoInfo_eq v2 items1 = Ok false.
Proof.
  destruct (sample_video_constructed true) as (v1 & E1 & F1).
  destruct (sample_video_constructed false) as (v2 & E2 & F2).
  pose proof (sample_video_reachable _ _ E1) as R1.
  pose proof (sample_video_reachable _ _ E2) as R2.
  destruct (VideoInfo_items v1) as [items1 | e] eqn:Hi1;
    [| vm_compute in E1; injection E1 as <-; vm_compute in Hi1; discriminate Hi1].
  destruct (VideoInfo_items v2) as [items2 | e] eqn:Hi2;
    [| vm_compute in E2; injection E2 as <-; vm_compute in Hi2; discriminate Hi2].
  destruct (VideoInfo_eq_across_flags url_with_scheme v1 v2 items1 items2 R1 R2 F1 F2 Hi1 Hi2)
    as [H12 H21].
  exists v1, v2, items1, items2. auto 10.
Defined.

Lemma ChannelInfo_set_html_dict_witness :
  exists c hp c',
    sample_channel [] false = Ok (c, hp) /\
    ChannelInfo_set_html hp c
      (VDict [("about", VStr "a"); ("community", VStr "b"); ("featured_channels", VStr "c");
              ("videos", VStr "d"); ("immutable", VBool true)])
    = Ok (c', [mk_html false (Some "about") (Some "community") (Some "featured")
                 (Some "videos");
               mk_html false (Some "a") (Some "b") (Some "c") (Some "d")]).
Proof.
  destruct (sample_channel [] false) as [[c hp] | e] eqn:E; [| vm_compute in E; discriminate E].
  destruct (ChannelInfo_set_html_dict hp c
              [("about", VStr "a"); ("community", VStr "b"); ("featured_channels", VStr "c");
               ("videos", VStr "d"); ("immutable", VBool true)])
    as [Hr | (a & b & c0 & d & Ha & Hb & Hc & Hd & Hs)].
  - vm_compute in E. injection E as <- <-. reflexivity.
  - vm_compute in E. injection E as <- <-. vm_compute in Hr. discriminate Hr.
  - exists c, hp. eexists. split; [reflexivity |]. rewrite Hs.
    injection Ha as <-. injection Hb as <-. injection Hc as <-. injection Hd as <-.
    vm_compute in E. injection E as <- <-. reflexivity.
Defined.

Lemma ChannelInfo_eq_ignores_flag_witness :
  exists c1 hp1 c2 hp2 items,
    sample_channel [] true = Ok (c1, hp1) /\ sample_channel hp1 false = Ok (c2, hp2) /\
    ChannelInfo_items c2 = Ok items /\ ChannelInfo_eq hp2 c1 items = Ok true.
Proof.
  destruct (sample_channel [] true) as [[c1 hp1] | e] eqn:E1;
    [| vm_compute in E1; discriminate E1].
  destruct (sample_channel hp1 false) as [[c2 hp2] | e] eqn:E2.
  - destruct (ChannelInfo_eq_ignores_flag clock0 clock0 [] _ _ _ _ _ _ _ true false
                c1 hp1 c2 hp2 E1 E2) as (items & Hi & He).
    exists c1, hp1, c2, hp2, items. auto.
  - vm_compute in E1. injection E1 as <- <-. vm_compute in E2. discriminate E2.
Defined.

(** ** The grown stores of the samples *)

Lemma store_feb_added :
  add_row is_video_id_spec refuse_cast clock0 empty_store
    (VStr "12345678901") (VDatetime february) (VInt 100) VNone (VInt 80) (VInt 20)
  = (store_feb, Ok tt).
Proof. vm_compute. reflexivity. Qed.

Lemma store_feb_grown : Stats_grown is_video_id_spec refuse_cast store_feb.
Proof.
  eapply grown_add_row; [| exact store_feb_added].
  apply (grown_new _ _ clock0 false). reflexivity.
Qed.

Lemma store_feb_jan_grown : Stats_grown is_video_id_spec refuse_cast store_feb_jan.
Proof. eapply grown_add_row; [exact store_feb_grown | exact store_feb_jan_added]. Qed.

Lemma store_feb_1600_added :
  add_row is_video_id_spec refuse_cast clock0 store_feb
    (VStr "12345678901") (VDatetime year_1600) (VInt 1) VNone VNone VNone
  = (store_feb_1600, Raise ValueError).
Proof. vm_compute. reflexivity. Qed.

Lemma store_feb_1600_grown : Stats_grown is_video_id_spec refuse_cast store_feb_1600.
Proof. eapply grown_add_row; [exact store_feb_grown | exact store_feb_1600_added]. Qed.

Lemma grown_store_invariant_witness :
  column_names (_data store_feb_1600) = expected_names /\
  labels_permuted store_feb_1600 /\ unique_pairs store_feb_1600.
Proof.
  destruct (grown_store_invariant is_video_id_spec refuse_cast store_feb_1600
              store_feb_1600_grown) as (Hc & _ & Hl & Hu).
  auto.
Defined.



Lemma add_row_grown_duplicate_witness :
  add_row is_video_id_spec refuse_cast clock0 store_feb_jan (VStr "12345678901")
    (VDatetime january) (VInt 7) (VFloat (5 # 2)) VNone VNone
  = (store_feb_jan, Raise ValueError).
Proof.
  apply (add_row_grown_duplicate is_video_id_spec refuse_cast clock0 store_feb_jan
           "12345678901" january (VInt 7) (VFloat (5 # 2)) VNone VNone
           store_feb_jan_grown).
  - exists 1, [CStr "12345678901"; CTimestamp january; CFloat 50; CFloat 3; CFloat 30;
               CFloat 20], january.
    rewrite store_feb_jan_rows. repeat split. left. reflexivity.
  - vm_compute. discriminate.
  - exists 7. split; [reflexivity | lia].
  - right. exists (5 # 2)%Q. split; [reflexivity |]. split; vm_compute; discriminate.
  - left. reflexivity.
  - left. reflexivity.
Defined.

Lemma grown_store_data_rejected_witness :
  exists e, Stats_init is_video_id_spec refuse_cast clock0 (Some (Stats_data store_feb)) false
            = Raise e.
Proof.
  apply (grown_store_data_rejected is_video_id_spec refuse_cast clock0 store_feb false
           store_feb_grown).
  vm_compute. discriminate.
Defined.

(** ** A constructed [ChannelInfo] *)

Lemma sample_channel_reachable imm c hp :
  sample_channel [] imm = Ok (c, hp) -> ChannelInfo_reachable c hp.
Proof.
  intros E. exact (channel_constructed _ _ _ _ _ _ _ _ _ _ _ _ (List.Forall_nil _) E).
Qed.

Lemma ChannelInfo_fields_valid_witness :
  exists c hp, sample_channel [] false = Ok (c, hp) /\ channel_valid c hp.
Proof.
  destruct (sample_channel [] false) as [[c hp] | e] eqn:E; [| vm_compute in E; discriminate E].
  exists c, hp. split; [reflexivity |].
  exact (ChannelInfo_fields_valid c hp (sample_channel_reachable false c hp E)).
Defined.

Lemma ChannelInfo_immutable_frozen_witness :
  exists c hp,
    sample_channel [] true = Ok (c, hp) /\
    ChannelInfo_setitem clock0 hp c (VStr "channel_name") (VStr "renamed")
    = Raise AttributeError /\
    HtmlDict_setitem hp 0 (VStr "about") (VStr "rewritten") = Raise AttributeError.
Proof.
  destruct (sample_channel [] true) as [[c hp] | e] eqn:E; [| vm_compute in E; discriminate E].
  destruct (ChannelInfo_immutable_frozen c hp (sample_channel_reachable true c hp E))
    as (_ & Hc & r & Hr & _ & Hh).
  - vm_compute in E. injection E as <- _. reflexivity.
  - exists c, hp. split; [reflexivity |]. split.
    + apply Hc. cbn. auto.
    + assert (r = 0%nat) as <-.
      { vm_compute in E. injection E as <- _. now injection Hr. }
      apply Hh. cbn. auto.
Defined.

Lemma VideoInfo_immutable_frozen_witness :
  exists v,
    sample_video true = Ok v /\
    VideoInfo_setitem url_with_scheme clock0 v (VStr "video_title") (VStr "renamed")
    = Raise AttributeError.
Proof.
  destruct (sample_video_constructed true) as (v & E & F).
  exists v. split; [exact E |].
  destruct (VideoInfo_immutable_frozen url_with_scheme v (sample_video_reachable true v E) F)
    as [_ H].
  apply H. cbn. tauto.
Defined.

Lemma most_recent_grown_witness :
  exists result,
    most_recent store_feb_jan = Ok result /\
    forall k fields,
      In (k, fields) result ->
      exists label row,
        In (label, row) (rows (_data store_feb_jan)) /\ cell_at 0 row = k /\
        fields = zip_fields ["timestamp"; "views"; "rating"; "likes"; "dislikes"] (tl row).
Proof.
  exact (most_recent_grown is_video_id_spec refuse_cast store_feb_jan store_feb_jan_grown).
Defined.

Lemma coerce_dtypes_establishes_check_witness :
  exists r,
    coerce_dtypes pd_convert_dtypes (pd_astype refuse_cast) mixed_frame mixed_kwargs = Ok r /\
    check_dtypes pd_convert_dtypes r mixed_kwargs = Ok true.
Proof.
  destruct (coerce_dtypes pd_convert_dtypes (pd_astype refuse_cast) mixed_frame mixed_kwargs)
    as [r | e] eqn:E; [| vm_compute in E; discriminate E].
  exists r. split; [reflexivity |].
  apply (coerce_dtypes_establishes_check refuse_cast mixed_frame mixed_kwargs r).
  - repeat constructor.
  - apply (bool_decide_unpack _). vm_compute. reflexivity.
  - repeat constructor; eexists; split; reflexivity.
  - exact E.
Defined.
